(** * AssetTracker: assignment ledger and serial allocation

    A shallow embedding of the core of the asset tracker:

    - [src/AssetManagament.sql]: the tables [Employees], [Assets] and
      [AssetAssignments] with their constraints, and the stored procedures
      [sp_AssignAsset], [sp_ReturnAsset], [sp_GetActiveAssignments] and
      [sp_GetAssetHistory];
    - [src/Backend/server.js]: [generateSerialNumber] and the request
      handlers of employees, assets, assignments, asset types and the
      dashboard;
    - [src/Frontend/src/App.jsx]: [getSerialPrefix].

    Integers (ids, timestamps, sequence numbers) are [Z]; strings are
    [string]; a table is the list of its rows in storage order; a nullable
    column is an [option].  A string is the sequence of its code units,
    each below 256.  A JavaScript Number that holds an integer is that
    integer: arithmetic on Numbers rounds to 53 significant bits, and the
    string of a Number is its shortest decimal, in exponent form from 10^21
    on. *)

From Stdlib Require Import ZArith List String Ascii Bool Lia.
From Stdlib Require Import Numbers.DecimalString.
From Stdlib Require Import Permutation Sorted.
Import ListNotations.

Open Scope string_scope.
Open Scope Z_scope.

(* ================================================================== *)
(** ** JavaScript string primitives used by [generateSerialNumber] *)
(* ================================================================== *)

Module JS.

Definition code (c : ascii) : nat := nat_of_ascii c.

Definition is_lower (c : ascii) : bool :=
  (Nat.leb 97 (code c) && Nat.leb (code c) 122)%bool.

Definition is_upper (c : ascii) : bool :=
  (Nat.leb 65 (code c) && Nat.leb (code c) 90)%bool.

(** The character class [a-zA-Z]. *)
Definition is_letter (c : ascii) : bool := (is_lower c || is_upper c)%bool.

Definition is_digit (c : ascii) : bool :=
  (Nat.leb 48 (code c) && Nat.leb (code c) 57)%bool.

(** White space and line terminators skipped by [parseInt], among the code
    units below 256: TAB, LF, VT, FF, CR, SPACE and NO-BREAK SPACE. *)
Definition is_space (c : ascii) : bool :=
  (Nat.leb 9 (code c) && Nat.leb (code c) 13 || Nat.eqb (code c) 32
   || Nat.eqb (code c) 160)%bool.

Fixpoint filter (p : ascii -> bool) (s : string) : string :=
  match s with
  | EmptyString => EmptyString
  | String c s' => if p c then String c (filter p s') else filter p s'
  end.

Fixpoint map (f : ascii -> ascii) (s : string) : string :=
  match s with
  | EmptyString => EmptyString
  | String c s' => String (f c) (map f s')
  end.

Fixpoint forallb (p : ascii -> bool) (s : string) : bool :=
  match s with
  | EmptyString => true
  | String c s' => (p c && forallb p s')%bool
  end.

Fixpoint repeat (c : ascii) (n : nat) : string :=
  match n with
  | O => EmptyString
  | S n' => String c (repeat c n')
  end.

(** [s.replace(/[^a-zA-Z]/g, '')] *)
Definition replace_non_letters (s : string) : string := filter is_letter s.

(** [s.substring(0, n)] *)
Definition substring0 (n : nat) (s : string) : string := String.substring 0 n s.

Definition upper_char (c : ascii) : ascii :=
  if is_lower c then ascii_of_nat (code c - 32) else c.

(** [s.toUpperCase()], on the ASCII range. *)
Definition toUpperCase (s : string) : string := map upper_char s.

(** [s.padEnd(n, c)] and [s.padStart(n, c)] for a one-character filler. *)
Definition padEnd (n : nat) (c : ascii) (s : string) : string :=
  s ++ repeat c (n - String.length s).

Definition padStart (n : nat) (c : ascii) (s : string) : string :=
  repeat c (n - String.length s) ++ s.

(** *** Numbers

    A Number that holds an integer is that integer, as a [Z]; [infinity]
    stands for Infinity and its opposite for -Infinity.  [number n] is the
    Number nearest to the integer [n]: [n] itself below 2^53, beyond that
    [n] rounded to 53 significant bits, a tie to the even one, and Infinity
    from 2^1024 - 2^970 on. *)
Definition infinity : Z := 2 ^ 1024.

Definition round_magnitude (m : Z) : Z :=
  let e := Z.log2 m - 52 in
  if e <=? 0 then m
  else
    let q := Z.shiftr m e in
    let r := m - Z.shiftl q e in
    let half := Z.shiftl 1 (e - 1) in
    let q' := if r <? half then q
              else if half <? r then q + 1
              else if Z.even q then q else q + 1 in
    Z.min (Z.shiftl q' e) infinity.

Definition number (n : Z) : Z :=
  if n <? 0 then - round_magnitude (- n) else round_magnitude n.

(** [a + b] on Numbers that hold integers: the sum, rounded. *)
Definition add (a b : Z) : Z := number (a + b).

(** The decimal numeral of an integer. *)
Definition decimal (n : Z) : string := NilZero.string_of_int (Z.to_int n).

(** The decimal with the fewest significant digits that reads back as the
    Number [x], the closest to [x] when there are two: [p] is the power of
    ten that the digits in hand are multiples of. *)
Fixpoint shortest_go (fuel : nat) (x p : Z) : Z :=
  match fuel with
  | O => x
  | S fuel' =>
      let lo := x / p * p in
      let hi := lo + p in
      let ok_lo := number lo =? x in
      let ok_hi := number hi =? x in
      if (ok_lo && ok_hi)%bool then (if x - lo <=? hi - x then lo else hi)
      else if ok_lo then lo
      else if ok_hi then hi
      else shortest_go fuel' x (p / 10)
  end.

Definition shortest (x : Z) : Z :=
  let d := String.length (decimal x) in
  shortest_go d x (10 ^ Z.of_nat (d - 1)).

(** [s] without the zeros at its end. *)
Fixpoint strip_zeros (s : string) : string :=
  match s with
  | EmptyString => EmptyString
  | String c s' =>
      match strip_zeros s' with
      | EmptyString => if Ascii.eqb c "0" then EmptyString else String c EmptyString
      | t => String c t
      end
  end.

(** The exponent form of the numeral [ds]: [d.ddde+n]. *)
Definition exponent_form (ds : string) : string :=
  let n := decimal (Z.of_nat (String.length ds - 1)) in
  match strip_zeros ds with
  | EmptyString => "0"
  | String d EmptyString => String d ("e+" ++ n)
  | String d rest => String d ("." ++ rest ++ "e+" ++ n)
  end.

(** The string of a Number of 2^53 or more: its shortest decimal, written
    out below 10^21 and in exponent form from there on. *)
Definition render (x : Z) : string :=
  if infinity <=? x then "Infinity"
  else
    let w := shortest x in
    if w <? 10 ^ 21 then decimal w else exponent_form (decimal w).

(** [n.toString()] and the template conversion [`${n}`] of a Number that
    holds an integer: below 2^53 every integer is a Number, and its string
    is its decimal numeral. *)
Definition toString (n : Z) : string :=
  let x := number n in
  if Z.abs x <? 9007199254740992 then decimal x
  else if x <? 0 then "-" ++ render (- x)
  else render x.

(** [s.split(sep)] for a one-character separator: [cur] is the piece
    being read. *)
Fixpoint split_go (sep : ascii) (cur : string) (s : string) : list string :=
  match s with
  | EmptyString => [cur]
  | String c s' =>
      if Ascii.eqb c sep then cur :: split_go sep EmptyString s'
      else split_go sep (cur ++ String c EmptyString) s'
  end.

Definition split (sep : ascii) (s : string) : list string :=
  split_go sep EmptyString s.

Fixpoint skip_spaces (s : string) : string :=
  match s with
  | String c s' => if is_space c then skip_spaces s' else s
  | EmptyString => s
  end.

Definition digit_value (c : ascii) : Z := Z.of_nat (code c - 48).

(** Reads the longest run of decimal digits in front of [s]: the value
    accumulated so far and whether a digit was seen. *)
Fixpoint digits_go (acc : Z) (seen : bool) (s : string) : Z * bool :=
  match s with
  | String c s' =>
      if is_digit c then digits_go (10 * acc + digit_value c) true s'
      else (acc, seen)
  | EmptyString => (acc, seen)
  end.

Definition digits (s : string) : option Z :=
  let '(v, seen) := digits_go 0 false s in
  if seen then Some v else None.

(** [parseInt(s, 10)]: the Number nearest to the integer that the digits
    write; [None] is NaN. *)
Definition parseInt (s : string) : option Z :=
  option_map number
    match skip_spaces s with
    | String "-" s' => option_map Z.opp (digits s')
    | String "+" s' => digits s'
    | s' => digits s'
    end.

End JS.

(* ================================================================== *)
(** ** The database of [AssetManagament.sql] *)
(* ================================================================== *)

(** Rows of the three tables.  [None] in a nullable column is NULL. *)

Record Employee := mkEmployee {
  EmployeeId : Z;
  FullName : string;
  Email : string;
  Position : option string;
  emp_CreatedAt : Z
}.

Record Asset := mkAsset {
  AssetId : Z;
  AssetName : string;
  AssetType : string;
  SerialNumber : option string;
  asset_CreatedAt : Z
}.

Record AssetAssignment := mkAssignment {
  AssignmentId : Z;
  aa_AssetId : Z;
  aa_EmployeeId : Z;
  AssignedAt : Z;
  ReturnedAt : option Z
}.

(** The database is created without a COLLATE clause, so string comparison
    follows the server's collation: case-insensitive on a default install,
    case-sensitive on others.  Both are covered. *)
Inductive collation := CaseInsensitive | CaseSensitive.

Record DB := mkDB {
  db_collation : collation;
  Employees : list Employee;
  Assets : list Asset;
  AssetAssignments : list AssetAssignment;
  (** next value of [AssignmentId INT IDENTITY(1,1)] and of its siblings *)
  ident_Employees : Z;
  ident_Assets : Z;
  ident_AssetAssignments : Z
}.

Definition empty_db (co : collation) : DB := mkDB co [] [] [] 1 1 1.

(** Errors the engine raises for a statement. *)
Inductive db_error :=
| ConversionFailed              (* Msg 245: conversion of a varchar to int *)
| CheckViolation                (* Msg 547: CK_ReturnedAfterAssigned *)
| ForeignKeyViolation           (* Msg 547: a FOREIGN KEY of the schema *)
| UniqueIndexViolation          (* Msg 2601: UQ_OneAssetOneEmployee *)
| UniqueKeyViolation            (* Msg 2627: a UNIQUE column *)
| Truncation.                   (* Msg 2628: a value longer than its column *)

Module SQL.

Definition chr_eqb (co : collation) (a b : ascii) : bool :=
  match co with
  | CaseSensitive => Ascii.eqb a b
  | CaseInsensitive => Ascii.eqb (JS.upper_char a) (JS.upper_char b)
  end.

Fixpoint str_eqb (co : collation) (a b : string) : bool :=
  match a, b with
  | EmptyString, EmptyString => true
  | String x a', String y b' => (chr_eqb co x y && str_eqb co a' b')%bool
  | _, _ => false
  end.

Definition is_blank (c : ascii) : bool := Ascii.eqb c " ".

Fixpoint rtrim (s : string) : string :=
  match s with
  | EmptyString => EmptyString
  | String c s' =>
      match rtrim s' with
      | EmptyString => if is_blank c then EmptyString else String c EmptyString
      | r => String c r
      end
  end.

Fixpoint ltrim (s : string) : string :=
  match s with
  | String c s' => if is_blank c then ltrim s' else s
  | EmptyString => s
  end.

(** [a = b] on NVARCHAR: trailing blanks are not significant. *)
Definition eq (co : collation) (a b : string) : bool :=
  str_eqb co (rtrim a) (rtrim b).

(** [s LIKE p] with the wildcards [%] and [_] (the patterns of the
    program hold no bracket class). *)
Fixpoint like (co : collation) (p s : string) {struct p} : bool :=
  match p with
  | EmptyString => match s with EmptyString => true | _ => false end
  | String "%" p' =>
      (fix any (t : string) : bool :=
         (like co p' t ||
          match t with EmptyString => false | String _ t' => any t' end)%bool) s
  | String "_" p' =>
      match s with String _ s' => like co p' s' | EmptyString => false end
  | String c p' =>
      match s with
      | String d s' => (chr_eqb co c d && like co p' s')%bool
      | EmptyString => false
      end
  end.

(** [RIGHT(s, n)] *)
Definition RIGHT (s : string) (n : nat) : string :=
  String.substring (String.length s - n) n s.

(** [CAST(s AS INT)]: blanks around the number and a sign are accepted,
    the empty string is 0, anything else fails with Msg 245. *)
Fixpoint all_digits (acc : Z) (s : string) : option Z :=
  match s with
  | EmptyString => Some acc
  | String c s' =>
      if JS.is_digit c then all_digits (10 * acc + JS.digit_value c) s'
      else None
  end.

Definition in_int_range (v : Z) : option Z :=
  if ((-2147483648 <=? v) && (v <=? 2147483647))%bool then Some v else None.

Definition cast_int (s : string) : option Z :=
  match ltrim (rtrim s) with
  | EmptyString => Some 0
  | String "-" EmptyString | String "+" EmptyString => None
  | String "-" s' =>
      match all_digits 0 s' with Some v => in_int_range (- v) | None => None end
  | String "+" s' =>
      match all_digits 0 s' with Some v => in_int_range v | None => None end
  | s' =>
      match all_digits 0 s' with Some v => in_int_range v | None => None end
  end.

End SQL.

(** *** Generic query helpers *)

(** [SELECT TOP 1 ... ORDER BY key DESC]: the engine may return any row of
    maximal key; the model returns the first one in storage order. *)
Fixpoint top1_desc {A : Type} (key : A -> Z) (rows : list A) : option A :=
  match rows with
  | [] => None
  | r :: rows' =>
      match top1_desc key rows' with
      | Some r' => if key r <? key r' then Some r' else Some r
      | None => Some r
      end
  end.

(** Evaluates a fallible expression on every row; the first failure aborts
    the statement. *)
Fixpoint eval_rows {A B : Type} (f : A -> option B) (rows : list A) : option (list B) :=
  match rows with
  | [] => Some []
  | r :: rows' =>
      match f r, eval_rows f rows' with
      | Some b, Some bs => Some (b :: bs)
      | _, _ => None
      end
  end.

Definition count_rows {A : Type} (p : A -> bool) (rows : list A) : Z :=
  Z.of_nat (List.length (List.filter p rows)).

(** *** Table [AssetAssignments] *)

Definition is_active (r : AssetAssignment) : bool :=
  match ReturnedAt r with None => true | Some _ => false end.

(** [AssetId = @AssetId AND ReturnedAt IS NULL] *)
Definition active_for (a : Z) (r : AssetAssignment) : bool :=
  ((aa_AssetId r =? a) && is_active r)%bool.

(** [AssignmentId = @AssignmentId AND ReturnedAt IS NULL] *)
Definition active_with_id (id : Z) (r : AssetAssignment) : bool :=
  ((AssignmentId r =? id) && is_active r)%bool.

(** [CK_ReturnedAfterAssigned]: [ReturnedAt IS NULL OR ReturnedAt >= AssignedAt] *)
Definition CK_ReturnedAfterAssigned (r : AssetAssignment) : bool :=
  match ReturnedAt r with
  | None => true
  | Some t => AssignedAt r <=? t
  end.

(** [UQ_OneAssetOneEmployee]: the keys of the filtered index are the
    [AssetId]s of the rows [WHERE ReturnedAt IS NULL]; the index is unique
    when no key occurs twice. *)
Definition index_keys (rows : list AssetAssignment) : list Z :=
  List.map aa_AssetId (List.filter is_active rows).

Fixpoint no_duplicate_key (keys : list Z) : bool :=
  match keys with
  | [] => true
  | k :: keys' => (negb (existsb (Z.eqb k) keys') && no_duplicate_key keys')%bool
  end.

Definition asset_exists (db : DB) (a : Z) : bool :=
  existsb (fun x => AssetId x =? a) (Assets db).

Definition employee_exists (db : DB) (e : Z) : bool :=
  existsb (fun x => EmployeeId x =? e) (Employees db).

Definition with_AssetAssignments (db : DB) (rows : list AssetAssignment) : DB :=
  mkDB (db_collation db) (Employees db) (Assets db) rows
       (ident_Employees db) (ident_Assets db) (ident_AssetAssignments db).

(** An INSERT draws its identity value whether or not it succeeds. *)
Definition draw_AssignmentId (db : DB) : DB :=
  mkDB (db_collation db) (Employees db) (Assets db) (AssetAssignments db)
       (ident_Employees db) (ident_Assets db) (ident_AssetAssignments db + 1).

(** [INSERT INTO AssetAssignments (AssetId, EmployeeId, AssignedAt, ReturnedAt)
     VALUES (a, e, assignedAt, returnedAt)].
    The row is checked against the CHECK constraint, entered in the filtered
    unique index when it is active, and checked against both foreign keys. *)
Definition insert_AssetAssignments (db : DB) (a e assignedAt : Z)
    (returnedAt : option Z) : DB * option db_error :=
  let row := mkAssignment (ident_AssetAssignments db) a e assignedAt returnedAt in
  let db1 := draw_AssignmentId db in
  if negb (CK_ReturnedAfterAssigned row) then (db1, Some CheckViolation)
  else if (is_active row && existsb (active_for a) (AssetAssignments db))%bool
       then (db1, Some UniqueIndexViolation)
  else if negb (asset_exists db a && employee_exists db e)
       then (db1, Some ForeignKeyViolation)
  else (with_AssetAssignments db1 (AssetAssignments db ++ [row]), None).

(** [SET ReturnedAt = now] on the rows
    [WHERE AssignmentId = id AND ReturnedAt IS NULL] *)
Definition set_returned (id now : Z) (r : AssetAssignment) : AssetAssignment :=
  if active_with_id id r
  then mkAssignment (AssignmentId r) (aa_AssetId r) (aa_EmployeeId r)
                    (AssignedAt r) (Some now)
  else r.

(** [UPDATE AssetAssignments SET ReturnedAt = now
     WHERE AssignmentId = id AND ReturnedAt IS NULL]: the new database, the
    number of rows affected and the error raised.  A row whose new value
    fails the CHECK constraint aborts the statement. *)
Definition update_ReturnedAt (db : DB) (id now : Z) : DB * Z * option db_error :=
  let rows := AssetAssignments db in
  let rows' := List.map (set_returned id now) rows in
  if forallb CK_ReturnedAfterAssigned
       (List.map (set_returned id now) (List.filter (active_with_id id) rows))
  then (with_AssetAssignments db rows', count_rows (active_with_id id) rows, None)
  else (db, 0, Some CheckViolation).

(** [UPDATE AssetAssignments SET AssignedAt = x, ReturnedAt = y
     WHERE AssignmentId = id]: a manual edit of a row, as a client with
    [db_datawriter] can issue it.  The edited rows are checked against the
    CHECK constraint and the filtered index is rebuilt for them: the
    statement fails when the index would hold a key twice. *)
Definition edit_row (id x : Z) (y : option Z) (r : AssetAssignment) : AssetAssignment :=
  if AssignmentId r =? id
  then mkAssignment (AssignmentId r) (aa_AssetId r) (aa_EmployeeId r) x y
  else r.

Definition update_AssetAssignments (db : DB) (id x : Z) (y : option Z)
    : DB * option db_error :=
  let rows := AssetAssignments db in
  let rows' := List.map (edit_row id x y) rows in
  if negb (existsb (fun r => AssignmentId r =? id) rows) then (db, None)
  else if negb (forallb CK_ReturnedAfterAssigned
                  (List.filter (fun r => AssignmentId r =? id) rows'))
       then (db, Some CheckViolation)
  else if negb (no_duplicate_key (index_keys rows'))
       then (db, Some UniqueIndexViolation)
  else (with_AssetAssignments db rows', None).

(** [DELETE FROM AssetAssignments WHERE AssetId = a] *)
Definition delete_AssetAssignments (db : DB) (a : Z) : DB :=
  with_AssetAssignments db
    (List.filter (fun r => negb (aa_AssetId r =? a)) (AssetAssignments db)).

(** *** Table [Assets] *)

Definition with_Assets (db : DB) (rows : list Asset) (ident : Z) : DB :=
  mkDB (db_collation db) (Employees db) rows (AssetAssignments db)
       (ident_Employees db) ident (ident_AssetAssignments db).

(** [DELETE FROM Assets WHERE AssetId = a]: the new database and the rows
    affected, or the error of the foreign key of [AssetAssignments] when a
    row to delete is still referenced. *)
Definition delete_Assets (db : DB) (a : Z) : DB * Z * option db_error :=
  let hit := fun x : Asset => AssetId x =? a in
  if (existsb hit (Assets db)
      && existsb (fun r => aa_AssetId r =? a) (AssetAssignments db))%bool
  then (db, 0, Some ForeignKeyViolation)
  else (with_Assets db (List.filter (fun x => negb (hit x)) (Assets db))
                    (ident_Assets db),
        count_rows hit (Assets db), None).

(** [SerialNumber NVARCHAR(100) UNIQUE]: two NULLs count as equal. *)
Definition serial_eq (co : collation) (x y : option string) : bool :=
  match x, y with
  | Some a, Some b => SQL.eq co a b
  | None, None => true
  | _, _ => false
  end.

(** [INSERT INTO Assets (AssetName, AssetType, SerialNumber) OUTPUT INSERTED.*
     VALUES (name, type, serial)] at time [now] *)
Definition insert_Assets (db : DB) (now : Z) (name type serial : string)
    : DB * (Asset + db_error) :=
  let row := mkAsset (ident_Assets db) name type (Some serial) now in
  if (Nat.ltb 100 (String.length name) || Nat.ltb 50 (String.length type)
      || Nat.ltb 100 (String.length serial))%bool
  then (with_Assets db (Assets db) (ident_Assets db + 1), inr Truncation)
  else if existsb (fun x => serial_eq (db_collation db) (SerialNumber x) (Some serial))
             (Assets db)
  then (with_Assets db (Assets db) (ident_Assets db + 1), inr UniqueKeyViolation)
  else (with_Assets db (Assets db ++ [row]) (ident_Assets db + 1), inl row).

(** [SELECT TOP 1 SerialNumber FROM Assets WHERE SerialNumber LIKE @pattern
     ORDER BY CAST(RIGHT(SerialNumber, 3) AS INT) DESC] *)
Definition matching_serials (db : DB) (pattern : string) : list string :=
  List.flat_map
    (fun x => match SerialNumber x with
              | Some s => if SQL.like (db_collation db) pattern s then [s] else []
              | None => []
              end)
    (Assets db).

Definition order_key (s : string) : option Z := SQL.cast_int (SQL.RIGHT s 3).

Definition select_top_serial (db : DB) (pattern : string) : option string + db_error :=
  match eval_rows (fun s => option_map (fun k => (k, s)) (order_key s))
                  (matching_serials db pattern) with
  | Some keyed => inl (option_map snd (top1_desc fst keyed))
  | None => inr ConversionFailed
  end.

(** [SELECT COUNT( * ) as cnt FROM Assets WHERE SerialNumber = @serial] *)
Definition count_serial (db : DB) (serial : string) : Z :=
  count_rows (fun x => match SerialNumber x with
                       | Some s => SQL.eq (db_collation db) s serial
                       | None => false
                       end)
             (Assets db).

(* ================================================================== *)
(** ** Stored procedures *)
(* ================================================================== *)

(** What a call of a procedure leaves behind: the database, the PRINT
    messages and the error raised to the client, if any.  A constraint
    violation ends the statement, not the procedure: the statements after
    it still run. *)
Record sp_result := mkResult {
  sp_db : DB;
  sp_printed : list string;
  sp_raised : option db_error
}.

(** [sp_AssignAsset @AssetId, @EmployeeId], run at time [now] with no other
    session in between. *)
Definition sp_AssignAsset (db : DB) (now assetId employeeId : Z) : sp_result :=
  if existsb (active_for assetId) (AssetAssignments db)
  then mkResult db ["Asset already assigned"] None
  else
    let '(db', err) := insert_AssetAssignments db assetId employeeId now None in
    mkResult db' ["Asset assigned successfully"] err.

(** [sp_ReturnAsset @AssignmentId], run at time [now]. *)
Definition sp_ReturnAsset (db : DB) (now assignmentId : Z) : sp_result :=
  let '(db', rowcount, err) := update_ReturnedAt db assignmentId now in
  if rowcount =? 0
  then mkResult db' ["Assignment not found or already returned"] err
  else mkResult db' ["Asset returned successfully"] err.

(** *** [sp_AssignAsset] statement by statement

    The procedure runs outside any transaction, so another session may run
    between its [IF EXISTS] and its [INSERT].  A call is at one of three
    points; [assign_step] runs its next statement. *)

Inductive assign_outcome :=
| Inserted                       (* the INSERT took effect *)
| AlreadyAssignedPrinted         (* IF EXISTS held: PRINT and RETURN *)
| InsertRaised (e : db_error).   (* the INSERT was refused *)

Inductive assign_pc :=
| AtExists
| AtInsert
| Finished (o : assign_outcome).

Definition assign_step (db : DB) (now assetId employeeId : Z) (pc : assign_pc)
    : DB * assign_pc :=
  match pc with
  | AtExists =>
      if existsb (active_for assetId) (AssetAssignments db)
      then (db, Finished AlreadyAssignedPrinted)
      else (db, AtInsert)
  | AtInsert =>
      match insert_AssetAssignments db assetId employeeId now None with
      | (db', None) => (db', Finished Inserted)
      | (db', Some e) => (db', Finished (InsertRaised e))
      end
  | Finished o => (db, pc)
  end.

(** Two sessions calling [sp_AssignAsset] for the same asset.  A schedule
    names, statement by statement, the session that runs ([true] is the
    first one) and the time on the server's clock. *)
Record race := mkRace {
  race_db : DB;
  pc1 : assign_pc;
  pc2 : assign_pc
}.

Definition race_step (assetId e1 e2 : Z) (r : race) (turn : bool * Z) : race :=
  let '(first, now) := turn in
  if first
  then let '(db', pc') := assign_step (race_db r) now assetId e1 (pc1 r) in
       mkRace db' pc' (pc2 r)
  else let '(db', pc') := assign_step (race_db r) now assetId e2 (pc2 r) in
       mkRace db' (pc1 r) pc'.

Definition run_race (assetId e1 e2 : Z) (db : DB) (schedule : list (bool * Z)) : race :=
  List.fold_left (race_step assetId e1 e2) schedule (mkRace db AtExists AtExists).

(** The error that the call of a session raised to its handler. *)
Definition raised_of (pc : assign_pc) : option db_error :=
  match pc with Finished (InsertRaised err) => Some err | _ => None end.

Definition inserted (pc : assign_pc) : bool :=
  match pc with Finished Inserted => true | _ => false end.

Definition finished (pc : assign_pc) : bool :=
  match pc with Finished _ => true | _ => false end.

(* ================================================================== *)
(** ** [server.js]: serial numbers *)
(* ================================================================== *)

(** The result of an [async] function: the value it resolves to, or the
    error it rejects with. *)
Inductive completion (A : Type) :=
| Resolved (a : A)
| Rejected (e : db_error).
Arguments Resolved {A} a.
Arguments Rejected {A} e.

(** [prefix] of [generateSerialNumber] *)
Definition serial_prefix (assetType : string) : string :=
  JS.padEnd 2 "X"
    (JS.toUpperCase (JS.substring0 2 (JS.replace_non_letters assetType))).

(** [basePattern]: [`${prefix}-${year}-`] *)
Definition basePattern (year : Z) (assetType : string) : string :=
  serial_prefix assetType ++ "-" ++ JS.toString year ++ "-".

(** [nextNumber], from the record set of the TOP 1 query *)
Definition nextNumber (recordset : option string) : Z :=
  match recordset with
  | Some lastSerial =>
      let parts := JS.split "-" lastSerial in
      if Nat.eqb (List.length parts) 3 then
        match JS.parseInt (List.nth 2 parts "") with
        | Some lastNum => JS.add lastNum 1
        | None => 1
        end
      else 1
  | None => 1
  end.

(** [`${basePattern}${nextNumber.toString().padStart(3, '0')}`] *)
Definition format_serial (base : string) (n : Z) : string :=
  base ++ JS.padStart 3 "0" (JS.toString n).

(** What one run of the body of [generateSerialNumber] sees: the year on
    the clock, the database at the TOP 1 query and the database at the
    COUNT query (other sessions may write in between). *)
Record view := mkView {
  view_year : Z;
  at_scan : DB;
  at_check : DB
}.

(** One run of the body up to the recursive call: a serial to return, an
    error of the scan, or a collision. *)
Inductive attempt_result :=
| Fresh (serialNumber : string)
| Collision (serialNumber : string)
| ScanFailed (e : db_error).

Definition attempt (v : view) (assetType : string) : attempt_result :=
  let base := basePattern (view_year v) assetType in
  match select_top_serial (at_scan v) (base ++ "%") with
  | inr e => ScanFailed e
  | inl recordset =>
      let serialNumber := format_serial base (nextNumber recordset) in
      if 0 <? count_serial (at_check v) serialNumber
      then Collision serialNumber
      else Fresh serialNumber
  end.

(** [generateSerialNumber(assetType)].  [views k] is what the k-th run of
    the body sees; [fuel] bounds the depth of the recursion that the model
    follows, and [None] says that the call is still recursing below it. *)
Fixpoint generateSerialNumber (fuel : nat) (views : nat -> view) (k : nat)
    (assetType : string) : option (completion string) :=
  match fuel with
  | O => None
  | S fuel' =>
      match attempt (views k) assetType with
      | Fresh serialNumber => Some (Resolved serialNumber)
      | ScanFailed e => Some (Rejected e)
      | Collision _ => generateSerialNumber fuel' views (S k) assetType
      end
  end.

(** A database that no other session writes to, in a given year. *)
Definition quiescent (year : Z) (db : DB) : nat -> view :=
  fun _ => mkView year db db.

(** The same algorithm as the specification words it: the numerically
    highest sequence suffix among the serials matching the prefix, plus
    one; 1 when there is none. *)
Definition suffix_number (base s : string) : Z :=
  match JS.parseInt (String.substring (String.length base)
                                      (String.length s - String.length base) s) with
  | Some n => n
  | None => 0
  end.

Definition spec_nextNumber (db : DB) (base : string) : Z :=
  match matching_serials db (base ++ "%") with
  | [] => 1
  | s :: rest =>
      List.fold_left Z.max (List.map (suffix_number base) rest)
                     (suffix_number base s) + 1
  end.

(* ================================================================== *)
(** ** [server.js]: request handlers *)
(* ================================================================== *)

(** [hay.includes(needle)] *)
Fixpoint includes (needle hay : string) : bool :=
  (String.prefix needle hay ||
   match hay with
   | EmptyString => false
   | String _ hay' => includes needle hay'
   end)%bool.

(** The HTTP answer: status code and the fields of the JSON body.  A field
    that the handler does not set, or sets to [undefined], is [None]. *)
Record response (A : Type) := mkResponse {
  status : Z;
  success : bool;
  message : string;
  data : option A
}.
Arguments mkResponse {A} _ _ _ _.
Arguments status {A} _.
Arguments success {A} _.
Arguments message {A} _.
Arguments data {A} _.

(** The row that [POST /api/assignments] reads back:
    [aa.*, e.FullName as EmployeeName, a.AssetName]. *)
Record assignment_view := mkAssignmentView {
  av_row : AssetAssignment;
  EmployeeName : string;
  av_AssetName : string
}.

Section Handlers.

(** [err.message] is the text the server sends with an error; it belongs
    to the engine, not to the program. *)
Variable err_message : db_error -> string.

(** [SELECT TOP 1 aa.*, e.FullName as EmployeeName, a.AssetName
     FROM AssetAssignments aa JOIN Employees e ... JOIN Assets a ...
     WHERE aa.AssetId = @assetId AND aa.ReturnedAt IS NULL
     ORDER BY aa.AssignedAt DESC] *)
Definition select_active_assignment (db : DB) (assetId : Z) : option assignment_view :=
  top1_desc (fun v => AssignedAt (av_row v))
    (List.flat_map
       (fun aa =>
          List.flat_map
            (fun e =>
               List.map (fun a => mkAssignmentView aa (FullName e) (AssetName a))
                 (List.filter (fun a => aa_AssetId aa =? AssetId a) (Assets db)))
            (List.filter (fun e => aa_EmployeeId aa =? EmployeeId e) (Employees db)))
       (List.filter (active_for assetId) (AssetAssignments db))).

(** [POST /api/assignments] with body [{ assetId, employeeId }].
    [assign_respond] is the handler after its call of the procedure: the
    read-back and the 201 answer when the call raised nothing, the
    [catch] block when it raised [err]. *)
Definition assign_catch {A} (err : db_error) : response A :=
  if includes "already assigned" (err_message err)
  then mkResponse 409 false "Asset is already assigned" None
  else mkResponse 400 false (err_message err) None.

Definition assign_respond (db : DB) (assetId : Z) (raised : option db_error)
    : response assignment_view :=
  match raised with
  | None =>
      mkResponse 201 true "Asset assigned successfully"
                 (select_active_assignment db assetId)
  | Some err => assign_catch err
  end.

Definition post_assignments (db : DB) (now assetId employeeId : Z)
    : DB * response assignment_view :=
  let r := sp_AssignAsset db now assetId employeeId in
  (sp_db r, assign_respond (sp_db r) assetId (sp_raised r)).

(** [POST /api/assignments/:assignmentId/return] *)
Definition return_catch {A} (err : db_error) : response A :=
  mkResponse 400 false (err_message err) None.

Definition return_respond (db : DB) (assignmentId : Z) (raised : option db_error)
    : response AssetAssignment :=
  match raised with
  | None =>
      mkResponse 200 true "Asset returned successfully"
                 (List.find (fun x => AssignmentId x =? assignmentId)
                            (AssetAssignments db))
  | Some err => return_catch err
  end.

Definition post_return (db : DB) (now assignmentId : Z)
    : DB * response AssetAssignment :=
  let r := sp_ReturnAsset db now assignmentId in
  (sp_db r, return_respond (sp_db r) assignmentId (sp_raised r)).

(** [DELETE /api/assets/:assetId] *)
Definition delete_asset (db : DB) (assetId : Z) : DB * response unit :=
  if 0 <? count_rows (active_for assetId) (AssetAssignments db)
  then (db, mkResponse 400 false
              "Cannot delete asset. It is currently assigned to an employee. Return it first."
              None)
  else
    let db1 := delete_AssetAssignments db assetId in
    match delete_Assets db1 assetId with
    | (db2, _, Some err) => (db2, mkResponse 400 false (err_message err) None)
    | (db2, rowsAffected, None) =>
        if rowsAffected =? 0
        then (db2, mkResponse 404 false "Asset not found" None)
        else (db2, mkResponse 200 true "Asset deleted successfully" None)
    end.

(** [POST /api/assets] with body [{ assetName, assetType }], for a
    database that no other session writes to.  [None]: the call of
    [generateSerialNumber] is still recursing after [fuel] runs. *)
Definition post_assets (fuel : nat) (year now : Z) (db : DB)
    (assetName assetType : string) : option (DB * response Asset) :=
  if (String.eqb assetName "" || String.eqb assetType "")%bool
  then Some (db, mkResponse 400 false "Asset name and type are required" None)
  else
    let on_error := fun err : db_error =>
      if (includes "UNIQUE" (err_message err)
          || includes "duplicate" (err_message err))%bool
      then mkResponse 400 false "Serial number conflict. Please try again." None
      else mkResponse 400 false (err_message err) None in
    match generateSerialNumber fuel (quiescent year db) 0 assetType with
    | None => None
    | Some (Rejected err) => Some (db, on_error err)
    | Some (Resolved serialNumber) =>
        match insert_Assets db now assetName assetType serialNumber with
        | (db', inl row) =>
            Some (db', mkResponse 201 true "Asset created successfully" (Some row))
        | (db', inr err) => Some (db', on_error err)
        end
    end.

End Handlers.

(** The outcomes of the interface, as the handlers word them. *)
Definition AlreadyAssigned {A} (r : response A) : Prop :=
  status r = 409 /\ success r = false /\ message r = "Asset is already assigned".

Definition AssetInUse {A} (r : response A) : Prop :=
  status r = 400 /\ success r = false /\
  message r = "Cannot delete asset. It is currently assigned to an employee. Return it first.".

(** A success answer: a 2xx status with [success: true]. *)
Definition succeeded {A} (r : response A) : Prop :=
  200 <= status r < 300 /\ success r = true.

(* ================================================================== *)
(** ** Reachable states *)
(* ================================================================== *)

(** [INSERT INTO Employees (FullName, Email, Position) VALUES (...)];
    [Email] is UNIQUE. *)
Definition insert_Employees (db : DB) (now : Z) (fullName email : string)
    (position : option string) : DB * option db_error :=
  let next := mkDB (db_collation db) (Employees db) (Assets db) (AssetAssignments db)
                   (ident_Employees db + 1) (ident_Assets db)
                   (ident_AssetAssignments db) in
  if existsb (fun x => SQL.eq (db_collation db) (Email x) email) (Employees db)
  then (next, Some UniqueKeyViolation)
  else (mkDB (db_collation db)
             (Employees db ++ [mkEmployee (ident_Employees db) fullName email position now])
             (Assets db) (AssetAssignments db)
             (ident_Employees db + 1) (ident_Assets db) (ident_AssetAssignments db),
        None).

(** A single statement against the database: the statements of the
    procedures and handlers, which another session may interleave with
    anything, and the writes a client can issue on its own. *)
Inductive statement :=
| InsertAssignment (assetId employeeId assignedAt : Z) (returnedAt : option Z)
| UpdateReturnedAt (assignmentId now : Z)
| EditAssignment (assignmentId assignedAt : Z) (returnedAt : option Z)
| DeleteAssignments (assetId : Z)
| DeleteAssetRow (assetId : Z)
| InsertAsset (now : Z) (name type serial : string)
| InsertEmployee (now : Z) (fullName email : string) (position : option string).

Definition exec (db : DB) (s : statement) : DB :=
  match s with
  | InsertAssignment a e t r => fst (insert_AssetAssignments db a e t r)
  | UpdateReturnedAt id now => fst (fst (update_ReturnedAt db id now))
  | EditAssignment id x y => fst (update_AssetAssignments db id x y)
  | DeleteAssignments a => delete_AssetAssignments db a
  | DeleteAssetRow a => fst (fst (delete_Assets db a))
  | InsertAsset now name type serial => fst (insert_Assets db now name type serial)
  | InsertEmployee now n e p => fst (insert_Employees db now n e p)
  end.

(** The operations of the ledger, each run as a whole, and single
    statements. *)
Inductive operation :=
| Assign (now assetId employeeId : Z)
| Return (now assignmentId : Z)
| DeleteAsset (assetId : Z)
| Statement (s : statement).

Definition run (err_message : db_error -> string) (db : DB) (o : operation) : DB :=
  match o with
  | Assign now a e => fst (post_assignments err_message db now a e)
  | Return now id => fst (post_return err_message db now id)
  | DeleteAsset a => fst (delete_asset err_message db a)
  | Statement s => exec db s
  end.

Definition run_all (err_message : db_error -> string) (db : DB)
    (ops : list operation) : DB :=
  List.fold_left (run err_message) ops db.

(** The two invariants of [AssetAssignments]. *)
Definition one_active_per_asset (db : DB) : Prop :=
  forall a, count_rows (active_for a) (AssetAssignments db) <= 1.

Definition returned_after_assigned (db : DB) : Prop :=
  forall r, In r (AssetAssignments db) ->
    match ReturnedAt r with
    | None => True
    | Some t => AssignedAt r <= t
    end.

(* ================================================================== *)
(** ** Auxiliary notions of the proofs *)
(* ================================================================== *)

Definition ledger_ok (db : DB) : Prop :=
  one_active_per_asset db /\ returned_after_assigned db.

(** What holds of the two sessions while the asset is free, and once one
    of them has inserted its row. *)
Definition waiting (pc : assign_pc) : Prop := pc = AtExists \/ pc = AtInsert.

Definition lost (pc : assign_pc) : Prop :=
  waiting pc \/ pc = Finished AlreadyAssignedPrinted \/
  pc = Finished (InsertRaised UniqueIndexViolation).

Definition race_inv (a e1 e2 : Z) (r : race) : Prop :=
  asset_exists (race_db r) a = true /\
  employee_exists (race_db r) e1 = true /\
  employee_exists (race_db r) e2 = true /\
  ((existsb (active_for a) (AssetAssignments (race_db r)) = false /\
    waiting (pc1 r) /\ waiting (pc2 r)) \/
   (count_rows (active_for a) (AssetAssignments (race_db r)) = 1 /\
    ((pc1 r = Finished Inserted /\ lost (pc2 r)) \/
     (pc2 r = Finished Inserted /\ lost (pc1 r))))).

(** Progress: a session is finished after two statements of its own. *)
Definition rank (pc : assign_pc) : nat :=
  match pc with AtExists => 0 | AtInsert => 1 | Finished _ => 2 end.

Definition turns (first : bool) (schedule : list (bool * Z)) : nat :=
  List.length (List.filter (fun t => Bool.eqb (fst t) first) schedule).

(** A piece of [split] holds no separator. *)
Definition no_sep (sep : ascii) (s : string) : bool :=
  JS.forallb (fun c => negb (Ascii.eqb c sep)) s.

(** The wildcards of LIKE. *)
Definition is_wild (c : ascii) : bool :=
  (Ascii.eqb c "%" || Ascii.eqb c "_")%bool.

(** The characters of the string of a Number that is not negative: digits,
    the point, the exponent mark with its sign, and the letters of
    [Infinity]; and those of any Number, with the minus sign. *)
Definition unsigned_char (c : ascii) : bool :=
  (JS.is_digit c
   || List.existsb (Ascii.eqb c)
        ["."; "e"; "+"; "I"; "n"; "f"; "i"; "t"; "y"]%char)%bool.

Definition numeral_char (c : ascii) : bool :=
  (unsigned_char c || Ascii.eqb c "-")%bool.

(** The integers that are Numbers with all their neighbours: below 2^53. *)
Definition safe (n : Z) : Prop := 0 <= n < 9007199254740992.

(* ================================================================== *)
(** ** Sample data *)
(* ================================================================== *)

Definition dquote : string := String (ascii_of_nat 34) EmptyString.

(** Messages as SQL Server words them for this schema.  The name of a
    constraint that the server generates, and the offending value, are
    written for the sample data below. *)
Definition sample_messages (e : db_error) : string :=
  match e with
  | ConversionFailed =>
      "Conversion failed when converting the nvarchar value '5-1' to data type int."
  | CheckViolation =>
      "The UPDATE statement conflicted with the CHECK constraint " ++ dquote
      ++ "CK_ReturnedAfterAssigned" ++ dquote ++ ". The conflict occurred in database "
      ++ dquote ++ "AssetTrackingDB" ++ dquote ++ ", table " ++ dquote
      ++ "dbo.AssetAssignments" ++ dquote ++ "."
  | ForeignKeyViolation =>
      "The INSERT statement conflicted with the FOREIGN KEY constraint " ++ dquote
      ++ "FK__AssetAssi__Asset" ++ dquote ++ ". The conflict occurred in database "
      ++ dquote ++ "AssetTrackingDB" ++ dquote ++ ", table " ++ dquote
      ++ "dbo.Assets" ++ dquote ++ ", column 'AssetId'."
  | UniqueIndexViolation =>
      "Cannot insert duplicate key row in object 'dbo.AssetAssignments' with unique index 'UQ_OneAssetOneEmployee'. The duplicate key value is (1)."
  | UniqueKeyViolation =>
      "Violation of UNIQUE KEY constraint 'UQ__Assets'. Cannot insert duplicate key in object 'dbo.Assets'. The duplicate key value is (PH-2025-001)."
  | Truncation =>
      "String or binary data would be truncated in table 'AssetTrackingDB.dbo.Assets', column 'AssetName'."
  end.

(** Two employees and one asset, none assigned. *)
Definition sample_ops : list operation :=
  [ Statement (InsertEmployee 0 "John Smith" "john@company.com" None);
    Statement (InsertEmployee 0 "Sarah Johnson" "sarah@company.com" None);
    Statement (InsertAsset 0 "iPhone 15 Pro" "Phone" "IPH-001") ].

Definition sample_db : DB :=
  run_all sample_messages (empty_db CaseInsensitive) sample_ops.

(** Asset 1 assigned to employee 1 at time 100 (assignment 1). *)
Definition assigned_db : DB :=
  fst (post_assignments sample_messages sample_db 100 1 1).

(** Assignment 1 returned at time 300. *)
Definition returned_db : DB :=
  fst (post_return sample_messages assigned_db 300 1).

(** Both sessions pass [IF EXISTS] before either runs its INSERT. *)
Definition both_check_first : list (bool * Z) :=
  [(true, 100); (false, 101); (true, 102); (false, 103)].

(** Two laptops of 2025 with the sequence numbers 999 and 1000. *)
Definition wide_db : DB :=
  run_all sample_messages (empty_db CaseInsensitive)
    [ Statement (InsertAsset 0 "ThinkPad T14" "Laptop" "LA-2025-999");
      Statement (InsertAsset 0 "ThinkPad X1" "Laptop" "LA-2025-1000") ].

(** A laptop of 2025 whose sequence number has 21 digits, entered by
    hand, and one whose number is 2^53 + 1. *)
Definition long_number_db : DB :=
  run_all sample_messages (empty_db CaseInsensitive)
    [ Statement (InsertAsset 0 "ThinkPad T14" "Laptop" "LA-2025-999999999999999999999") ].

Definition odd_number_db : DB :=
  run_all sample_messages (empty_db CaseInsensitive)
    [ Statement (InsertAsset 0 "ThinkPad T14" "Laptop" "LA-2025-9007199254740993") ].

(** A database with the one laptop LA-2025-001. *)
Definition one_laptop_db : DB :=
  run_all sample_messages (empty_db CaseInsensitive)
    [ Statement (InsertAsset 0 "ThinkPad T14" "Laptop" "LA-2025-001") ].

(** Another session inserts LA-2025-001 between the scan and the check of a
    run, and deletes it again before the next run: the first [n] runs see
    this, the later ones see the empty table. *)
Definition contended (n : nat) : nat -> view :=
  fun k =>
    if Nat.ltb k n
    then mkView 2025 (empty_db CaseInsensitive) one_laptop_db
    else mkView 2025 (empty_db CaseInsensitive) (empty_db CaseInsensitive).

(* ================================================================== *)
(** ** The read procedures and queries *)
(* ================================================================== *)

(** [ORDER BY key DESC] on an integer column.  Rows of equal key may come
    in any order; the model keeps them in storage order. *)
Fixpoint insert_desc {A : Type} (key : A -> Z) (x : A) (l : list A) : list A :=
  match l with
  | [] => [x]
  | y :: l' => if key x <? key y then y :: insert_desc key x l' else x :: l
  end.

Definition order_by_desc {A : Type} (key : A -> Z) (rows : list A) : list A :=
  List.fold_right (insert_desc key) [] rows.

(** A row of [sp_GetAssetHistory]:
    [aa.AssignmentId, e.FullName, aa.AssignedAt, aa.ReturnedAt]. *)
Record history_row := mkHistory {
  h_AssignmentId : Z;
  h_FullName : string;
  h_AssignedAt : Z;
  h_ReturnedAt : option Z
}.

(** [sp_GetAssetHistory @AssetId], the record set of
    [GET /api/assets/:assetId/history]. *)
Definition sp_GetAssetHistory (db : DB) (assetId : Z) : list history_row :=
  order_by_desc h_AssignedAt
    (List.flat_map
       (fun aa =>
          List.map
            (fun e => mkHistory (AssignmentId aa) (FullName e)
                                (AssignedAt aa) (ReturnedAt aa))
            (List.filter (fun e => aa_EmployeeId aa =? EmployeeId e) (Employees db)))
       (List.filter (fun aa => aa_AssetId aa =? assetId) (AssetAssignments db))).

(** A row of [sp_GetActiveAssignments]:
    [aa.AssignmentId, a.AssetName, e.FullName, aa.AssignedAt]. *)
Record active_summary := mkActiveSummary {
  s_AssignmentId : Z;
  s_AssetName : string;
  s_FullName : string;
  s_AssignedAt : Z
}.

(** [sp_GetActiveAssignments] *)
Definition sp_GetActiveAssignments (db : DB) : list active_summary :=
  order_by_desc s_AssignedAt
    (List.flat_map
       (fun aa =>
          List.flat_map
            (fun a =>
               List.map
                 (fun e => mkActiveSummary (AssignmentId aa) (AssetName a)
                                           (FullName e) (AssignedAt aa))
                 (List.filter (fun e => aa_EmployeeId aa =? EmployeeId e)
                              (Employees db)))
            (List.filter (fun a => aa_AssetId aa =? AssetId a) (Assets db)))
       (List.filter is_active (AssetAssignments db))).

(** A row of [GET /api/assignments/active]: the assignment with the name,
    type and serial of its asset and the name, email and position of its
    employee. *)
Record active_row := mkActiveRow {
  act_assignment : AssetAssignment;
  act_AssetName : string;
  act_AssetType : string;
  act_SerialNumber : option string;
  EmployeeName' : string;
  EmployeeEmail : string;
  EmployeePosition : option string
}.

(** The query of [GET /api/assignments/active] *)
Definition get_active_assignments (db : DB) : list active_row :=
  order_by_desc (fun r => AssignedAt (act_assignment r))
    (List.flat_map
       (fun aa =>
          List.flat_map
            (fun a =>
               List.map
                 (fun e => mkActiveRow aa (AssetName a) (AssetType a) (SerialNumber a)
                                       (FullName e) (Email e) (Position e))
                 (List.filter (fun e => aa_EmployeeId aa =? EmployeeId e)
                              (Employees db)))
            (List.filter (fun a => aa_AssetId aa =? AssetId a) (Assets db)))
       (List.filter is_active (AssetAssignments db))).

(** The query of [GET /api/assets/available].  [ORDER BY a.AssetName]
    follows the collation of the server; [order_by_AssetName] stands for
    it. *)
Definition is_available (db : DB) (a : Asset) : bool :=
  negb (existsb (active_for (AssetId a)) (AssetAssignments db)).

Definition get_available_assets (order_by_AssetName : list Asset -> list Asset)
    (db : DB) : list Asset :=
  order_by_AssetName (List.filter (is_available db) (Assets db)).

(** The row of [GET /api/dashboard] *)
Record dashboard := mkDashboard {
  TotalAssets : Z;
  AssignedAssets : Z;
  AvailableAssets : Z
}.

Definition get_dashboard (db : DB) : dashboard :=
  let total := count_rows (fun _ : Asset => true) (Assets db) in
  let assigned := count_rows is_active (AssetAssignments db) in
  mkDashboard total assigned (total - assigned).

(* ================================================================== *)
(** ** [server.js]: the other writing requests *)
(* ================================================================== *)

(** [UPDATE Assets SET AssetName = name, AssetType = type OUTPUT INSERTED.*
     WHERE AssetId = assetId]: the new database and the rows written, or the
    error of a value longer than its column. *)
Definition set_name_type (assetId : Z) (name type : string) (x : Asset) : Asset :=
  if AssetId x =? assetId
  then mkAsset (AssetId x) name type (SerialNumber x) (asset_CreatedAt x)
  else x.

Definition update_Assets (db : DB) (assetId : Z) (name type : string)
    : DB * (list Asset + db_error) :=
  let hit := fun x : Asset => AssetId x =? assetId in
  if (existsb hit (Assets db)
      && (Nat.ltb 100 (String.length name) || Nat.ltb 50 (String.length type)))%bool
  then (db, inr Truncation)
  else
    let rows' := List.map (set_name_type assetId name type) (Assets db) in
    (with_Assets db rows' (ident_Assets db), inl (List.filter hit rows')).

(** [PUT /api/assets/:assetId] with body [{ assetName, assetType }] *)
Definition put_asset (err_message : db_error -> string) (db : DB) (assetId : Z)
    (assetName assetType : string) : DB * response Asset :=
  if (String.eqb assetName "" || String.eqb assetType "")%bool
  then (db, mkResponse 400 false "Asset name and type are required" None)
  else
    match update_Assets db assetId assetName assetType with
    | (db', inl []) => (db', mkResponse 404 false "Asset not found" None)
    | (db', inl (row :: _)) =>
        (db', mkResponse 200 true "Asset updated successfully" (Some row))
    | (db', inr err) => (db', mkResponse 400 false (err_message err) None)
    end.

(** [SELECT COUNT( * ) as cnt FROM Assets WHERE AssetType = @type] *)
Definition has_type (db : DB) (type : string) (x : Asset) : bool :=
  SQL.eq (db_collation db) (AssetType x) type.

Definition count_AssetType (db : DB) (type : string) : Z :=
  count_rows (has_type db type) (Assets db).

(** [UPDATE Assets SET AssetType = @newType WHERE AssetType = @oldType]: the
    new database, the rows affected and the error raised. *)
Definition set_type (db : DB) (oldType newType : string) (x : Asset) : Asset :=
  if has_type db oldType x
  then mkAsset (AssetId x) (AssetName x) newType (SerialNumber x) (asset_CreatedAt x)
  else x.

Definition update_AssetType (db : DB) (oldType newType : string)
    : DB * Z * option db_error :=
  if (existsb (has_type db oldType) (Assets db)
      && Nat.ltb 50 (String.length newType))%bool
  then (db, 0, Some Truncation)
  else (with_Assets db (List.map (set_type db oldType newType) (Assets db))
                    (ident_Assets db),
        count_AssetType db oldType, None).

(** [PUT /api/asset-types/rename] with body [{ oldType, newType }]; [data]
    is the field [count] of the answer. *)
Definition put_asset_types_rename (err_message : db_error -> string) (db : DB)
    (oldType newType : string) : DB * response Z :=
  if (String.eqb oldType "" || String.eqb newType "")%bool
  then (db, mkResponse 400 false "Old type and new type are required" None)
  else if String.eqb oldType newType
  then (db, mkResponse 400 false "New type must be different from old type" None)
  else if 0 <? count_AssetType db newType
  then (db, mkResponse 400 false
              ("Type " ++ dquote ++ newType ++ dquote
               ++ " already exists. Cannot create duplicate.") None)
  else
    match update_AssetType db oldType newType with
    | (db', n, None) =>
        (db', mkResponse 200 true
                ("Renamed " ++ dquote ++ oldType ++ dquote ++ " to " ++ dquote
                 ++ newType ++ dquote ++ ". " ++ JS.toString n
                 ++ " asset(s) updated.")
                (Some n))
    | (db', _, Some err) => (db', mkResponse 400 false (err_message err) None)
    end.

(** [DELETE /api/asset-types/:type]: it writes nothing. *)
Definition delete_asset_type (db : DB) (type : string) : response unit :=
  let cnt := count_AssetType db type in
  if 0 <? cnt
  then mkResponse 400 false
         ("Cannot delete " ++ dquote ++ type ++ dquote ++ ". " ++ JS.toString cnt
          ++ " asset(s) are using this type. Rename or reassign them first.")
         None
  else mkResponse 200 true
         ("Type " ++ dquote ++ type ++ dquote ++ " is not used by any assets.") None.

(** [POST /api/employees] with body [{ fullName, email, position }].  A
    field that the body lacks is [None] and reaches the INSERT as NULL;
    [FullName] and [Email] are NOT NULL (Msg 515, worded [null_message]),
    and every column holds at most 100 characters. *)
Definition too_long (n : nat) (v : option string) : bool :=
  match v with Some s => Nat.ltb n (String.length s) | None => false end.

Definition draw_EmployeeId (db : DB) : DB :=
  mkDB (db_collation db) (Employees db) (Assets db) (AssetAssignments db)
       (ident_Employees db + 1) (ident_Assets db) (ident_AssetAssignments db).

Definition post_employees (err_message : db_error -> string) (null_message : string)
    (db : DB) (now : Z) (fullName email position : option string)
    : DB * response Employee :=
  let position' :=
    match position with
    | Some p => if String.eqb p "" then None else Some p
    | None => None
    end in
  match fullName, email with
  | Some n, Some e =>
      if (too_long 100 fullName || too_long 100 email || too_long 100 position')%bool
      then (draw_EmployeeId db, mkResponse 400 false (err_message Truncation) None)
      else
        match insert_Employees db now n e position' with
        | (db', None) =>
            (db', mkResponse 201 true "Employee created"
                    (Some (mkEmployee (ident_Employees db) n e position' now)))
        | (db', Some err) => (db', mkResponse 400 false (err_message err) None)
        end
  | _, _ => (draw_EmployeeId db, mkResponse 400 false null_message None)
  end.

(** The prefix that the form of [App.jsx] shows before the asset is
    created: [getSerialPrefix(type)]. *)
Definition getSerialPrefix (type : string) : string :=
  if String.eqb type "" then "XX"
  else JS.padEnd 2 "X" (JS.toUpperCase (JS.substring0 2 (JS.replace_non_letters type))).

(* ================================================================== *)
(** ** All requests *)
(* ================================================================== *)

(** A request that writes, run as a whole, or a single statement.  The
    settings of the server are the messages of the engine and the depth to
    which the recursion of [generateSerialNumber] is followed. *)
Inductive request :=
| Ledger (o : operation)
| PostEmployee (now : Z) (fullName email position : option string)
| PostAsset (year now : Z) (assetName assetType : string)
| PutAsset (assetId : Z) (assetName assetType : string)
| RenameType (oldType newType : string).

Record settings := mkSettings {
  err_text : db_error -> string;
  null_text : string;
  depth : nat
}.

Definition serve (cfg : settings) (db : DB) (r : request) : DB :=
  match r with
  | Ledger o => run (err_text cfg) db o
  | PostEmployee now n e p =>
      fst (post_employees (err_text cfg) (null_text cfg) db now n e p)
  | PostAsset year now n t =>
      match post_assets (err_text cfg) (depth cfg) year now db n t with
      | Some (db', _) => db'
      | None => db
      end
  | PutAsset a n t => fst (put_asset (err_text cfg) db a n t)
  | RenameType o n => fst (put_asset_types_rename (err_text cfg) db o n)
  end.

Definition serve_all (cfg : settings) (db : DB) (rs : list request) : DB :=
  List.fold_left (serve cfg) rs db.

(** Referential integrity and keys: identity values are not reused, a row
    of [AssetAssignments] refers to an asset and an employee that exist, and
    no two employees share an email, no two assets a serial number. *)
Definition keys_below (ids : list Z) (ident : Z) : Prop :=
  NoDup ids /\ forall i, In i ids -> i < ident.

Definition distinct_emails (db : DB) : Prop :=
  ForallOrdPairs
    (fun x y => SQL.eq (db_collation db) (Email x) (Email y) = false)
    (Employees db).

Definition distinct_serials (db : DB) : Prop :=
  ForallOrdPairs
    (fun x y => serial_eq (db_collation db) (SerialNumber x) (SerialNumber y) = false)
    (Assets db).

Definition references_exist (db : DB) : Prop :=
  forall r, In r (AssetAssignments db) ->
    asset_exists db (aa_AssetId r) = true /\
    employee_exists db (aa_EmployeeId r) = true.

Record integrity (db : DB) : Prop := mkIntegrity {
  employee_keys : keys_below (List.map EmployeeId (Employees db)) (ident_Employees db);
  asset_keys : keys_below (List.map AssetId (Assets db)) (ident_Assets db);
  assignment_keys :
    keys_below (List.map AssignmentId (AssetAssignments db)) (ident_AssetAssignments db);
  foreign_keys : references_exist db;
  unique_emails : distinct_emails db;
  unique_serials : distinct_serials db
}.

(** Settings and requests for the sample data. *)
Definition sample_settings : settings :=
  mkSettings sample_messages
    "Cannot insert the value NULL into column 'FullName', table 'AssetTrackingDB.dbo.Employees'; column does not allow nulls. INSERT fails."
    4.

Definition sample_requests : list request := List.map Ledger sample_ops.

(** Two laptops created through [POST /api/assets] in 2025. *)
Definition two_laptops : list request :=
  [ PostAsset 2025 10 "ThinkPad T14" "Laptop";
    PostAsset 2025 20 "ThinkPad X1" "Laptop" ].

(** The row of a table with a given key, as a JOIN on the key finds it. *)
Definition the_asset (db : DB) (id : Z) : option Asset :=
  List.find (fun a => id =? AssetId a) (Assets db).

Definition the_employee (db : DB) (id : Z) : option Employee :=
  List.find (fun e => id =? EmployeeId e) (Employees db).

(** Most recent first. *)
Definition descending {A : Type} (key : A -> Z) (rows : list A) : Prop :=
  StronglySorted (fun x y => key y <= key x) rows.

(** The columns of [sp_GetActiveAssignments] in a row of
    [GET /api/assignments/active]. *)
Definition summary_of (r : active_row) : active_summary :=
  mkActiveSummary (AssignmentId (act_assignment r)) (act_AssetName r)
                  (EmployeeName' r) (AssignedAt (act_assignment r)).

(** The row of the history for an assignment whose employee is looked up
    by key. *)
Definition employee_name (db : DB) (id : Z) : string :=
  match the_employee db id with Some e => FullName e | None => EmptyString end.

Definition history_of (db : DB) (aa : AssetAssignment) : history_row :=
  mkHistory (AssignmentId aa) (employee_name db (aa_EmployeeId aa))
            (AssignedAt aa) (ReturnedAt aa).

Definition still_open (r : history_row) : bool :=
  match h_ReturnedAt r with None => true | Some _ => false end.

(** The sequence number as [generateSerialNumber] writes it. *)
Definition pad3 (i : Z) : string := JS.padStart 3 "0" (JS.toString i).

(** What [parseInt] and [CAST] read in a written sequence number, checked
    number by number. *)
Definition reads_back (n : nat) : bool :=
  let i := Z.of_nat n in
  (match JS.parseInt (pad3 i) with Some v => v =? i | None => false end
   && (if Nat.leb n 999
       then Nat.eqb (String.length (pad3 i)) 3
            && match SQL.cast_int (pad3 i) with Some v => v =? i | None => false end
       else true))%bool.

(* ================================================================== *)
(** ** The list of asset types *)
(* ================================================================== *)

(** [GET /api/asset-types].  The query is
    [SELECT DISTINCT AssetType FROM Assets
     WHERE AssetType IS NOT NULL AND AssetType != '' ORDER BY AssetType]:
    DISTINCT keeps one value of each class of the collation, here the
    first in storage order, and [order_by_AssetType] stands for the
    ORDER BY of the server. *)
Definition defaultTypes : list string :=
  ["Laptop"; "Mobile"; "Monitor"; "Keyboard"; "Mouse"; "Headset"; "Tablet";
   "Camera"; "Printer"; "Other"].

Fixpoint distinct (co : collation) (seen l : list string) : list string :=
  match l with
  | [] => []
  | t :: l' =>
      if existsb (SQL.eq co t) seen then distinct co seen l'
      else t :: distinct co (t :: seen) l'
  end.

Definition select_asset_types (order_by_AssetType : list string -> list string)
    (db : DB) : list string :=
  order_by_AssetType
    (distinct (db_collation db) []
       (List.filter (fun t => negb (SQL.eq (db_collation db) t ""))
                    (List.map AssetType (Assets db)))).

(** [[...new Set(l)]]: the values of [l] in the order of their first
    occurrence, compared as JavaScript strings. *)
Fixpoint set_go (seen l : list string) : list string :=
  match l with
  | [] => []
  | t :: l' =>
      if existsb (String.eqb t) seen then set_go seen l'
      else t :: set_go (t :: seen) l'
  end.

Definition new_Set (l : list string) : list string := set_go [] l.

(** [l.sort()] with no comparator orders strings by their code units. *)
Fixpoint sort_insert (x : string) (l : list string) : list string :=
  match l with
  | [] => [x]
  | y :: l' => if String.leb x y then x :: l else y :: sort_insert x l'
  end.

Definition js_sort (l : list string) : list string :=
  List.fold_right sort_insert [] l.

Definition get_asset_types (order_by_AssetType : list string -> list string)
    (db : DB) : list string :=
  js_sort (new_Set (defaultTypes ++ select_asset_types order_by_AssetType db)%list).

Definition ascending (l : list string) : Prop :=
  Sorted (fun a b => String.leb a b = true) l.

(* ================================================================== *)
(** ** Properties of the tables *)
(* ================================================================== *)

Lemma count_rows_nonneg {A} (p : A -> bool) rows : 0 <= count_rows p rows.
Proof. unfold count_rows. lia. Qed.

Lemma count_rows_app {A} (p : A -> bool) xs ys :
  count_rows p (xs ++ ys) = count_rows p xs + count_rows p ys.
Proof.
  unfold count_rows. rewrite List.filter_app, List.length_app. lia.
Qed.

Lemma count_rows_cons {A} (p : A -> bool) x xs :
  count_rows p (x :: xs) = (if p x then 1 else 0) + count_rows p xs.
Proof.
  unfold count_rows. simpl. destruct (p x); simpl List.length; lia.
Qed.

Lemma count_rows_zero {A} (p : A -> bool) rows :
  existsb p rows = false -> count_rows p rows = 0.
Proof.
  induction rows as [|x xs IH]; intro H; [reflexivity|].
  simpl in H. apply orb_false_iff in H as [Hx Hxs].
  rewrite count_rows_cons, Hx, IH by assumption. reflexivity.
Qed.

Lemma count_rows_pos {A} (p : A -> bool) rows :
  existsb p rows = true -> 0 < count_rows p rows.
Proof.
  induction rows as [|x xs IH]; intro H; [discriminate|].
  rewrite count_rows_cons. pose proof (count_rows_nonneg p xs).
  simpl in H. destruct (p x); [lia|]. simpl in H. apply IH in H. lia.
Qed.

Lemma count_rows_filter_le {A} (p q : A -> bool) rows :
  count_rows p (List.filter q rows) <= count_rows p rows.
Proof.
  induction rows as [|x xs IH]; [reflexivity|].
  simpl. destruct (q x); rewrite ?count_rows_cons; destruct (p x); lia.
Qed.

(** A map that makes no row match [p] that did not match before does not
    raise the count. *)
Lemma count_rows_map_le {A} (p : A -> bool) (f : A -> A) rows :
  (forall x, p (f x) = true -> p x = true) ->
  count_rows p (List.map f rows) <= count_rows p rows.
Proof.
  intro Hf. induction rows as [|x xs IH]; [reflexivity|].
  simpl. rewrite !count_rows_cons.
  destruct (p (f x)) eqn:E; [rewrite (Hf _ E); lia|].
  destruct (p x); lia.
Qed.

Lemma count_key_index a rows :
  count_rows (active_for a) rows = count_rows (Z.eqb a) (index_keys rows).
Proof.
  unfold index_keys. induction rows as [|r rs IH]; [reflexivity|].
  rewrite count_rows_cons. unfold active_for at 1. simpl.
  destruct (is_active r) eqn:Ha; simpl.
  - rewrite count_rows_cons, IH, (Z.eqb_sym a), andb_true_r. reflexivity.
  - rewrite andb_false_r. exact IH.
Qed.

Lemma no_duplicate_key_count keys :
  no_duplicate_key keys = true -> forall a, count_rows (Z.eqb a) keys <= 1.
Proof.
  induction keys as [|k ks IH]; intros H a; [cbv; discriminate|].
  simpl in H. apply andb_true_iff in H as [Hk Hks].
  rewrite count_rows_cons. specialize (IH Hks a).
  destruct (Z.eqb_spec a k) as [->|]; [|lia].
  apply negb_true_iff in Hk. rewrite (count_rows_zero _ _ Hk). lia.
Qed.

Lemma set_returned_active_for a id now r :
  active_for a (set_returned id now r) = true -> active_for a r = true.
Proof.
  unfold set_returned. destruct (active_with_id id r); [|trivial].
  unfold active_for, is_active. simpl. rewrite andb_false_r. discriminate.
Qed.

(** *** Each statement keeps both invariants *)

Lemma CK_row r :
  CK_ReturnedAfterAssigned r = true ->
  match ReturnedAt r with None => True | Some t => AssignedAt r <= t end.
Proof.
  unfold CK_ReturnedAfterAssigned. destruct (ReturnedAt r); [|trivial].
  apply Z.leb_le.
Qed.

Lemma ledger_ok_same_rows db db' :
  AssetAssignments db' = AssetAssignments db -> ledger_ok db -> ledger_ok db'.
Proof.
  unfold ledger_ok, one_active_per_asset, returned_after_assigned.
  intros ->. trivial.
Qed.

Lemma insert_AssetAssignments_ok db a e t r :
  ledger_ok db -> ledger_ok (fst (insert_AssetAssignments db a e t r)).
Proof.
  intros [Huq Hck]. unfold insert_AssetAssignments.
  destruct (CK_ReturnedAfterAssigned _) eqn:Hrow; simpl;
    [|apply (ledger_ok_same_rows db); [reflexivity|split; assumption]].
  destruct (is_active _ && existsb _ _)%bool eqn:Hidx; simpl;
    [apply (ledger_ok_same_rows db); [reflexivity|split; assumption]|].
  destruct (asset_exists db a && employee_exists db e)%bool; simpl;
    [|apply (ledger_ok_same_rows db); [reflexivity|split; assumption]].
  split.
  - intro a'. simpl. rewrite count_rows_app, count_rows_cons.
    change (count_rows (active_for a') []) with 0.
    specialize (Huq a'). unfold active_for at 2. simpl aa_AssetId.
    destruct (Z.eqb_spec a a') as [<-|]; simpl; [|lia].
    destruct (is_active _) eqn:Hact; simpl in *; [|lia].
    rewrite (count_rows_zero _ _ Hidx). lia.
  - intros x Hx. simpl in Hx. apply in_app_or in Hx as [Hx|[<-|[]]].
    + apply Hck, Hx.
    + apply CK_row, Hrow.
Qed.

Lemma update_ReturnedAt_ok db id now :
  ledger_ok db -> ledger_ok (fst (fst (update_ReturnedAt db id now))).
Proof.
  intros [Huq Hck]. unfold update_ReturnedAt.
  destruct (forallb _ _) eqn:Hall; simpl; [|split; assumption].
  split.
  - intro a. simpl. etransitivity; [|apply (Huq a)].
    apply count_rows_map_le. intro x. apply set_returned_active_for.
  - intros x Hx. simpl in Hx. apply in_map_iff in Hx as [y [<- Hy]].
    unfold set_returned. destruct (active_with_id id y) eqn:Hhit; [|apply Hck, Hy].
    rewrite forallb_forall in Hall.
    assert (Hin : In (set_returned id now y)
                     (List.map (set_returned id now)
                               (List.filter (active_with_id id) (AssetAssignments db)))).
    { apply in_map, filter_In. split; assumption. }
    apply Hall, CK_row in Hin. unfold set_returned in Hin. rewrite Hhit in Hin.
    exact Hin.
Qed.

Lemma update_AssetAssignments_ok db id x y :
  ledger_ok db -> ledger_ok (fst (update_AssetAssignments db id x y)).
Proof.
  intros [Huq Hck]. unfold update_AssetAssignments.
  destruct (negb (existsb _ _)); simpl; [split; assumption|].
  destruct (negb (forallb _ _)) eqn:Hall; simpl; [split; assumption|].
  destruct (negb (no_duplicate_key _)) eqn:Hidx; simpl; [split; assumption|].
  apply negb_false_iff in Hall, Hidx. split.
  - intro a. simpl. rewrite count_key_index.
    apply no_duplicate_key_count, Hidx.
  - intros r Hr. simpl in Hr. rewrite forallb_forall in Hall.
    destruct (AssignmentId r =? id) eqn:Hid.
    + apply CK_row, Hall, filter_In. split; assumption.
    + apply in_map_iff in Hr as [r0 [<- Hr0]]. unfold edit_row in *.
      destruct (AssignmentId r0 =? id) eqn:Hid0; [simpl in Hid; congruence|].
      apply Hck, Hr0.
Qed.

Lemma delete_AssetAssignments_ok db a :
  ledger_ok db -> ledger_ok (delete_AssetAssignments db a).
Proof.
  intros [Huq Hck]. split.
  - intro a'. simpl. etransitivity; [apply count_rows_filter_le|apply Huq].
  - intros r Hr. simpl in Hr. apply filter_In in Hr as [Hr _]. apply Hck, Hr.
Qed.

Lemma delete_Assets_rows db a :
  AssetAssignments (fst (fst (delete_Assets db a))) = AssetAssignments db.
Proof. unfold delete_Assets. destruct (_ && _)%bool; reflexivity. Qed.

Lemma insert_Assets_rows db now n t s :
  AssetAssignments (fst (insert_Assets db now n t s)) = AssetAssignments db.
Proof.
  unfold insert_Assets. destruct (_ || _)%bool; [reflexivity|].
  destruct (existsb _ _); reflexivity.
Qed.

Lemma insert_Employees_rows db now n e p :
  AssetAssignments (fst (insert_Employees db now n e p)) = AssetAssignments db.
Proof. unfold insert_Employees. destruct (existsb _ _); reflexivity. Qed.

Lemma exec_ok db s : ledger_ok db -> ledger_ok (exec db s).
Proof.
  intro H. destruct s; simpl.
  - apply insert_AssetAssignments_ok, H.
  - apply update_ReturnedAt_ok, H.
  - apply update_AssetAssignments_ok, H.
  - apply delete_AssetAssignments_ok, H.
  - eapply ledger_ok_same_rows; [apply delete_Assets_rows|exact H].
  - eapply ledger_ok_same_rows; [apply insert_Assets_rows|exact H].
  - eapply ledger_ok_same_rows; [apply insert_Employees_rows|exact H].
Qed.

(** *** The operations are made of these statements *)

Lemma sp_AssignAsset_db db now a e :
  sp_db (sp_AssignAsset db now a e) =
  if existsb (active_for a) (AssetAssignments db) then db
  else exec db (InsertAssignment a e now None).
Proof.
  unfold sp_AssignAsset. destruct (existsb _ _); [reflexivity|].
  simpl. destruct (insert_AssetAssignments db a e now None). reflexivity.
Qed.

Lemma sp_ReturnAsset_db db now id :
  sp_db (sp_ReturnAsset db now id) = exec db (UpdateReturnedAt id now).
Proof.
  unfold sp_ReturnAsset. simpl.
  destruct (update_ReturnedAt db id now) as [[db' n] err].
  destruct (n =? 0); reflexivity.
Qed.

Lemma post_assignments_db msg db now a e :
  fst (post_assignments msg db now a e) = sp_db (sp_AssignAsset db now a e).
Proof. reflexivity. Qed.

Lemma post_return_db msg db now id :
  fst (post_return msg db now id) = sp_db (sp_ReturnAsset db now id).
Proof. reflexivity. Qed.

Lemma delete_asset_db msg db a :
  fst (delete_asset msg db a) =
  if 0 <? count_rows (active_for a) (AssetAssignments db) then db
  else exec (exec db (DeleteAssignments a)) (DeleteAssetRow a).
Proof.
  unfold delete_asset. destruct (0 <? _); [reflexivity|]. simpl.
  destruct (delete_Assets _ a) as [[db2 n] [err|]]; [reflexivity|].
  destruct (n =? 0); reflexivity.
Qed.

Lemma run_ok msg db o : ledger_ok db -> ledger_ok (run msg db o).
Proof.
  intro H. destruct o; unfold run.
  - rewrite post_assignments_db, sp_AssignAsset_db.
    destruct (existsb _ _); [exact H|apply exec_ok, H].
  - rewrite post_return_db, sp_ReturnAsset_db. apply exec_ok, H.
  - rewrite delete_asset_db.
    destruct (0 <? _); [exact H|]. do 2 apply exec_ok. exact H.
  - apply exec_ok, H.
Qed.

Lemma run_all_ok msg ops : forall db, ledger_ok db -> ledger_ok (run_all msg db ops).
Proof.
  unfold run_all. induction ops as [|o ops IH]; intros db H; simpl; [exact H|].
  apply IH, run_ok, H.
Qed.

Lemma empty_db_ok co : ledger_ok (empty_db co).
Proof.
  split.
  - intro a. cbv. discriminate.
  - intros r [].
Qed.

(** *** Two racing calls of [sp_AssignAsset] *)

Lemma insert_active_free db a e now :
  asset_exists db a = true -> employee_exists db e = true ->
  existsb (active_for a) (AssetAssignments db) = false ->
  exists db',
    insert_AssetAssignments db a e now None = (db', None) /\
    Assets db' = Assets db /\ Employees db' = Employees db /\
    AssetAssignments db' =
      (AssetAssignments db
         ++ [mkAssignment (ident_AssetAssignments db) a e now None])%list.
Proof.
  intros Ha He Hfree. unfold insert_AssetAssignments.
  rewrite Hfree, Ha, He. simpl. eexists. repeat split.
Qed.

Lemma insert_active_taken db a e now :
  existsb (active_for a) (AssetAssignments db) = true ->
  insert_AssetAssignments db a e now None =
    (draw_AssignmentId db, Some UniqueIndexViolation).
Proof. intro H. unfold insert_AssetAssignments. rewrite H. reflexivity. Qed.

Lemma count_one_exists {A} (p : A -> bool) rows :
  count_rows p rows = 1 -> existsb p rows = true.
Proof.
  intro H. destruct (existsb p rows) eqn:E; [reflexivity|].
  rewrite (count_rows_zero _ _ E) in H. discriminate.
Qed.

Lemma count_after_insert db a e now :
  existsb (active_for a) (AssetAssignments db) = false ->
  count_rows (active_for a)
    (AssetAssignments db
       ++ [mkAssignment (ident_AssetAssignments db) a e now None])%list = 1.
Proof.
  intro H. rewrite count_rows_app, (count_rows_zero _ _ H), count_rows_cons.
  unfold active_for, is_active. simpl. rewrite Z.eqb_refl. reflexivity.
Qed.

(** A step of a session while the asset is free. *)
Lemma assign_step_free db now a e pc :
  asset_exists db a = true -> employee_exists db e = true ->
  existsb (active_for a) (AssetAssignments db) = false -> waiting pc ->
  Assets (fst (assign_step db now a e pc)) = Assets db /\
  Employees (fst (assign_step db now a e pc)) = Employees db /\
  ((snd (assign_step db now a e pc) = AtInsert /\
    AssetAssignments (fst (assign_step db now a e pc)) = AssetAssignments db) \/
   (snd (assign_step db now a e pc) = Finished Inserted /\
    count_rows (active_for a)
      (AssetAssignments (fst (assign_step db now a e pc))) = 1)).
Proof.
  intros Ha He Hfree [-> | ->]; simpl.
  - rewrite Hfree. simpl. auto.
  - destruct (insert_active_free db a e now Ha He Hfree)
      as [db' [-> [HA [HE Hrows]]]]. simpl.
    repeat split; try assumption. right. split; [reflexivity|].
    rewrite Hrows. apply count_after_insert, Hfree.
Qed.

(** A step of a session once the other one holds the asset. *)
Lemma assign_step_taken db now a e pc :
  existsb (active_for a) (AssetAssignments db) = true -> lost pc ->
  Assets (fst (assign_step db now a e pc)) = Assets db /\
  Employees (fst (assign_step db now a e pc)) = Employees db /\
  AssetAssignments (fst (assign_step db now a e pc)) = AssetAssignments db /\
  lost (snd (assign_step db now a e pc)).
Proof.
  unfold lost, waiting. intros Htaken [[-> | ->] | [-> | ->]]; simpl.
  - rewrite Htaken. simpl. repeat split; auto.
  - rewrite (insert_active_taken _ _ _ _ Htaken). simpl. repeat split; auto.
  - repeat split; auto.
  - repeat split; auto.
Qed.

Lemma race_step_inv a e1 e2 r turn :
  race_inv a e1 e2 r -> race_inv a e1 e2 (race_step a e1 e2 r turn).
Proof.
  unfold race_inv, asset_exists, employee_exists.
  intros (Ha & He1 & He2 & H). destruct turn as [[|] now]; unfold race_step.
  - (* the first session runs *)
    destruct H as [(Hfree & W1 & W2) | (Hone & [(P1 & L2) | (P2 & L1)])].
    + destruct (assign_step_free (race_db r) now a e1 (pc1 r) Ha He1 Hfree W1)
        as (HA & HE & Hstep).
      destruct (assign_step (race_db r) now a e1 (pc1 r)) as [db' pc'].
      simpl in *. rewrite HA, HE. repeat split; try assumption.
      destruct Hstep as [[-> Hrows] | [-> Hcnt]].
      * left. rewrite Hrows. unfold waiting. auto.
      * right. split; [exact Hcnt|]. left. split; [reflexivity|]. left. exact W2.
    + rewrite P1. simpl. repeat split; try assumption. right. auto.
    + destruct (assign_step_taken (race_db r) now a e1 (pc1 r)
                  (count_one_exists _ _ Hone) L1) as (HA & HE & Hrows & L).
      destruct (assign_step (race_db r) now a e1 (pc1 r)) as [db' pc'].
      simpl in *. rewrite HA, HE, Hrows. repeat split; try assumption. right. auto.
  - (* the second session runs *)
    destruct H as [(Hfree & W1 & W2) | (Hone & [(P1 & L2) | (P2 & L1)])].
    + destruct (assign_step_free (race_db r) now a e2 (pc2 r) Ha He2 Hfree W2)
        as (HA & HE & Hstep).
      destruct (assign_step (race_db r) now a e2 (pc2 r)) as [db' pc'].
      simpl in *. rewrite HA, HE. repeat split; try assumption.
      destruct Hstep as [[-> Hrows] | [-> Hcnt]].
      * left. rewrite Hrows. unfold waiting. auto.
      * right. split; [exact Hcnt|]. right. split; [reflexivity|]. left. exact W1.
    + destruct (assign_step_taken (race_db r) now a e2 (pc2 r)
                  (count_one_exists _ _ Hone) L2) as (HA & HE & Hrows & L).
      destruct (assign_step (race_db r) now a e2 (pc2 r)) as [db' pc'].
      simpl in *. rewrite HA, HE, Hrows. repeat split; try assumption. right. auto.
    + rewrite P2. simpl. repeat split; try assumption. right. auto.
Qed.

Lemma race_inv_run a e1 e2 schedule : forall r,
  race_inv a e1 e2 r ->
  race_inv a e1 e2 (List.fold_left (race_step a e1 e2) schedule r).
Proof.
  induction schedule as [|t ts IH]; intros r H; simpl; [exact H|].
  apply IH, race_step_inv, H.
Qed.

Lemma assign_step_rank db now a e pc :
  (Nat.min 2 (S (rank pc)) <= rank (snd (assign_step db now a e pc)))%nat.
Proof.
  destruct pc; simpl.
  - destruct (existsb _ _); simpl; lia.
  - destruct (insert_AssetAssignments db a e now None) as [db' [err|]]; simpl; lia.
  - lia.
Qed.

#[local] Arguments Nat.min : simpl never.

Lemma race_progress a e1 e2 schedule : forall r,
  (Nat.min 2 (rank (pc1 r) + turns true schedule)
     <= rank (pc1 (List.fold_left (race_step a e1 e2) schedule r)))%nat /\
  (Nat.min 2 (rank (pc2 r) + turns false schedule)
     <= rank (pc2 (List.fold_left (race_step a e1 e2) schedule r)))%nat.
Proof.
  unfold turns.
  induction schedule as [|[[|] now] ts IH]; intro r; simpl.
  - rewrite !Nat.add_0_r. split; apply Nat.le_min_r.
  - specialize (IH (race_step a e1 e2 r (true, now))). destruct IH as [IH1 IH2].
    unfold race_step in *.
    pose proof (assign_step_rank (race_db r) now a e1 (pc1 r)) as Hr.
    destruct (assign_step (race_db r) now a e1 (pc1 r)) as [db' pc'].
    simpl in *. split; lia.
  - specialize (IH (race_step a e1 e2 r (false, now))). destruct IH as [IH1 IH2].
    unfold race_step in *.
    pose proof (assign_step_rank (race_db r) now a e2 (pc2 r)) as Hr.
    destruct (assign_step (race_db r) now a e2 (pc2 r)) as [db' pc'].
    simpl in *. split; lia.
Qed.

Lemma rank_finished pc : (2 <= rank pc)%nat -> finished pc = true.
Proof. destruct pc; simpl; [lia|lia|reflexivity]. Qed.

Lemma assign_step_ok db now a e pc :
  ledger_ok db -> ledger_ok (fst (assign_step db now a e pc)).
Proof.
  intro H. destruct pc; simpl; [destruct (existsb _ _); exact H| |exact H].
  pose proof (insert_AssetAssignments_ok db a e now None H) as Hi.
  destruct (insert_AssetAssignments db a e now None) as [db' [err|]]; exact Hi.
Qed.

Lemma race_ok a e1 e2 schedule : forall r,
  ledger_ok (race_db r) ->
  ledger_ok (race_db (List.fold_left (race_step a e1 e2) schedule r)).
Proof.
  induction schedule as [|[first now] ts IH]; intros r H; simpl; [exact H|].
  apply IH. destruct first.
  - pose proof (assign_step_ok (race_db r) now a e1 (pc1 r) H) as Hs.
    destruct (assign_step (race_db r) now a e1 (pc1 r)). exact Hs.
  - pose proof (assign_step_ok (race_db r) now a e2 (pc2 r) H) as Hs.
    destruct (assign_step (race_db r) now a e2 (pc2 r)). exact Hs.
Qed.

(** The procedure run as a whole is the procedure run statement by
    statement with no other session in between. *)
Lemma sp_AssignAsset_steps db now a e :
  let '(db1, p1) := assign_step db now a e AtExists in
  let '(db2, p2) := assign_step db1 now a e p1 in
  sp_db (sp_AssignAsset db now a e) = db2 /\
  sp_raised (sp_AssignAsset db now a e) =
    match p2 with Finished (InsertRaised err) => Some err | _ => None end.
Proof.
  unfold sp_AssignAsset. simpl. destruct (existsb _ _); simpl; [split; reflexivity|].
  destruct (insert_AssetAssignments db a e now None) as [db' [err|]];
    split; reflexivity.
Qed.

(* ================================================================== *)
(** ** The ledger *)
(* ================================================================== *)

(** C1.  In every state reached from the empty database by any sequence of
    Assign, Return and DeleteAsset operations and of single statements
    (so by any interleaving of the statements of such operations), an asset
    has at most one assignment with [ReturnedAt] NULL.  When two sessions
    call [sp_AssignAsset] for the same free asset in such a state, whatever
    the order in which their statements run, both calls finish, exactly one
    of them inserts its row, and the asset then has exactly one active
    assignment. *)
Theorem one_active_assignment_per_asset :
  (forall msg co ops, one_active_per_asset (run_all msg (empty_db co) ops)) /\
  (forall msg co ops a e1 e2 schedule,
     let db := run_all msg (empty_db co) ops in
     asset_exists db a = true ->
     employee_exists db e1 = true ->
     employee_exists db e2 = true ->
     existsb (active_for a) (AssetAssignments db) = false ->
     (2 <= turns true schedule)%nat ->
     (2 <= turns false schedule)%nat ->
     let r := run_race a e1 e2 db schedule in
     finished (pc1 r) = true /\ finished (pc2 r) = true /\
     xorb (inserted (pc1 r)) (inserted (pc2 r)) = true /\
     count_rows (active_for a) (AssetAssignments (race_db r)) = 1 /\
     one_active_per_asset (race_db r)).
Proof.
  split.
  - intros msg co ops. apply (run_all_ok msg ops), empty_db_ok.
  - intros msg co ops a e1 e2 schedule db Ha He1 He2 Hfree T1 T2 r.
    assert (Hok : ledger_ok db) by apply (run_all_ok msg ops), empty_db_ok.
    assert (Hinv : race_inv a e1 e2 r).
    { apply race_inv_run. unfold race_inv. simpl. repeat split; try assumption.
      left. unfold waiting. auto. }
    destruct (race_progress a e1 e2 schedule (mkRace db AtExists AtExists))
      as [P1 P2]. simpl in P1, P2. fold (run_race a e1 e2 db schedule) in P1, P2.
    fold r in P1, P2.
    assert (F1 : finished (pc1 r) = true) by (apply rank_finished; lia).
    assert (F2 : finished (pc2 r) = true) by (apply rank_finished; lia).
    destruct Hinv as (_ & _ & _ & [(_ & W1 & _) | (Hone & Hwho)]).
    { destruct W1 as [W|W]; rewrite W in F1; discriminate. }
    repeat split; try assumption.
    + unfold lost, waiting in Hwho.
      destruct Hwho as [(-> & [[W|W] | [W|W]]) | (-> & [[W|W] | [W|W]])];
        rewrite W in *; try discriminate; reflexivity.
    + apply (race_ok a e1 e2 schedule (mkRace db AtExists AtExists)). exact Hok.
Qed.

(** C7.  In every state reached from the empty database, every assignment
    has [ReturnedAt] NULL or [ReturnedAt >= AssignedAt]; and a write that
    would break this is refused with the error of the CHECK constraint and
    changes no row: an INSERT of a row returned before it was assigned, the
    UPDATE of [sp_ReturnAsset] run when the clock is behind [AssignedAt],
    and a manual UPDATE of a row to such dates. *)
Theorem returned_never_before_assigned :
  (forall msg co ops, returned_after_assigned (run_all msg (empty_db co) ops)) /\
  (forall db a e t r, r < t ->
     insert_AssetAssignments db a e t (Some r)
       = (draw_AssignmentId db, Some CheckViolation)) /\
  (forall db id now row,
     In row (AssetAssignments db) -> active_with_id id row = true ->
     now < AssignedAt row ->
     update_ReturnedAt db id now = (db, 0, Some CheckViolation)) /\
  (forall db id x y,
     existsb (fun r => AssignmentId r =? id) (AssetAssignments db) = true ->
     y < x ->
     update_AssetAssignments db id x (Some y) = (db, Some CheckViolation)).
Proof.
  split; [|split; [|split]].
  - intros msg co ops. apply (run_all_ok msg ops), empty_db_ok.
  - intros db a e t r Hlt. unfold insert_AssetAssignments, CK_ReturnedAfterAssigned.
    simpl. apply Z.leb_gt in Hlt. rewrite Hlt. reflexivity.
  - intros db id now row Hin Hhit Hlt. unfold update_ReturnedAt.
    destruct (forallb _ _) eqn:Hall; [|reflexivity]. exfalso.
    rewrite forallb_forall in Hall.
    assert (Hrow : CK_ReturnedAfterAssigned (set_returned id now row) = true).
    { apply Hall, in_map, filter_In. split; assumption. }
    unfold set_returned in Hrow. rewrite Hhit in Hrow.
    unfold CK_ReturnedAfterAssigned in Hrow. simpl in Hrow.
    apply Z.leb_le in Hrow. lia.
  - intros db id x y Hex Hlt. unfold update_AssetAssignments. rewrite Hex. simpl.
    destruct (forallb _ _) eqn:Hall; [|reflexivity]. exfalso.
    apply existsb_exists in Hex as [r [Hr Hid]].
    rewrite forallb_forall in Hall.
    assert (He : edit_row id x (Some y) r
                 = mkAssignment (AssignmentId r) (aa_AssetId r) (aa_EmployeeId r)
                                x (Some y)).
    { unfold edit_row. rewrite Hid. reflexivity. }
    assert (Hrow : CK_ReturnedAfterAssigned (edit_row id x (Some y) r) = true).
    { apply Hall, filter_In. split; [apply in_map, Hr|]. rewrite He. exact Hid. }
    rewrite He in Hrow. unfold CK_ReturnedAfterAssigned in Hrow. simpl in Hrow.
    apply Z.leb_le in Hrow. lia.
Qed.

Example sample_db_rows :
  List.map EmployeeId (Employees sample_db) = [1; 2] /\
  List.map AssetId (Assets sample_db) = [1] /\
  AssetAssignments sample_db = [] /\
  AssetAssignments assigned_db = [mkAssignment 1 1 1 100 None] /\
  AssetAssignments returned_db = [mkAssignment 1 1 1 100 (Some 300)].
Proof. repeat split; reflexivity. Qed.

Lemma one_active_assignment_per_asset_witness :
  let r := run_race 1 1 2 sample_db both_check_first in
  finished (pc1 r) = true /\ finished (pc2 r) = true /\
  xorb (inserted (pc1 r)) (inserted (pc2 r)) = true /\
  count_rows (active_for 1) (AssetAssignments (race_db r)) = 1 /\
  one_active_per_asset (race_db r).
Proof.
  apply (proj2 one_active_assignment_per_asset sample_messages CaseInsensitive
               sample_ops 1 1 2 both_check_first); reflexivity.
Defined.

Lemma returned_never_before_assigned_witness :
  insert_AssetAssignments sample_db 1 1 100 (Some 50)
    = (draw_AssignmentId sample_db, Some CheckViolation) /\
  update_ReturnedAt assigned_db 1 50 = (assigned_db, 0, Some CheckViolation) /\
  update_AssetAssignments assigned_db 1 100 (Some 50)
    = (assigned_db, Some CheckViolation).
Proof.
  split; [|split].
  - apply (proj1 (proj2 returned_never_before_assigned)). lia.
  - apply (proj1 (proj2 (proj2 returned_never_before_assigned))
             assigned_db 1 50 (mkAssignment 1 1 1 100 None)).
    + left. reflexivity.
    + reflexivity.
    + simpl. lia.
  - apply (proj2 (proj2 (proj2 returned_never_before_assigned)));
      [reflexivity|lia].
Defined.

(** *** DeleteAsset *)

Lemma existsb_filter_negb {A} (p : A -> bool) rows :
  existsb p (List.filter (fun x => negb (p x)) rows) = false.
Proof.
  induction rows as [|x xs IH]; [reflexivity|].
  simpl. destruct (p x) eqn:E; simpl; [exact IH|]. rewrite E, IH. reflexivity.
Qed.

Lemma count_rows_exists {A} (p : A -> bool) rows :
  (count_rows p rows =? 0) = negb (existsb p rows).
Proof.
  destruct (existsb p rows) eqn:E; simpl.
  - apply count_rows_pos in E. apply Z.eqb_neq. lia.
  - rewrite (count_rows_zero _ _ E). reflexivity.
Qed.

(** C8.  DeleteAsset on an asset with an active assignment answers with
    the AssetInUse outcome and leaves the database as it was.  On an asset
    with no active assignment it deletes every assignment of the asset and
    the asset row and nothing else, so that afterwards no asset and no
    assignment with this id remains; it answers with success when the asset
    existed and with 404 when it did not. *)
Theorem delete_asset_contract msg db a :
  (existsb (active_for a) (AssetAssignments db) = true ->
     AssetInUse (snd (delete_asset msg db a)) /\
     fst (delete_asset msg db a) = db) /\
  (existsb (active_for a) (AssetAssignments db) = false ->
     let db' := fst (delete_asset msg db a) in
     AssetAssignments db'
       = List.filter (fun r => negb (aa_AssetId r =? a)) (AssetAssignments db) /\
     Assets db' = List.filter (fun x => negb (AssetId x =? a)) (Assets db) /\
     Employees db' = Employees db /\
     existsb (fun r => aa_AssetId r =? a) (AssetAssignments db') = false /\
     asset_exists db' a = false /\
     (asset_exists db a = true ->
        snd (delete_asset msg db a)
          = mkResponse 200 true "Asset deleted successfully" None) /\
     (asset_exists db a = false ->
        snd (delete_asset msg db a)
          = mkResponse 404 false "Asset not found" None)).
Proof.
  split; intro H; unfold delete_asset.
  - apply count_rows_pos in H. apply Z.ltb_lt in H. rewrite H.
    split; [|reflexivity]. repeat split.
  - rewrite (count_rows_zero _ _ H). simpl.
    unfold delete_Assets, delete_AssetAssignments. simpl.
    rewrite (existsb_filter_negb (fun r => aa_AssetId r =? a)), andb_false_r.
    rewrite count_rows_exists. fold (asset_exists db a).
    destruct (asset_exists db a) eqn:Hex; simpl;
      (repeat split;
       [apply (existsb_filter_negb (fun r => aa_AssetId r =? a))
       |apply (existsb_filter_negb (fun x => AssetId x =? a))
       |discriminate || reflexivity ..]).
Qed.

Lemma delete_asset_contract_witness :
  (AssetInUse (snd (delete_asset sample_messages assigned_db 1)) /\
   fst (delete_asset sample_messages assigned_db 1) = assigned_db) /\
  (AssetAssignments (fst (delete_asset sample_messages returned_db 1)) = [] /\
   Assets (fst (delete_asset sample_messages returned_db 1)) = [] /\
   snd (delete_asset sample_messages returned_db 1)
     = mkResponse 200 true "Asset deleted successfully" None) /\
  snd (delete_asset sample_messages returned_db 7)
    = mkResponse 404 false "Asset not found" None.
Proof.
  split; [|split].
  - apply (proj1 (delete_asset_contract sample_messages assigned_db 1)).
    reflexivity.
  - pose proof (proj2 (delete_asset_contract sample_messages returned_db 1)
                      eq_refl) as (Hrows & Hassets & _ & _ & _ & Hyes & _).
    split; [exact Hrows|]. split; [exact Hassets|]. apply Hyes. reflexivity.
  - pose proof (proj2 (delete_asset_contract sample_messages returned_db 7)
                      eq_refl) as (_ & _ & _ & _ & _ & _ & Hno).
    apply Hno. reflexivity.
Defined.

(** *** Assign *)

(** Assign on an asset that has an active assignment: the procedure prints
    and returns, raises nothing, and the handler answers 201. *)
Lemma post_assignments_taken msg db now a e :
  existsb (active_for a) (AssetAssignments db) = true ->
  fst (post_assignments msg db now a e) = db /\
  sp_printed (sp_AssignAsset db now a e) = ["Asset already assigned"] /\
  snd (post_assignments msg db now a e)
    = mkResponse 201 true "Asset assigned successfully"
                 (select_active_assignment db a).
Proof.
  intro H. unfold post_assignments, sp_AssignAsset. rewrite H. simpl.
  repeat split.
Qed.

Lemma top1_desc_In {A} (key : A -> Z) rows w :
  top1_desc key rows = Some w -> In w rows.
Proof.
  revert w. induction rows as [|r rs IH]; intros w Hw; [discriminate|].
  simpl in Hw. destruct (top1_desc key rs) as [r'|].
  - destruct (key r <? key r'); inversion Hw; subst.
    + right. apply IH. reflexivity.
    + left. reflexivity.
  - inversion Hw. left. reflexivity.
Qed.

Lemma top1_desc_None {A} (key : A -> Z) rows :
  top1_desc key rows = None -> rows = [].
Proof.
  destruct rows as [|r rs]; [reflexivity|]. simpl.
  destruct (top1_desc key rs); [destruct (_ <? _)|]; discriminate.
Qed.

Lemma filter_none {A} (p : A -> bool) rows :
  existsb p rows = false -> List.filter p rows = [].
Proof.
  induction rows as [|r rs IH]; [reflexivity|]. simpl. intro H.
  apply orb_false_iff in H as [-> Hrs]. apply IH, Hrs.
Qed.

(** Assign on a free asset, for an asset and an employee that exist: one
    row is added, active, and the handler answers 201 with that row. *)
Lemma post_assignments_free msg db now a e :
  asset_exists db a = true -> employee_exists db e = true ->
  existsb (active_for a) (AssetAssignments db) = false ->
  let db' := fst (post_assignments msg db now a e) in
  let resp := snd (post_assignments msg db now a e) in
  AssetAssignments db'
    = (AssetAssignments db
         ++ [mkAssignment (ident_AssetAssignments db) a e now None])%list /\
  status resp = 201 /\ success resp = true /\
  option_map av_row (data resp)
    = Some (mkAssignment (ident_AssetAssignments db) a e now None).
Proof.
  intros Ha He Hfree. unfold post_assignments, sp_AssignAsset. rewrite Hfree.
  destruct (insert_active_free db a e now Ha He Hfree)
    as [db' [-> [HA [HE Hrows]]]]. simpl.
  split; [exact Hrows|]. split; [reflexivity|]. split; [reflexivity|].
  unfold select_active_assignment. rewrite Hrows, HA, HE.
  rewrite List.filter_app, List.flat_map_app, (filter_none _ _ Hfree).
  simpl. unfold active_for, is_active. simpl.
  rewrite Z.eqb_refl. simpl. rewrite List.app_nil_r.
  unfold asset_exists in Ha. unfold employee_exists in He.
  apply existsb_exists in Ha as [x [Hx Hxa]].
  apply existsb_exists in He as [y [Hy Hye]].
  match goal with
  | |- option_map av_row (top1_desc ?k ?rows) = _ =>
      destruct (top1_desc k rows) as [u|] eqn:Htop
  end.
  - simpl. f_equal. apply top1_desc_In in Htop.
    apply in_flat_map in Htop as [v [_ Hu]].
    apply in_map_iff in Hu as [z [<- _]]. reflexivity.
  - exfalso. apply top1_desc_None in Htop.
    assert (Hin : In (mkAssignmentView
                        (mkAssignment (ident_AssetAssignments db) a e now None)
                        (FullName y) (AssetName x))
                     []); [|destruct Hin].
    rewrite <- Htop. apply in_flat_map. exists y. split.
    + apply filter_In. split; [exact Hy|]. simpl. rewrite Z.eqb_sym. exact Hye.
    + apply in_map_iff. exists x. split; [reflexivity|].
      apply filter_In. split; [exact Hx|]. rewrite Z.eqb_sym. exact Hxa.
Qed.

(** C2.  The sample asset 1 is actively assigned to employee 1 (assignment
    1).  Assign(1, 2) then inserts nothing and leaves the database as it
    was, but the handler does not answer with AlreadyAssigned: it answers
    201 with [success: true], the message of a successful assignment, and
    the existing assignment of employee 1 as [data]. *)
Theorem assign_on_assigned_asset_reports_success :
  let '(db', resp) := post_assignments sample_messages assigned_db 200 1 2 in
  existsb (active_for 1) (AssetAssignments assigned_db) = true /\
  db' = assigned_db /\
  resp = mkResponse 201 true "Asset assigned successfully"
           (Some (mkAssignmentView (mkAssignment 1 1 1 100 None)
                                   "John Smith" "iPhone 15 Pro")) /\
  succeeded resp /\ ~ AlreadyAssigned resp.
Proof.
  simpl. repeat split; try reflexivity.
  - discriminate.
  - intros [H _]. discriminate H.
Qed.

(** *** Return *)

Lemma map_set_returned_stale id now rows :
  existsb (active_with_id id) rows = false ->
  List.map (set_returned id now) rows = rows.
Proof.
  induction rows as [|r rs IH]; [reflexivity|]. simpl. intro H.
  apply orb_false_iff in H as [Hr Hrs]. unfold set_returned at 1.
  rewrite Hr, IH by assumption. reflexivity.
Qed.

(** Return of an assignment that does not exist or is already returned:
    the procedure updates no row, prints, raises nothing, and the handler
    answers 200. *)
Lemma post_return_stale msg db now id :
  existsb (active_with_id id) (AssetAssignments db) = false ->
  AssetAssignments (fst (post_return msg db now id)) = AssetAssignments db /\
  sp_printed (sp_ReturnAsset db now id)
    = ["Assignment not found or already returned"] /\
  snd (post_return msg db now id)
    = mkResponse 200 true "Asset returned successfully"
        (List.find (fun x => AssignmentId x =? id) (AssetAssignments db)).
Proof.
  intro H. unfold post_return, sp_ReturnAsset, update_ReturnedAt.
  rewrite (filter_none _ _ H), (map_set_returned_stale _ _ _ H). simpl.
  unfold count_rows. rewrite (filter_none _ _ H). simpl. repeat split.
Qed.

(** C3.  Return of the active sample assignment 1 sets [ReturnedAt] and
    answers 200.  A second Return of assignment 1 finds no row to update:
    the procedure prints that the assignment was not found or already
    returned, the database stays as it was, and the handler does not answer
    with a failure: it answers 200 with [success: true] and the message of a
    successful return, as it does for an assignment 99 that does not
    exist. *)
Theorem second_return_reports_success :
  let '(db1, first) := post_return sample_messages assigned_db 300 1 in
  let '(db2, second) := post_return sample_messages db1 400 1 in
  first = mkResponse 200 true "Asset returned successfully"
            (Some (mkAssignment 1 1 1 100 (Some 300))) /\
  sp_printed (sp_ReturnAsset db1 400 1)
    = ["Assignment not found or already returned"] /\
  db2 = db1 /\
  second = mkResponse 200 true "Asset returned successfully"
             (Some (mkAssignment 1 1 1 100 (Some 300))) /\
  succeeded second /\
  snd (post_return sample_messages db1 500 99)
    = mkResponse 200 true "Asset returned successfully" None.
Proof.
  simpl. repeat split; try reflexivity; discriminate.
Qed.

(** *** Errors of the store in the handlers *)

(** The only error that a call of [sp_AssignAsset] racing with another one
    for a free asset can raise is the one of the unique index. *)
Lemma race_error_is_duplicate_key a e1 e2 db schedule err :
  asset_exists db a = true ->
  employee_exists db e1 = true ->
  employee_exists db e2 = true ->
  existsb (active_for a) (AssetAssignments db) = false ->
  let r := run_race a e1 e2 db schedule in
  raised_of (pc1 r) = Some err \/ raised_of (pc2 r) = Some err ->
  err = UniqueIndexViolation.
Proof.
  intros Ha He1 He2 Hfree r Herr.
  assert (Hinv : race_inv a e1 e2 r).
  { apply race_inv_run. unfold race_inv. simpl. repeat split; try assumption.
    left. unfold waiting. auto. }
  unfold race_inv, lost, waiting in Hinv.
  destruct Hinv as (_ & _ & _ & [(_ & W1 & W2) | (_ & Hwho)]).
  - destruct W1 as [W1|W1], W2 as [W2|W2], Herr as [H|H];
      rewrite ?W1, ?W2 in H; discriminate H.
  - destruct Hwho as [(P & [[W|W] | [W|W]]) | (P & [[W|W] | [W|W]])],
      Herr as [H|H]; rewrite ?P, ?W in H; simpl in H; congruence.
Qed.

(** The only error that [sp_ReturnAsset] can raise is the one of the CHECK
    constraint; the tables are then as they were. *)
Lemma sp_ReturnAsset_error db now id err :
  sp_raised (sp_ReturnAsset db now id) = Some err ->
  err = CheckViolation /\ sp_db (sp_ReturnAsset db now id) = db.
Proof.
  unfold sp_ReturnAsset, update_ReturnedAt.
  destruct (forallb _ _).
  - destruct (_ =? 0); discriminate.
  - cbn. intros [= <-]. split; reflexivity.
Qed.

(** C9, as amended.  When [sp_ReturnAsset] raises an error of the store,
    which can only be the one of the CHECK constraint, the handler of Return
    answers with a 400 that carries the message of the store as it is, and
    the tables are as they were: the handler has no translation of its own.
    When [sp_AssignAsset] raises an error whose message contains "already
    assigned", the handler of Assign answers with the AlreadyAssigned
    outcome (409). *)
Theorem store_errors_in_handlers msg :
  (forall db now id err,
     sp_raised (sp_ReturnAsset db now id) = Some err ->
     err = CheckViolation /\
     snd (post_return msg db now id) = mkResponse 400 false (msg err) None /\
     fst (post_return msg db now id) = db) /\
  (forall db now a e err,
     sp_raised (sp_AssignAsset db now a e) = Some err ->
     includes "already assigned" (msg err) = true ->
     AlreadyAssigned (snd (post_assignments msg db now a e))).
Proof.
  split.
  - intros db now id err H.
    destruct (sp_ReturnAsset_error db now id err H) as [-> Hdb].
    unfold post_return. cbn [fst snd]. rewrite H, Hdb.
    repeat split; reflexivity.
  - intros db now a e err H Hinc. unfold post_assignments. cbn [snd].
    rewrite H. unfold assign_respond, assign_catch. rewrite Hinc.
    repeat split; reflexivity.
Qed.

Lemma store_errors_in_handlers_witness :
  snd (post_return sample_messages assigned_db 50 1)
    = mkResponse 400 false (sample_messages CheckViolation) None /\
  fst (post_return sample_messages assigned_db 50 1) = assigned_db.
Proof.
  assert (H : sp_raised (sp_ReturnAsset assigned_db 50 1) = Some CheckViolation)
    by (vm_compute; reflexivity).
  destruct (proj1 (store_errors_in_handlers sample_messages)
              assigned_db 50 1 CheckViolation H) as (_ & Hresp & Hdb).
  split; assumption.
Defined.

(** C9 as stated fails for Return.  Assignment 1 of the sample was assigned
    at time 100.  A Return that the clock of the server dates at 50 is
    refused by the CHECK constraint, and its caller gets a 400 whose message
    is the message of the store as it is, with the name of the constraint
    in it, not the outcome that [sp_ReturnAsset] words as "Assignment not
    found or already returned". *)
Lemma return_error_reaches_caller :
  let resp := snd (post_return sample_messages assigned_db 50 1) in
  sp_raised (sp_ReturnAsset assigned_db 50 1) = Some CheckViolation /\
  resp = mkResponse 400 false (sample_messages CheckViolation) None /\
  includes "CK_ReturnedAfterAssigned" (message resp) = true /\
  message resp <> "Assignment not found or already returned".
Proof.
  vm_compute. repeat split; try reflexivity. discriminate.
Qed.

(** The handler of Assign in the race.  Two sessions assign the free sample
    asset 1 and both pass [IF EXISTS] before either inserts: the INSERT of
    the second is refused by the unique index.  The [catch] block looks for
    "already assigned" in the message, which the message of the index does
    not contain (and which the procedure never raises), so its 409 answer is
    missed and the caller gets a 400 with the message of the store. *)
Lemma raw_storage_error_reaches_caller :
  let r := run_race 1 1 2 sample_db both_check_first in
  let resp := assign_respond sample_messages (race_db r) 1 (raised_of (pc2 r)) in
  pc1 r = Finished Inserted /\
  pc2 r = Finished (InsertRaised UniqueIndexViolation) /\
  resp = mkResponse 400 false (sample_messages UniqueIndexViolation) None /\
  ~ AlreadyAssigned resp /\
  snd (post_return sample_messages assigned_db 50 1)
    = mkResponse 400 false (sample_messages CheckViolation) None.
Proof.
  simpl. repeat split; try reflexivity. intros [H _]. discriminate H.
Qed.

(* ================================================================== *)
(** ** Serial numbers *)
(* ================================================================== *)

Example js_examples :
  JS.split "-" "LA-2025-001" = ["LA"; "2025"; "001"] /\
  JS.parseInt "007" = Some 7 /\ JS.parseInt "12ab" = Some 12 /\
  JS.parseInt "ab" = None /\
  JS.padStart 3 "0" (JS.toString 7) = "007" /\
  JS.padStart 3 "0" (JS.toString 1000) = "1000" /\
  includes "duplicate" (sample_messages UniqueIndexViolation) = true /\
  includes "already assigned" (sample_messages UniqueIndexViolation) = false.
Proof. repeat split; reflexivity. Qed.

(** Numbers beyond 2^53: rounding, the shortest decimal, the exponent form
    from 10^21 on, and what the allocator makes of them. *)
Example number_examples :
  JS.number 9007199254740993 = 9007199254740992 /\
  JS.number 9007199254740995 = 9007199254740996 /\
  JS.toString (2 ^ 64) = "18446744073709552000" /\
  JS.toString (2 ^ 70) = "1.1805916207174113e+21" /\
  JS.toString (10 ^ 21) = "1e+21" /\
  JS.toString (- 2 ^ 70) = "-1.1805916207174113e+21" /\
  JS.toString (2 ^ 1024 - 2 ^ 971) = "1.7976931348623157e+308" /\
  JS.toString (2 ^ 1024 - 2 ^ 970) = "Infinity" /\
  JS.parseInt "999999999999999999999" = Some (10 ^ 21) /\
  JS.parseInt (String (ascii_of_nat 160) "007") = Some 7 /\
  nextNumber (Some "LA-2025-9007199254740993") = 9007199254740992 /\
  generateSerialNumber 1 (quiescent 2025 odd_number_db) 0 "Laptop"
    = Some (Resolved "LA-2025-9007199254740992") /\
  generateSerialNumber 1 (quiescent 2025 long_number_db) 0 "Laptop"
    = Some (Resolved "LA-2025-1e+21").
Proof. vm_compute. repeat split; reflexivity. Qed.

Example sql_examples :
  SQL.like CaseSensitive "LA-2025-%" "LA-2025-001" = true /\
  SQL.like CaseSensitive "LA-2025-%" "LB-2025-001" = false /\
  SQL.like CaseInsensitive "LA-2025-%" "la-2025-1000" = true /\
  SQL.RIGHT "LA-2025-1000" 3 = "000" /\
  SQL.cast_int "999" = Some 999 /\ SQL.cast_int "000" = Some 0 /\
  SQL.cast_int "5-1" = None /\ SQL.cast_int "-01" = Some (-1) /\
  SQL.eq CaseInsensitive "la-2025-001 " "LA-2025-001" = true.
Proof. repeat split; reflexivity. Qed.

(** *** The prefix *)

Lemma upper_char_letter c :
  JS.is_letter c = true -> JS.is_upper (JS.upper_char c) = true.
Proof.
  destruct c as [[|] [|] [|] [|] [|] [|] [|] [|]]; vm_compute;
    intro H; first [reflexivity | discriminate H].
Qed.

Lemma filter_forallb p s : JS.forallb p (JS.filter p s) = true.
Proof.
  induction s as [|c s IH]; [reflexivity|]. simpl.
  destruct (p c) eqn:E; [simpl; rewrite E, IH; reflexivity|exact IH].
Qed.

(** The first two characters of a string of letters, in upper case and
    padded with X, are two upper-case letters. *)
Lemma pad_upper_two t :
  JS.forallb JS.is_letter t = true ->
  let p := JS.padEnd 2 "X" (JS.toUpperCase (JS.substring0 2 t)) in
  String.length p = 2%nat /\ JS.forallb JS.is_upper p = true.
Proof.
  intro H. destruct t as [|c1 [|c2 t]]; simpl in *.
  - split; reflexivity.
  - rewrite andb_true_r in H. rewrite (upper_char_letter _ H). split; reflexivity.
  - apply andb_true_iff in H as [H1 H2]. apply andb_true_iff in H2 as [H2 _].
    destruct t; simpl;
      rewrite (upper_char_letter _ H1), (upper_char_letter _ H2);
      split; reflexivity.
Qed.

(** C10.  For every asset type, empty or not, the prefix is exactly two
    upper-case ASCII letters.  The filler is X: a type with one letter gives
    that letter in upper case followed by X, and a type with no letter gives
    XX; for the type "123" and a table with no serial, the allocation
    returns a serial with the prefix XX at its first run. *)
Theorem prefix_two_uppercase_letters :
  (forall assetType,
     String.length (serial_prefix assetType) = 2%nat /\
     JS.forallb JS.is_upper (serial_prefix assetType) = true) /\
  (forall assetType c,
     JS.replace_non_letters assetType = String c EmptyString ->
     serial_prefix assetType = String (JS.upper_char c) "X") /\
  (forall assetType,
     JS.replace_non_letters assetType = EmptyString ->
     serial_prefix assetType = "XX") /\
  (forall co,
     generateSerialNumber 1 (quiescent 2025 (empty_db co)) 0 "123"
       = Some (Resolved "XX-2025-001")).
Proof.
  split; [|split; [|split]].
  - intro assetType. apply pad_upper_two, filter_forallb.
  - intros assetType c H. unfold serial_prefix. rewrite H. reflexivity.
  - intros assetType H. unfold serial_prefix. rewrite H. reflexivity.
  - intros []; reflexivity.
Qed.

Lemma prefix_two_uppercase_letters_witness :
  serial_prefix "4a" = "AX" /\ serial_prefix "123" = "XX".
Proof.
  split.
  - apply (proj1 (proj2 prefix_two_uppercase_letters) "4a" "a"%char). reflexivity.
  - apply (proj1 (proj2 (proj2 prefix_two_uppercase_letters)) "123"). reflexivity.
Defined.

(** *** The scan for the highest sequence number *)

(** C5.  With the serials LA-2025-999 and LA-2025-1000 in the table, both
    match the prefix and the numerically highest suffix is 1000, so the
    next number is 1001 by the rule of the specification.  The query orders
    by the last three characters, 999 against 000: it selects LA-2025-999,
    and the proposed number is 1000, whose serial is already in the
    table. *)
Theorem highest_suffix_missed_past_999 :
  matching_serials wide_db "LA-2025-%" = ["LA-2025-999"; "LA-2025-1000"] /\
  order_key "LA-2025-999" = Some 999 /\
  order_key "LA-2025-1000" = Some 0 /\
  select_top_serial wide_db "LA-2025-%" = inl (Some "LA-2025-999") /\
  nextNumber (Some "LA-2025-999") = 1000 /\
  spec_nextNumber wide_db "LA-2025-" = 1001 /\
  attempt (mkView 2025 wide_db wide_db) "Laptop" = Collision "LA-2025-1000".
Proof. repeat split; reflexivity. Qed.

(** *** The retry *)

Lemma generateSerialNumber_unfold fuel views k assetType :
  generateSerialNumber (S fuel) views k assetType =
  match attempt (views k) assetType with
  | Fresh serialNumber => Some (Resolved serialNumber)
  | ScanFailed e => Some (Rejected e)
  | Collision _ => generateSerialNumber fuel views (S k) assetType
  end.
Proof. reflexivity. Qed.

(** Against a database that nobody else writes to, a run that collides is
    followed only by runs that collide. *)
Lemma collision_forever year db assetType s :
  attempt (mkView year db db) assetType = Collision s ->
  forall fuel k, generateSerialNumber fuel (quiescent year db) k assetType = None.
Proof.
  intros H fuel. induction fuel as [|fuel IH]; intro k; [reflexivity|].
  rewrite generateSerialNumber_unfold. unfold quiescent at 1. rewrite H. apply IH.
Qed.

Lemma contended_runs n : forall m k,
  (k + m = n)%nat ->
  generateSerialNumber m (contended n) k "Laptop" = None /\
  generateSerialNumber (S m) (contended n) k "Laptop"
    = Some (Resolved "LA-2025-001").
Proof.
  induction m as [|m IH]; intros k Hk.
  - split; [reflexivity|]. rewrite generateSerialNumber_unfold. unfold contended.
    replace (Nat.ltb k n) with false by (symmetry; apply Nat.ltb_ge; lia).
    reflexivity.
  - destruct (IH (S k)) as [IH1 IH2]; [lia|].
    assert (Hrun : attempt (contended n k) "Laptop" = Collision "LA-2025-001").
    { unfold contended.
      replace (Nat.ltb k n) with true by (symmetry; apply Nat.ltb_lt; lia).
      reflexivity. }
    split; rewrite generateSerialNumber_unfold, Hrun; assumption.
Qed.

(** C4, as amended.  The retry of [generateSerialNumber] is a recursive
    call of the whole function with the same argument; there is no budget
    of attempts and no SerialAllocationFailed outcome.  A run of the body
    returns its candidate when the re-check finds it absent, rejects with
    the error of the scan, and on a collision starts over.  The number of
    runs is not bounded: for every [n] there is an interleaving with other
    sessions in which exactly [n] runs collide before the call returns; and
    against a database that no other session writes to, a call whose first
    run collides never returns. *)
Theorem retry_is_unbounded_recursion :
  (forall fuel year db assetType,
     generateSerialNumber (S fuel) (quiescent year db) 0 assetType =
     match attempt (mkView year db db) assetType with
     | Fresh serialNumber => Some (Resolved serialNumber)
     | ScanFailed e => Some (Rejected e)
     | Collision _ => None
     end) /\
  (forall n,
     generateSerialNumber n (contended n) 0 "Laptop" = None /\
     generateSerialNumber (S n) (contended n) 0 "Laptop"
       = Some (Resolved "LA-2025-001")).
Proof.
  split.
  - intros fuel year db assetType. rewrite generateSerialNumber_unfold.
    unfold quiescent at 1.
    destruct (attempt (mkView year db db) assetType) eqn:H; try reflexivity.
    apply (collision_forever year db assetType _ H).
  - intro n. apply contended_runs. reflexivity.
Qed.

(** C4 as stated fails.  With the serials LA-2025-999 and LA-2025-1000 in
    a table that nobody else writes to, no number of runs makes
    [generateSerialNumber("Laptop")] return a serial or an error. *)
Lemma retry_never_returns :
  ~ (exists fuel result,
       generateSerialNumber fuel (quiescent 2025 wide_db) 0 "Laptop" = Some result).
Proof.
  intros [fuel [result H]].
  rewrite (collision_forever 2025 wide_db "Laptop" "LA-2025-1000") in H;
    [discriminate H|reflexivity].
Qed.

(** *** The format of a serial *)

Lemma forallb_app p a b :
  JS.forallb p (a ++ b) = (JS.forallb p a && JS.forallb p b)%bool.
Proof.
  induction a as [|c a IH]; [reflexivity|]. simpl. rewrite IH.
  apply andb_assoc.
Qed.

Lemma forallb_repeat p c n : p c = true -> JS.forallb p (JS.repeat c n) = true.
Proof. intro H. induction n as [|n IH]; [reflexivity|]. simpl. rewrite H, IH. reflexivity. Qed.

Lemma length_repeat c n : String.length (JS.repeat c n) = n.
Proof. induction n as [|n IH]; [reflexivity|]. simpl. rewrite IH. reflexivity. Qed.

Lemma length_app a b : String.length (a ++ b) = (String.length a + String.length b)%nat.
Proof. induction a as [|c a IH]; [reflexivity|]. simpl. rewrite IH. reflexivity. Qed.

Lemma uint_digits d : JS.forallb JS.is_digit (NilEmpty.string_of_uint d) = true.
Proof. induction d; simpl; trivial. Qed.

Lemma decimal_digits n :
  0 <= n -> JS.forallb JS.is_digit (JS.decimal n) = true.
Proof.
  intro H. unfold JS.decimal. destruct n as [|p|p]; [reflexivity| |lia].
  simpl. unfold NilZero.string_of_uint.
  destruct (Pos.to_uint p) eqn:E; try reflexivity; rewrite <- E; apply uint_digits.
Qed.

(** Below 2^53 a Number is the integer, and its string the numeral. *)
Lemma round_magnitude_exact m :
  safe m -> JS.round_magnitude m = m.
Proof.
  unfold safe. intros [H0 H]. unfold JS.round_magnitude.
  assert (Hlog : Z.log2 m < 53).
  { destruct (Z.eq_dec m 0) as [->|Hm]; [reflexivity|].
    apply Z.log2_lt_pow2; [lia|]. change (2 ^ 53) with 9007199254740992. exact H. }
  destruct (Z.leb_spec (Z.log2 m - 52) 0); [reflexivity|lia].
Qed.

Lemma number_exact n :
  Z.abs n < 9007199254740992 -> JS.number n = n.
Proof.
  intro H. unfold JS.number. destruct (Z.ltb_spec n 0).
  - rewrite round_magnitude_exact; unfold safe; lia.
  - apply round_magnitude_exact. unfold safe. lia.
Qed.

Lemma toString_exact n :
  Z.abs n < 9007199254740992 -> JS.toString n = JS.decimal n.
Proof.
  intro H. unfold JS.toString. rewrite (number_exact n H).
  destruct (Z.ltb_spec (Z.abs n) 9007199254740992); [reflexivity|lia].
Qed.

Lemma toString_digits n :
  safe n -> JS.forallb JS.is_digit (JS.toString n) = true.
Proof.
  unfold safe. intro H. rewrite toString_exact by lia. apply decimal_digits. lia.
Qed.

(** Rounding keeps the sign and does not reach below 1. *)
Lemma round_magnitude_pos m : 1 <= m -> 1 <= JS.round_magnitude m.
Proof.
  intro H. unfold JS.round_magnitude.
  destruct (Z.leb_spec (Z.log2 m - 52) 0) as [_|He]; [exact H|].
  set (e := Z.log2 m - 52) in *.
  assert (Hq : 1 <= Z.shiftr m e).
  { rewrite Z.shiftr_div_pow2 by lia.
    assert (Hp : 0 < 2 ^ e) by (apply Z.pow_pos_nonneg; lia).
    assert (Hle : 2 ^ e <= m).
    { apply Z.le_trans with (2 ^ Z.log2 m).
      - apply Z.pow_le_mono_r; lia.
      - apply Z.log2_spec. lia. }
    apply Z.div_le_lower_bound; lia. }
  assert (Hpow : forall q, 1 <= q -> 1 <= Z.shiftl q e).
  { intros q Hq1. rewrite Z.shiftl_mul_pow2 by lia.
    assert (Hp : 0 < 2 ^ e) by (apply Z.pow_pos_nonneg; lia). nia. }
  apply Z.min_glb; [|discriminate].
  destruct (_ <? _); [apply Hpow; lia|].
  destruct (_ <? _); [apply Hpow; lia|].
  destruct (Z.even _); apply Hpow; lia.
Qed.

Lemma number_nonneg n : 0 <= n -> 0 <= JS.number n.
Proof.
  intro H. unfold JS.number. destruct (Z.ltb_spec n 0); [lia|].
  destruct (Z.eq_dec n 0) as [->|Hn]; [discriminate|].
  pose proof (round_magnitude_pos n). lia.
Qed.

Lemma number_pos n : 1 <= n -> 1 <= JS.number n.
Proof.
  intro H. unfold JS.number. destruct (Z.ltb_spec n 0); [lia|].
  apply round_magnitude_pos, H.
Qed.

(** The characters of the string of a Number *)
Lemma forallb_impl (p q : ascii -> bool) s :
  (forall c, p c = true -> q c = true) ->
  JS.forallb p s = true -> JS.forallb q s = true.
Proof.
  intro Hpq. induction s as [|c s IH]; [trivial|]. simpl. intro H.
  apply andb_true_iff in H as [Hc Hs]. rewrite (Hpq c Hc), (IH Hs). reflexivity.
Qed.

Lemma digit_unsigned c : JS.is_digit c = true -> unsigned_char c = true.
Proof. unfold unsigned_char. intros ->. reflexivity. Qed.

Lemma unsigned_numeral c : unsigned_char c = true -> numeral_char c = true.
Proof. unfold numeral_char. intros ->. reflexivity. Qed.

Lemma decimal_unsigned n :
  0 <= n -> JS.forallb unsigned_char (JS.decimal n) = true.
Proof. intro H. apply (forallb_impl _ _ _ digit_unsigned), decimal_digits, H. Qed.

Lemma decimal_numeral n : JS.forallb numeral_char (JS.decimal n) = true.
Proof.
  destruct (Z.le_gt_cases 0 n) as [H|H].
  - apply (forallb_impl _ _ _ unsigned_numeral), decimal_unsigned, H.
  - unfold JS.decimal. destruct n as [|p|p]; try lia.
    change (JS.forallb numeral_char (String "-" (JS.decimal (Z.pos p))) = true).
    cbn [JS.forallb]. rewrite (forallb_impl _ _ _ unsigned_numeral
                                 (decimal_unsigned (Z.pos p) ltac:(lia))).
    reflexivity.
Qed.

Lemma strip_zeros_forallb p s :
  JS.forallb p s = true -> JS.forallb p (JS.strip_zeros s) = true.
Proof.
  induction s as [|c s IH]; [trivial|]. cbn [JS.forallb JS.strip_zeros].
  intro H. apply andb_true_iff in H as [Hc Hs]. specialize (IH Hs).
  destruct (JS.strip_zeros s) as [|d t].
  - destruct (Ascii.eqb c "0"); [reflexivity|]. cbn [JS.forallb].
    rewrite Hc. reflexivity.
  - cbn [JS.forallb] in *. rewrite Hc, IH. reflexivity.
Qed.

Lemma exponent_form_unsigned ds :
  JS.forallb unsigned_char ds = true ->
  JS.forallb unsigned_char (JS.exponent_form ds) = true.
Proof.
  intro H. unfold JS.exponent_form.
  pose proof (strip_zeros_forallb _ _ H) as Hs.
  pose proof (decimal_unsigned (Z.of_nat (String.length ds - 1))
                               (Nat2Z.is_nonneg _)) as Hn.
  destruct (JS.strip_zeros ds) as [|d rest]; [reflexivity|].
  cbn [JS.forallb] in Hs. apply andb_true_iff in Hs as [Hd Hrest].
  destruct rest as [|r rest].
  - cbn [JS.forallb]. rewrite Hd.
    change ("e+" ++ ?n) with (String "e" (String "+" n)).
    cbn [JS.forallb]. rewrite Hn. reflexivity.
  - cbn [JS.forallb]. rewrite Hd.
    change ("." ++ ?x) with (String "." x). cbn [JS.forallb].
    rewrite forallb_app, Hrest.
    change ("e+" ++ ?n) with (String "e" (String "+" n)).
    cbn [JS.forallb]. rewrite Hn. reflexivity.
Qed.

Lemma shortest_go_nonneg x : 0 <= x -> forall fuel p,
  0 <= p -> 0 <= JS.shortest_go fuel x p.
Proof.
  intro Hx. induction fuel as [|fuel IH]; intros p Hp; cbn [JS.shortest_go];
    [exact Hx|].
  assert (Hlo : 0 <= x / p * p).
  { apply Z.mul_nonneg_nonneg; [apply Z_div_nonneg_nonneg; assumption|exact Hp]. }
  destruct (_ && _)%bool; [destruct (_ <=? _); lia|].
  destruct (_ =? _); [exact Hlo|].
  destruct (_ =? _); [lia|].
  apply IH. apply Z_div_nonneg_nonneg; lia.
Qed.

Lemma render_unsigned x :
  0 <= x -> JS.forallb unsigned_char (JS.render x) = true.
Proof.
  intro Hx. unfold JS.render.
  destruct (_ <=? _); [reflexivity|].
  assert (Hw : 0 <= JS.shortest x).
  { unfold JS.shortest. apply shortest_go_nonneg; [exact Hx|].
    apply Z.pow_nonneg. lia. }
  destruct (_ <? _); [apply decimal_unsigned, Hw|].
  apply exponent_form_unsigned, decimal_unsigned, Hw.
Qed.

(** The string of a Number that is not negative has no minus sign. *)
Lemma toString_unsigned n :
  0 <= n -> JS.forallb unsigned_char (JS.toString n) = true.
Proof.
  intro H. unfold JS.toString. pose proof (number_nonneg n H) as Hx.
  destruct (_ <? 9007199254740992); [apply decimal_unsigned, Hx|].
  destruct (Z.ltb_spec (JS.number n) 0); [lia|].
  apply render_unsigned, Hx.
Qed.

Lemma toString_numeral n : JS.forallb numeral_char (JS.toString n) = true.
Proof.
  unfold JS.toString.
  destruct (_ <? 9007199254740992); [apply decimal_numeral|].
  destruct (Z.ltb_spec (JS.number n) 0).
  - change ("-" ++ ?x) with (String "-" x). cbn [JS.forallb].
    rewrite (forallb_impl _ _ _ unsigned_numeral
               (render_unsigned (- JS.number n) ltac:(lia))).
    reflexivity.
  - apply (forallb_impl _ _ _ unsigned_numeral), render_unsigned. assumption.
Qed.

(** The sequence number is written with at least three characters, all of
    them digits. *)
Lemma sequence_digits n :
  safe n ->
  let nnn := JS.padStart 3 "0" (JS.toString n) in
  (3 <= String.length nnn)%nat /\ JS.forallb JS.is_digit nnn = true.
Proof.
  intro H. unfold JS.padStart. split.
  - rewrite length_app, length_repeat. lia.
  - rewrite forallb_app, forallb_repeat, toString_digits by trivial. reflexivity.
Qed.

Lemma split_go_no_sep sep s : forall cur,
  no_sep sep cur = true ->
  forall p, In p (JS.split_go sep cur s) -> no_sep sep p = true.
Proof.
  induction s as [|c s IH]; intros cur Hcur p Hp; simpl in Hp.
  - destruct Hp as [<-|[]]. exact Hcur.
  - destruct (Ascii.eqb c sep) eqn:E.
    + destruct Hp as [<-|Hp]; [exact Hcur|]. apply (IH EmptyString); trivial.
    + apply (IH (cur ++ String c EmptyString)); [|exact Hp].
      unfold no_sep. rewrite forallb_app. fold (no_sep sep cur). rewrite Hcur.
      simpl. rewrite E. reflexivity.
Qed.

Lemma skip_spaces_forallb p s :
  JS.forallb p s = true -> JS.forallb p (JS.skip_spaces s) = true.
Proof.
  induction s as [|c s IH]; [trivial|]. simpl. intro H.
  destruct (JS.is_space c); [|exact H].
  apply andb_true_iff in H as [_ H]. apply IH, H.
Qed.

Lemma digits_go_nonneg s : forall acc seen,
  0 <= acc -> 0 <= fst (JS.digits_go acc seen s).
Proof.
  induction s as [|c s IH]; intros acc seen H; cbn [JS.digits_go]; [exact H|].
  destruct (JS.is_digit c); [|exact H].
  apply IH. unfold JS.digit_value. lia.
Qed.

Lemma digits_nonneg s v : JS.digits s = Some v -> 0 <= v.
Proof.
  unfold JS.digits. pose proof (digits_go_nonneg s 0 false (Z.le_refl 0)) as H.
  destruct (JS.digits_go 0 false s) as [w seen]. destruct seen; [|discriminate].
  intros [= <-]. exact H.
Qed.

Lemma parseInt_nonneg s v :
  no_sep "-" s = true -> JS.parseInt s = Some v -> 0 <= v.
Proof.
  intros Hs. unfold JS.parseInt.
  apply skip_spaces_forallb in Hs. fold (no_sep "-" (JS.skip_spaces s)) in Hs.
  assert (Hnum : forall t, option_map JS.number (JS.digits t) = Some v -> 0 <= v).
  { intros t H. destruct (JS.digits t) as [w|] eqn:E; [|discriminate].
    injection H as <-. apply number_nonneg, (digits_nonneg t), E. }
  destruct (JS.skip_spaces s) as [|c t] eqn:E; [apply Hnum|].
  destruct c as [[|] [|] [|] [|] [|] [|] [|] [|]];
    try (apply Hnum); discriminate Hs.
Qed.

Lemma nextNumber_positive recordset : 1 <= nextNumber recordset.
Proof.
  unfold nextNumber. destruct recordset as [lastSerial|]; [|lia].
  destruct (Nat.eqb _ 3); [|lia].
  destruct (JS.parseInt _) as [lastNum|] eqn:E; [|lia].
  apply parseInt_nonneg in E; [apply number_pos; lia|].
  destruct (List.nth_in_or_default 2 (JS.split "-" lastSerial) "") as [H| ->];
    [|reflexivity].
  apply (split_go_no_sep "-" lastSerial EmptyString); [reflexivity|exact H].
Qed.

Lemma attempt_fresh_format v assetType s :
  attempt v assetType = Fresh s ->
  exists n, 1 <= n /\ s = format_serial (basePattern (view_year v) assetType) n.
Proof.
  unfold attempt. destruct (select_top_serial _ _) as [recordset|e]; [|discriminate].
  destruct (0 <? _); [discriminate|]. intros [= <-].
  exists (nextNumber recordset). split; [apply nextNumber_positive|reflexivity].
Qed.

Lemma generateSerialNumber_format fuel views : forall k assetType s,
  generateSerialNumber fuel views k assetType = Some (Resolved s) ->
  exists j n,
    1 <= n /\ s = format_serial (basePattern (view_year (views j)) assetType) n.
Proof.
  induction fuel as [|fuel IH]; intros k assetType s H; [discriminate|].
  rewrite generateSerialNumber_unfold in H.
  destruct (attempt (views k) assetType) eqn:E.
  - injection H as ->. exists k. apply attempt_fresh_format, E.
  - apply IH in H. exact H.
  - discriminate.
Qed.

(** *** The first serial of a prefix and year *)

Lemma like_literal co c p s :
  is_wild c = false ->
  SQL.like co (String c p) s =
  match s with
  | String d s' => (SQL.chr_eqb co c d && SQL.like co p s')%bool
  | EmptyString => false
  end.
Proof.
  destruct c as [[|] [|] [|] [|] [|] [|] [|] [|]];
    intro H; first [reflexivity | discriminate H].
Qed.

Lemma like_any co s : SQL.like co "%" s = true.
Proof.
  induction s as [|c s IH]; [reflexivity|].
  simpl in *. exact IH.
Qed.

Lemma chr_eqb_sym co a b : SQL.chr_eqb co a b = SQL.chr_eqb co b a.
Proof. destruct co; simpl; apply Ascii.eqb_sym. Qed.

(** A string that starts with the literal text [base], up to the
    collation, matches [base%]. *)
Lemma like_prefix co base : forall x y,
  JS.forallb (fun c => negb (is_wild c)) base = true ->
  SQL.str_eqb co x base = true ->
  SQL.like co (base ++ "%") (x ++ y) = true.
Proof.
  induction base as [|c base IH]; intros x y Hlit Hx.
  - apply like_any.
  - simpl in Hlit. apply andb_true_iff in Hlit as [Hc Hlit].
    apply negb_true_iff in Hc.
    destruct x as [|d x]; [discriminate|]. simpl in Hx.
    apply andb_true_iff in Hx as [Hd Hx].
    change ((String c base ++ "%")) with (String c (base ++ "%")).
    rewrite (like_literal co c _ _ Hc). simpl.
    rewrite chr_eqb_sym, Hd. simpl. apply IH; assumption.
Qed.

Lemma str_eqb_app co a b : forall u,
  SQL.str_eqb co u (a ++ b) = true ->
  exists x y, u = x ++ y /\ SQL.str_eqb co x a = true.
Proof.
  induction a as [|c a IH]; intros u H.
  - exists EmptyString, u. split; reflexivity.
  - destruct u as [|d u]; [discriminate|]. simpl in H.
    apply andb_true_iff in H as [Hd H]. destruct (IH u H) as [x [y [-> Hx]]].
    exists (String d x), y. split; [reflexivity|]. simpl. rewrite Hd, Hx.
    reflexivity.
Qed.

Lemma rtrim_prefix s : exists t, s = SQL.rtrim s ++ t.
Proof.
  induction s as [|c s [t IH]]; [exists EmptyString; reflexivity|].
  simpl. destruct (SQL.rtrim s) as [|d r].
  - destruct (SQL.is_blank c).
    + exists (String c s). reflexivity.
    + exists s. reflexivity.
  - exists t. simpl in *. rewrite <- IH. reflexivity.
Qed.

Lemma rtrim_ends_nonblank a c :
  SQL.is_blank c = false ->
  SQL.rtrim (a ++ String c EmptyString) = a ++ String c EmptyString.
Proof.
  intro Hc. induction a as [|x a IH]; simpl.
  - rewrite Hc. reflexivity.
  - rewrite IH. destruct a; reflexivity.
Qed.

Lemma upper_not_wild c : JS.is_upper c = true -> negb (is_wild c) = true.
Proof.
  destruct c as [[|] [|] [|] [|] [|] [|] [|] [|]]; vm_compute;
    intro H; first [reflexivity | discriminate H].
Qed.

Lemma numeral_not_wild c :
  numeral_char c = true -> negb (is_wild c) = true.
Proof.
  destruct c as [[|] [|] [|] [|] [|] [|] [|] [|]]; vm_compute;
    intro H; first [reflexivity | discriminate H].
Qed.

Lemma basePattern_literal year assetType :
  JS.forallb (fun c => negb (is_wild c)) (basePattern year assetType) = true.
Proof.
  unfold basePattern. rewrite !forallb_app.
  destruct (pad_upper_two (JS.replace_non_letters assetType)
                          (filter_forallb _ _)) as [_ Hup].
  fold (serial_prefix assetType) in Hup.
  rewrite (forallb_impl _ _ _ upper_not_wild Hup).
  rewrite (forallb_impl _ _ _ numeral_not_wild (toString_numeral year)).
  reflexivity.
Qed.

Lemma app_assoc_str a b c : (a ++ b) ++ c = a ++ (b ++ c).
Proof. induction a as [|x a IH]; [reflexivity|]. simpl. rewrite IH. reflexivity. Qed.

(** A serial equal to the first candidate matches the pattern of the scan. *)
Lemma eq_first_like co year assetType s :
  SQL.eq co s (format_serial (basePattern year assetType) 1) = true ->
  SQL.like co (basePattern year assetType ++ "%") s = true.
Proof.
  unfold SQL.eq, format_serial.
  change (JS.padStart 3 "0" (JS.toString 1)) with ("00" ++ "1").
  rewrite <- app_assoc_str, rtrim_ends_nonblank by reflexivity.
  rewrite app_assoc_str. intro H.
  apply str_eqb_app in H as [x [y [Hs Hx]]].
  destruct (rtrim_prefix s) as [t Ht]. rewrite Ht, Hs, app_assoc_str.
  apply like_prefix; [apply basePattern_literal|exact Hx].
Qed.

Lemma matching_none db pattern :
  matching_serials db pattern = [] ->
  forall x s, In x (Assets db) -> SerialNumber x = Some s ->
    SQL.like (db_collation db) pattern s = false.
Proof.
  unfold matching_serials. induction (Assets db) as [|r rs IH]; intros H x s Hx Hs.
  - destruct Hx.
  - simpl in H. apply app_eq_nil in H as [Hr Hrs].
    destruct Hx as [->|Hx]; [|apply (IH Hrs x s Hx Hs)].
    rewrite Hs in Hr. destruct (SQL.like _ pattern s); [discriminate|reflexivity].
Qed.

(** With no serial matching the prefix and year in the table, the call
    returns number 001 at its first run. *)
Lemma first_serial year db assetType :
  matching_serials db (basePattern year assetType ++ "%") = [] ->
  generateSerialNumber 1 (quiescent year db) 0 assetType
    = Some (Resolved (basePattern year assetType ++ "001")).
Proof.
  intro Hnone. rewrite generateSerialNumber_unfold. unfold quiescent, attempt.
  cbn [view_year at_scan at_check]. unfold select_top_serial.
  rewrite Hnone. cbn [eval_rows top1_desc option_map nextNumber].
  assert (Hcount : count_serial db (format_serial (basePattern year assetType) 1) = 0).
  { apply count_rows_zero. apply not_true_is_false. intro Hex.
    apply existsb_exists in Hex as [x [Hx Heq]].
    destruct (SerialNumber x) as [s|] eqn:Hs; [|discriminate].
    apply eq_first_like in Heq.
    rewrite (matching_none db _ Hnone x s Hx Hs) in Heq. discriminate. }
  rewrite Hcount. reflexivity.
Qed.

(* ================================================================== *)
(** ** Keys and references *)
(* ================================================================== *)

Lemma keys_below_more ids ident : keys_below ids ident -> keys_below ids (ident + 1).
Proof. intros [Hnd Hlt]. split; [exact Hnd|]. intros i Hi. specialize (Hlt i Hi). lia. Qed.

Lemma keys_below_snoc ids ident :
  keys_below ids ident -> keys_below (ids ++ [ident])%list (ident + 1).
Proof.
  intros [Hnd Hlt]. split.
  - apply NoDup_app; [exact Hnd|repeat constructor; intros []|].
    intros i Hi [Heq|[]]. specialize (Hlt i Hi). lia.
  - intros i Hi. apply in_app_or in Hi as [Hi|[<-|[]]]; [specialize (Hlt i Hi)|]; lia.
Qed.

Lemma keys_below_filter {A} (f : A -> Z) (p : A -> bool) rows ident :
  keys_below (List.map f rows) ident ->
  keys_below (List.map f (List.filter p rows)) ident.
Proof.
  intros [Hnd Hlt]. split.
  - induction rows as [|x xs IH]; [constructor|]. simpl in *.
    inversion Hnd as [|? ? Hx Hxs]; subst.
    destruct (p x); [|apply IH; auto]. simpl. constructor; [|apply IH; auto].
    intro Hin. apply Hx. apply in_map_iff in Hin as [y [Hy Hin]].
    apply filter_In in Hin as [Hin _]. rewrite <- Hy. apply in_map, Hin.
  - intros i Hi. apply Hlt. apply in_map_iff in Hi as [y [Hy Hin]].
    apply filter_In in Hin as [Hin _]. rewrite <- Hy. apply in_map, Hin.
Qed.

Lemma map_map_same {A B} (f : A -> B) (g : A -> A) rows :
  (forall x, f (g x) = f x) -> List.map f (List.map g rows) = List.map f rows.
Proof.
  intro H. rewrite List.map_map. apply List.map_ext. exact H.
Qed.

Lemma pairs_snoc {A} (R : A -> A -> Prop) l x :
  ForallOrdPairs R l -> (forall y, In y l -> R y x) -> ForallOrdPairs R (l ++ [x]).
Proof.
  induction 1 as [|y l Hy Hl IH]; intro Hx; simpl.
  - constructor; [constructor|constructor].
  - constructor.
    + apply Forall_app. split; [exact Hy|]. constructor; [|constructor].
      apply Hx. left. reflexivity.
    + apply IH. intros z Hz. apply Hx. right. exact Hz.
Qed.

Lemma pairs_filter {A} (R : A -> A -> Prop) (p : A -> bool) l :
  ForallOrdPairs R l -> ForallOrdPairs R (List.filter p l).
Proof.
  induction 1 as [|y l Hy Hl IH]; simpl; [constructor|].
  destruct (p y); [|exact IH]. constructor; [|exact IH].
  apply Forall_forall. intros z Hz. apply filter_In in Hz as [Hz _].
  rewrite Forall_forall in Hy. apply Hy, Hz.
Qed.

Lemma pairs_map {A} (R : A -> A -> Prop) (g : A -> A) l :
  (forall x y, R x y -> R (g x) (g y)) ->
  ForallOrdPairs R l -> ForallOrdPairs R (List.map g l).
Proof.
  intro Hg. induction 1 as [|y l Hy Hl IH]; simpl; constructor; [|exact IH].
  apply Forall_forall. intros z Hz. apply in_map_iff in Hz as [w [<- Hw]].
  rewrite Forall_forall in Hy. apply Hg, Hy, Hw.
Qed.

Lemma asset_exists_ids db a :
  asset_exists db a = true <-> In a (List.map AssetId (Assets db)).
Proof.
  unfold asset_exists. rewrite existsb_exists, in_map_iff. split.
  - intros [x [Hx Hid]]. apply Z.eqb_eq in Hid. exists x. auto.
  - intros [x [Hid Hx]]. exists x. split; [exact Hx|]. apply Z.eqb_eq, Hid.
Qed.

Lemma employee_exists_ids db e :
  employee_exists db e = true <-> In e (List.map EmployeeId (Employees db)).
Proof.
  unfold employee_exists. rewrite existsb_exists, in_map_iff. split.
  - intros [x [Hx Hid]]. apply Z.eqb_eq in Hid. exists x. auto.
  - intros [x [Hid Hx]]. exists x. split; [exact Hx|]. apply Z.eqb_eq, Hid.
Qed.

(** The references of rows that refer to the same assets and employees
    stay good while no asset and no employee disappears. *)
Lemma references_kept db db' :
  (forall r', In r' (AssetAssignments db') ->
     exists r, In r (AssetAssignments db) /\
               aa_AssetId r' = aa_AssetId r /\ aa_EmployeeId r' = aa_EmployeeId r) ->
  (forall a, In a (List.map AssetId (Assets db)) ->
             In a (List.map AssetId (Assets db'))) ->
  (forall e, In e (List.map EmployeeId (Employees db)) ->
             In e (List.map EmployeeId (Employees db'))) ->
  references_exist db -> references_exist db'.
Proof.
  intros Hrows Ha He Href r' Hr'. destruct (Hrows r' Hr') as [r [Hr [-> ->]]].
  destruct (Href r Hr) as [H1 H2]. split.
  - apply asset_exists_ids, Ha, asset_exists_ids, H1.
  - apply employee_exists_ids, He, employee_exists_ids, H2.
Qed.

Lemma same_rows_refer db db' :
  AssetAssignments db' = AssetAssignments db ->
  forall r', In r' (AssetAssignments db') ->
    exists r, In r (AssetAssignments db) /\
              aa_AssetId r' = aa_AssetId r /\ aa_EmployeeId r' = aa_EmployeeId r.
Proof. intros -> r Hr. exists r. auto. Qed.

Lemma insert_AssetAssignments_integrity db a e t r :
  integrity db -> integrity (fst (insert_AssetAssignments db a e t r)).
Proof.
  intros [He Ha Hk Hf Hm Hs]. unfold insert_AssetAssignments.
  destruct (negb (CK_ReturnedAfterAssigned _));
    [constructor; try assumption; apply keys_below_more, Hk|].
  destruct (is_active _ && existsb _ _)%bool;
    [constructor; try assumption; apply keys_below_more, Hk|].
  destruct (asset_exists db a && employee_exists db e)%bool eqn:Hfk; simpl;
    [|constructor; try assumption; apply keys_below_more, Hk].
  apply andb_true_iff in Hfk as [Hfa Hfe].
  constructor; try assumption; simpl.
  - rewrite List.map_app. apply keys_below_snoc, Hk.
  - intros x Hx. simpl in Hx. apply in_app_or in Hx as [Hx|[<-|[]]].
    + apply Hf, Hx.
    + split; assumption.
Qed.

Lemma update_ReturnedAt_integrity db id now :
  integrity db -> integrity (fst (fst (update_ReturnedAt db id now))).
Proof.
  intros [He Ha Hk Hf Hm Hs]. unfold update_ReturnedAt.
  destruct (forallb _ _); simpl; [|constructor; assumption].
  constructor; try assumption; simpl.
  - rewrite map_map_same; [exact Hk|].
    intro x. unfold set_returned. destruct (active_with_id id x); reflexivity.
  - eapply references_kept; [| | |exact Hf]; simpl; auto.
    intros r' Hr'. apply in_map_iff in Hr' as [x [<- Hx]]. exists x.
    unfold set_returned. destruct (active_with_id id x); auto.
Qed.

Lemma update_AssetAssignments_integrity db id x y :
  integrity db -> integrity (fst (update_AssetAssignments db id x y)).
Proof.
  intros [He Ha Hk Hf Hm Hs]. unfold update_AssetAssignments.
  destruct (negb (existsb _ _)); simpl; [constructor; assumption|].
  destruct (negb (forallb _ _)); simpl; [constructor; assumption|].
  destruct (negb (no_duplicate_key _)); simpl; [constructor; assumption|].
  constructor; try assumption; simpl.
  - rewrite map_map_same; [exact Hk|].
    intro r. unfold edit_row. destruct (AssignmentId r =? id); reflexivity.
  - eapply references_kept; [| | |exact Hf]; simpl; auto.
    intros r' Hr'. apply in_map_iff in Hr' as [r [<- Hr]]. exists r.
    unfold edit_row. destruct (AssignmentId r =? id); auto.
Qed.

Lemma delete_AssetAssignments_integrity db a :
  integrity db -> integrity (delete_AssetAssignments db a).
Proof.
  intros [He Ha Hk Hf Hm Hs]. constructor; try assumption; simpl.
  - apply keys_below_filter, Hk.
  - eapply references_kept; [| | |exact Hf]; simpl; auto.
    intros r' Hr'. apply filter_In in Hr' as [Hr' _]. exists r'. auto.
Qed.

Lemma delete_Assets_integrity db a :
  integrity db -> integrity (fst (fst (delete_Assets db a))).
Proof.
  intros [He Ha Hk Hf Hm Hs]. unfold delete_Assets.
  destruct (existsb _ (Assets db) && existsb _ (AssetAssignments db))%bool eqn:Hfk;
    simpl; [constructor; assumption|].
  constructor; try assumption; simpl.
  - apply keys_below_filter, Ha.
  - intros r Hr. simpl in Hr. destruct (Hf r Hr) as [H1 H2]. split; [|exact H2].
    unfold asset_exists in *. simpl. apply existsb_exists in H1 as [x [Hx Hid]].
    apply existsb_exists. exists x. split; [|exact Hid].
    apply filter_In. split; [exact Hx|].
    apply Z.eqb_eq in Hid. apply negb_true_iff, Z.eqb_neq. intro Hxa.
    apply andb_false_iff in Hfk as [Hno|Hno].
    + assert (Hyes : existsb (fun x0 : Asset => AssetId x0 =? a) (Assets db) = true).
      { apply existsb_exists. exists x. split; [exact Hx|]. apply Z.eqb_eq, Hxa. }
      congruence.
    + assert (Hyes : existsb (fun r0 => aa_AssetId r0 =? a) (AssetAssignments db) = true).
      { apply existsb_exists. exists r. split; [exact Hr|]. apply Z.eqb_eq. congruence. }
      congruence.
  - apply pairs_filter, Hs.
Qed.

Lemma insert_Assets_integrity db now n t s :
  integrity db -> integrity (fst (insert_Assets db now n t s)).
Proof.
  intros [He Ha Hk Hf Hm Hs]. unfold insert_Assets.
  destruct (_ || _)%bool; simpl;
    [constructor; try assumption; apply keys_below_more, Ha|].
  destruct (existsb _ _) eqn:Hdup; simpl;
    [constructor; try assumption; apply keys_below_more, Ha|].
  constructor; try assumption; simpl.
  - rewrite List.map_app. apply keys_below_snoc, Ha.
  - eapply references_kept; [| | |exact Hf]; simpl; auto.
    + intros r Hr. exists r. auto.
    + intros a Hin. rewrite List.map_app. apply in_or_app. left. exact Hin.
  - apply pairs_snoc; [exact Hs|]. intros y Hy.
    destruct (serial_eq _ (SerialNumber y) _) eqn:E; [|reflexivity].
    assert (existsb (fun x => serial_eq (db_collation db) (SerialNumber x) (Some s))
                    (Assets db) = true); [|congruence].
    apply existsb_exists. exists y. split; assumption.
Qed.

Lemma insert_Employees_integrity db now n e p :
  integrity db -> integrity (fst (insert_Employees db now n e p)).
Proof.
  intros [He Ha Hk Hf Hm Hs]. unfold insert_Employees.
  destruct (existsb _ _) eqn:Hdup; simpl;
    [constructor; try assumption; apply keys_below_more, He|].
  constructor; try assumption; simpl.
  - rewrite List.map_app. apply keys_below_snoc, He.
  - eapply references_kept; [| | |exact Hf]; simpl; auto.
    + intros r Hr. exists r. auto.
    + intros a Hin. rewrite List.map_app. apply in_or_app. left. exact Hin.
  - apply pairs_snoc; [exact Hm|]. intros y Hy.
    destruct (SQL.eq _ (Email y) _) eqn:E; [|reflexivity].
    assert (existsb (fun x => SQL.eq (db_collation db) (Email x) e)
                    (Employees db) = true); [|congruence].
    apply existsb_exists. exists y. split; assumption.
Qed.

Lemma exec_integrity db s : integrity db -> integrity (exec db s).
Proof.
  intro H. destruct s; simpl.
  - apply insert_AssetAssignments_integrity, H.
  - apply update_ReturnedAt_integrity, H.
  - apply update_AssetAssignments_integrity, H.
  - apply delete_AssetAssignments_integrity, H.
  - apply delete_Assets_integrity, H.
  - apply insert_Assets_integrity, H.
  - apply insert_Employees_integrity, H.
Qed.

(** What every statement keeps, every operation of the ledger keeps. *)
Lemma run_keeps (P : DB -> Prop) msg db o :
  (forall d s, P d -> P (exec d s)) -> P db -> P (run msg db o).
Proof.
  intros Hexec H. destruct o; unfold run.
  - rewrite post_assignments_db, sp_AssignAsset_db.
    destruct (existsb _ _); [exact H|apply Hexec, H].
  - rewrite post_return_db, sp_ReturnAsset_db. apply Hexec, H.
  - rewrite delete_asset_db.
    destruct (0 <? _); [exact H|]. do 2 apply Hexec. exact H.
  - apply Hexec, H.
Qed.

Lemma set_name_type_keeps a n t x :
  AssetId (set_name_type a n t x) = AssetId x /\
  SerialNumber (set_name_type a n t x) = SerialNumber x.
Proof. unfold set_name_type. destruct (AssetId x =? a); split; reflexivity. Qed.

Lemma set_type_keeps db o n x :
  AssetId (set_type db o n x) = AssetId x /\
  SerialNumber (set_type db o n x) = SerialNumber x /\
  AssetName (set_type db o n x) = AssetName x.
Proof. unfold set_type. destruct (has_type db o x); repeat split; reflexivity. Qed.

(** A rewrite of the assets that keeps their ids and serials keeps the
    integrity of the database. *)
Lemma rewrite_assets_integrity db (g : Asset -> Asset) :
  (forall x, AssetId (g x) = AssetId x) ->
  (forall x, SerialNumber (g x) = SerialNumber x) ->
  integrity db ->
  integrity (with_Assets db (List.map g (Assets db)) (ident_Assets db)).
Proof.
  intros Hid Hserial [He Ha Hk Hf Hm Hs]. constructor; try assumption; simpl.
  - rewrite map_map_same by exact Hid. exact Ha.
  - eapply references_kept; [| | |exact Hf]; simpl; auto.
    + intros r Hr. exists r. auto.
    + intros a Hin. rewrite map_map_same by exact Hid. exact Hin.
  - unfold distinct_serials in *. simpl. apply pairs_map; [|exact Hs].
    intros x y Hxy. rewrite !Hserial. exact Hxy.
Qed.

Lemma update_Assets_integrity db a n t :
  integrity db -> integrity (fst (update_Assets db a n t)).
Proof.
  intro H. unfold update_Assets. destruct (_ && _)%bool; simpl; [exact H|].
  apply rewrite_assets_integrity; [| |exact H]; intro x; apply set_name_type_keeps.
Qed.

Lemma update_AssetType_integrity db o n :
  integrity db -> integrity (fst (fst (update_AssetType db o n))).
Proof.
  intro H. unfold update_AssetType. destruct (_ && _)%bool; simpl; [exact H|].
  apply rewrite_assets_integrity; [| |exact H]; intro x; apply set_type_keeps.
Qed.

Lemma put_asset_db msg db a n t :
  fst (put_asset msg db a n t) = db \/
  fst (put_asset msg db a n t) = fst (update_Assets db a n t).
Proof.
  unfold put_asset. destruct (_ || _)%bool; [left; reflexivity|]. right.
  destruct (update_Assets db a n t) as [db' [[|row rows]|err]]; reflexivity.
Qed.

Lemma put_asset_types_rename_db msg db o n :
  fst (put_asset_types_rename msg db o n) = db \/
  fst (put_asset_types_rename msg db o n) = fst (fst (update_AssetType db o n)).
Proof.
  unfold put_asset_types_rename. destruct (_ || _)%bool; [left; reflexivity|].
  destruct (String.eqb o n); [left; reflexivity|].
  destruct (0 <? _); [left; reflexivity|]. right.
  destruct (update_AssetType db o n) as [[db' k] [err|]]; reflexivity.
Qed.

Lemma draw_EmployeeId_integrity db : integrity db -> integrity (draw_EmployeeId db).
Proof.
  intros [He Ha Hk Hf Hm Hs]. constructor; try assumption.
  apply keys_below_more, He.
Qed.

Lemma post_employees_db msg nul db now n e p :
  fst (post_employees msg nul db now n e p) = draw_EmployeeId db \/
  exists n' e' p',
    fst (post_employees msg nul db now n e p) = fst (insert_Employees db now n' e' p').
Proof.
  unfold post_employees. destruct n as [n|]; [|left; reflexivity].
  destruct e as [e|]; [|left; reflexivity].
  destruct (_ || _)%bool; [left; reflexivity|]. right.
  match goal with
  | |- context [insert_Employees db now n e ?q] => exists n, e, q;
      destruct (insert_Employees db now n e q) as [db' [err|]]; reflexivity
  end.
Qed.

Lemma post_assets_db msg fuel year now db n t db' resp :
  post_assets msg fuel year now db n t = Some (db', resp) ->
  db' = db \/ exists s, db' = fst (insert_Assets db now n t s).
Proof.
  unfold post_assets. destruct (_ || _)%bool; [intros [= <- _]; left; reflexivity|].
  destruct (generateSerialNumber _ _ _ _) as [[s|err]|]; [| |discriminate].
  - intro H. right. exists s.
    destruct (insert_Assets db now n t s) as [d [row|err]];
      injection H as <- _; reflexivity.
  - intros [= <- _]. left. reflexivity.
Qed.

(** What every statement and every rewrite of the tables [Assets] and
    [Employees] keeps, every request keeps. *)
Lemma serve_keeps (P : DB -> Prop) cfg db r :
  (forall d s, P d -> P (exec d s)) ->
  (forall d a n t, P d -> P (fst (update_Assets d a n t))) ->
  (forall d o n, P d -> P (fst (fst (update_AssetType d o n)))) ->
  (forall d, P d -> P (draw_EmployeeId d)) ->
  P db -> P (serve cfg db r).
Proof.
  intros Hexec Hput Hrename Hdraw H. destruct r; unfold serve.
  - apply run_keeps; assumption.
  - destruct (post_employees_db (err_text cfg) (null_text cfg) db now
                                fullName email position) as [->|[n [e [p ->]]]].
    + apply Hdraw, H.
    + apply (Hexec db (InsertEmployee now n e p)), H.
  - destruct (post_assets _ _ _ _ _ _ _) as [[db' resp]|] eqn:E; [|exact H].
    apply post_assets_db in E as [->|[s ->]]; [exact H|].
    apply (Hexec db (InsertAsset now assetName assetType s)), H.
  - destruct (put_asset_db (err_text cfg) db assetId assetName assetType) as [->| ->];
      [exact H|apply Hput, H].
  - destruct (put_asset_types_rename_db (err_text cfg) db oldType newType) as [->| ->];
      [exact H|apply Hrename, H].
Qed.

Lemma serve_all_keeps (P : DB -> Prop) cfg rs :
  (forall d s, P d -> P (exec d s)) ->
  (forall d a n t, P d -> P (fst (update_Assets d a n t))) ->
  (forall d o n, P d -> P (fst (fst (update_AssetType d o n)))) ->
  (forall d, P d -> P (draw_EmployeeId d)) ->
  forall db, P db -> P (serve_all cfg db rs).
Proof.
  intros Hexec Hput Hrename Hdraw. unfold serve_all.
  induction rs as [|r rs IH]; intros db H; simpl; [exact H|].
  apply IH, serve_keeps; assumption.
Qed.

Lemma empty_db_integrity co : integrity (empty_db co).
Proof.
  constructor; simpl.
  - split; [constructor|intros i []].
  - split; [constructor|intros i []].
  - split; [constructor|intros i []].
  - intros x [].
  - constructor.
  - constructor.
Qed.

Lemma serve_all_integrity cfg co rs : integrity (serve_all cfg (empty_db co) rs).
Proof.
  apply serve_all_keeps.
  - apply exec_integrity.
  - intros d a n t. apply update_Assets_integrity.
  - intros d o n. apply update_AssetType_integrity.
  - apply draw_EmployeeId_integrity.
  - apply empty_db_integrity.
Qed.

Lemma update_Assets_rows db a n t :
  AssetAssignments (fst (update_Assets db a n t)) = AssetAssignments db.
Proof. unfold update_Assets. destruct (_ && _)%bool; reflexivity. Qed.

Lemma update_AssetType_rows db o n :
  AssetAssignments (fst (fst (update_AssetType db o n))) = AssetAssignments db.
Proof. unfold update_AssetType. destruct (_ && _)%bool; reflexivity. Qed.

Lemma serve_all_ledger cfg co rs : ledger_ok (serve_all cfg (empty_db co) rs).
Proof.
  apply serve_all_keeps.
  - apply exec_ok.
  - intros d a n t. apply ledger_ok_same_rows, update_Assets_rows.
  - intros d o n. apply ledger_ok_same_rows, update_AssetType_rows.
  - intros d. apply ledger_ok_same_rows. reflexivity.
  - apply empty_db_ok.
Qed.

(* ================================================================== *)
(** ** Every state the requests reach *)
(* ================================================================== *)

(** X1.  In every state reached from the empty database by any sequence of
    requests and single statements, every assignment refers to an asset and
    to an employee that are in their tables, the ids of each table are
    pairwise distinct, and the next identity value of [AssetAssignments],
    [Assets] and [Employees] is above every id in use, so that an id is
    never given twice (also not after a DELETE). *)
Theorem references_and_keys_hold cfg co rs :
  let db := serve_all cfg (empty_db co) rs in
  (forall r, In r (AssetAssignments db) ->
     exists a e,
       In a (Assets db) /\ AssetId a = aa_AssetId r /\
       In e (Employees db) /\ EmployeeId e = aa_EmployeeId r) /\
  NoDup (List.map AssignmentId (AssetAssignments db)) /\
  NoDup (List.map AssetId (Assets db)) /\
  NoDup (List.map EmployeeId (Employees db)) /\
  (forall r, In r (AssetAssignments db) -> AssignmentId r < ident_AssetAssignments db) /\
  (forall a, In a (Assets db) -> AssetId a < ident_Assets db) /\
  (forall e, In e (Employees db) -> EmployeeId e < ident_Employees db).
Proof.
  intro db. destruct (serve_all_integrity cfg co rs) as [He Ha Hk Hf _ _].
  fold db in He, Ha, Hk, Hf. destruct He as [He1 He2], Ha as [Ha1 Ha2], Hk as [Hk1 Hk2].
  repeat split; try assumption.
  - intros r Hr. destruct (Hf r Hr) as [H1 H2].
    apply existsb_exists in H1 as [a [Ha Hida]].
    apply existsb_exists in H2 as [e [He Hide]].
    apply Z.eqb_eq in Hida, Hide. exists a, e. auto.
  - intros r Hr. apply Hk2, in_map, Hr.
  - intros a Hin. apply Ha2, in_map, Hin.
  - intros e Hin. apply He2, in_map, Hin.
Qed.

Lemma str_eqb_sym co a : forall b, SQL.str_eqb co a b = SQL.str_eqb co b a.
Proof.
  induction a as [|x a IH]; intros [|y b]; simpl; try reflexivity.
  rewrite chr_eqb_sym, IH. reflexivity.
Qed.

Lemma sql_eq_sym co a b : SQL.eq co a b = SQL.eq co b a.
Proof. unfold SQL.eq. apply str_eqb_sym. Qed.

Lemma serial_eq_sym co x y : serial_eq co x y = serial_eq co y x.
Proof. destruct x, y; simpl; trivial. apply sql_eq_sym. Qed.

Lemma pairs_distinct {A} (R : A -> A -> Prop) (f : A -> Z) l x y :
  (forall u v, R u v -> R v u) ->
  ForallOrdPairs R l -> In x l -> In y l -> f x <> f y -> R x y.
Proof.
  intros Hsym Hl Hx Hy Hne.
  destruct (ForallOrdPairs_In Hl x y Hx Hy) as [->|[H|H]];
    [congruence|exact H|apply Hsym, H].
Qed.

(** X2.  In every reachable state no two employees have the same email and
    no two assets the same serial number, where "the same" is the equality
    of the server's collation, which ignores trailing blanks (and case, when
    the collation does). *)
Theorem emails_and_serials_unique cfg co rs :
  let db := serve_all cfg (empty_db co) rs in
  (forall x y, In x (Employees db) -> In y (Employees db) ->
     EmployeeId x <> EmployeeId y ->
     SQL.eq (db_collation db) (Email x) (Email y) = false) /\
  (forall x y, In x (Assets db) -> In y (Assets db) ->
     AssetId x <> AssetId y ->
     serial_eq (db_collation db) (SerialNumber x) (SerialNumber y) = false).
Proof.
  intro db. destruct (serve_all_integrity cfg co rs) as [_ _ _ _ Hm Hs].
  fold db in Hm, Hs. split; intros x y Hx Hy Hne.
  - apply (pairs_distinct
             (fun u v => SQL.eq (db_collation db) (Email u) (Email v) = false)
             EmployeeId (Employees db)); try assumption.
    intros u v H. rewrite sql_eq_sym. exact H.
  - apply (pairs_distinct
             (fun u v => serial_eq (db_collation db) (SerialNumber u)
                                   (SerialNumber v) = false)
             AssetId (Assets db)); try assumption.
    intros u v H. rewrite serial_eq_sym. exact H.
Qed.

Example sample_requests_db :
  serve_all sample_settings (empty_db CaseInsensitive) sample_requests = sample_db /\
  List.map SerialNumber
    (Assets (serve_all sample_settings (empty_db CaseInsensitive) two_laptops))
    = [Some "LA-2025-001"; Some "LA-2025-002"].
Proof. split; reflexivity. Qed.

Lemma emails_and_serials_unique_witness :
  SQL.eq CaseInsensitive "john@company.com" "sarah@company.com" = false /\
  serial_eq CaseInsensitive (Some "LA-2025-001") (Some "LA-2025-002") = false.
Proof.
  split.
  - apply (proj1 (emails_and_serials_unique sample_settings CaseInsensitive
                    sample_requests)
             (mkEmployee 1 "John Smith" "john@company.com" None 0)
             (mkEmployee 2 "Sarah Johnson" "sarah@company.com" None 0)).
    + left. reflexivity.
    + right. left. reflexivity.
    + discriminate.
  - apply (proj2 (emails_and_serials_unique sample_settings CaseInsensitive
                    two_laptops)
             (mkAsset 1 "ThinkPad T14" "Laptop" (Some "LA-2025-001") 10)
             (mkAsset 2 "ThinkPad X1" "Laptop" (Some "LA-2025-002") 20)).
    + left. reflexivity.
    + right. left. reflexivity.
    + discriminate.
Defined.

(* ================================================================== *)
(** ** The read procedures and queries *)
(* ================================================================== *)

Lemma insert_desc_perm {A} (key : A -> Z) x l :
  Permutation (insert_desc key x l) (x :: l).
Proof.
  induction l as [|y l IH]; simpl; [reflexivity|].
  destruct (key x <? key y); [|reflexivity].
  rewrite IH. apply perm_swap.
Qed.

Lemma order_by_desc_perm {A} (key : A -> Z) l :
  Permutation (order_by_desc key l) l.
Proof.
  induction l as [|x l IH]; simpl; [reflexivity|].
  rewrite insert_desc_perm. constructor. exact IH.
Qed.

Lemma insert_desc_sorted {A} (key : A -> Z) x l :
  descending key l -> descending key (insert_desc key x l).
Proof.
  unfold descending. induction 1 as [|y l Hl IH Hy]; simpl.
  - repeat constructor.
  - destruct (key x <? key y) eqn:E.
    + constructor; [exact IH|].
      apply Forall_forall. intros z Hz.
      apply (Permutation_in _ (insert_desc_perm key x l)) in Hz.
      destruct Hz as [<-|Hz]; [apply Z.ltb_lt in E; lia|].
      rewrite Forall_forall in Hy. apply Hy, Hz.
    + apply Z.ltb_ge in E. constructor; [constructor; assumption|].
      constructor; [exact E|].
      rewrite Forall_forall in *. intros z Hz. specialize (Hy z Hz). lia.
Qed.

Lemma order_by_desc_sorted {A} (key : A -> Z) l : descending key (order_by_desc key l).
Proof.
  induction l as [|x l IH]; simpl; [constructor|].
  apply insert_desc_sorted, IH.
Qed.

Lemma insert_desc_map {A B} (f : A -> B) (key : B -> Z) x l :
  insert_desc key (f x) (List.map f l)
    = List.map f (insert_desc (fun a => key (f a)) x l).
Proof.
  induction l as [|y l IH]; simpl; [reflexivity|].
  destruct (key (f x) <? key (f y)); simpl; [rewrite IH|]; reflexivity.
Qed.

Lemma order_by_desc_map {A B} (f : A -> B) (key : B -> Z) l :
  order_by_desc key (List.map f l)
    = List.map f (order_by_desc (fun a => key (f a)) l).
Proof.
  induction l as [|x l IH]; simpl; [reflexivity|].
  rewrite IH. apply insert_desc_map.
Qed.

Lemma flat_map_map {A B C} (f : A -> list B) (g : B -> C) l :
  List.map g (List.flat_map f l) = List.flat_map (fun x => List.map g (f x)) l.
Proof.
  induction l as [|x l IH]; simpl; [reflexivity|].
  rewrite List.map_app, IH. reflexivity.
Qed.

Lemma flat_map_same {A B} (f g : A -> list B) l :
  (forall x, In x l -> f x = g x) -> List.flat_map f l = List.flat_map g l.
Proof.
  induction l as [|x l IH]; intro H; simpl; [reflexivity|].
  rewrite H, IH; auto using in_eq, in_cons.
Qed.

Lemma flat_map_single {A B} (g : A -> B) l :
  List.flat_map (fun x => [g x]) l = List.map g l.
Proof. induction l as [|x l IH]; simpl; [|rewrite IH]; reflexivity. Qed.

(** X3.  The record set of [sp_GetActiveAssignments] holds the rows of
    the record set of the query of [GET /api/assignments/active], with fewer
    columns: the same assignments, as many times (a permutation), for every
    database; and both are in descending order of [AssignedAt].  (The order
    of two rows with the same [AssignedAt] is left open by both
    statements.) *)
Theorem active_procedure_agrees_with_query db :
  Permutation (sp_GetActiveAssignments db)
              (List.map summary_of (get_active_assignments db)) /\
  descending s_AssignedAt (sp_GetActiveAssignments db) /\
  descending (fun r => AssignedAt (act_assignment r)) (get_active_assignments db).
Proof.
  split; [|split].
  - unfold sp_GetActiveAssignments, get_active_assignments.
    rewrite !order_by_desc_perm.
    rewrite flat_map_map.
    erewrite flat_map_same; [reflexivity|]. intros aa _. cbv beta.
    rewrite flat_map_map. apply flat_map_same. intros a _.
    rewrite List.map_map. reflexivity.
  - apply order_by_desc_sorted.
  - apply order_by_desc_sorted.
Qed.

(** A key that occurs once in a table is found by a JOIN exactly once. *)
Lemma join_single {A} (f : A -> Z) l k :
  NoDup (List.map f l) -> In k (List.map f l) ->
  exists x, List.find (fun y => k =? f y) l = Some x /\ f x = k /\ In x l /\
            List.filter (fun y => k =? f y) l = [x].
Proof.
  induction l as [|a l IH]; intros Hnd Hk; [destruct Hk|].
  simpl in *. inversion Hnd as [|? ? Ha Hl]; subst.
  destruct (Z.eqb_spec k (f a)) as [->|Hne].
  - exists a. repeat split; auto. f_equal.
    apply filter_none. apply not_true_is_false. intro Hex.
    apply existsb_exists in Hex as [y [Hy Hfy]]. apply Z.eqb_eq in Hfy.
    apply Ha. rewrite Hfy. apply in_map, Hy.
  - destruct Hk as [Hk|Hk]; [congruence|].
    destruct (IH Hl Hk) as [x (Hfind & Hfx & Hx & Hfilter)].
    exists x. repeat split; auto.
Qed.

Lemma join_assets db r :
  integrity db -> In r (AssetAssignments db) ->
  exists a, the_asset db (aa_AssetId r) = Some a /\ AssetId a = aa_AssetId r /\
            List.filter (fun x => aa_AssetId r =? AssetId x) (Assets db) = [a].
Proof.
  intros [_ [Ha _] _ Hf _ _] Hr. destruct (Hf r Hr) as [H1 _].
  apply asset_exists_ids in H1.
  destruct (join_single AssetId (Assets db) _ Ha H1) as [a (H2 & H3 & _ & H4)].
  exists a. auto.
Qed.

Lemma join_employees db r :
  integrity db -> In r (AssetAssignments db) ->
  exists e, the_employee db (aa_EmployeeId r) = Some e /\
            EmployeeId e = aa_EmployeeId r /\
            List.filter (fun x => aa_EmployeeId r =? EmployeeId x) (Employees db) = [e].
Proof.
  intros [[He _] _ _ Hf _ _] Hr. destruct (Hf r Hr) as [_ H1].
  apply employee_exists_ids in H1.
  destruct (join_single EmployeeId (Employees db) _ He H1) as [e (H2 & H3 & _ & H4)].
  exists e. auto.
Qed.

Lemma filter_length_perm {A} (p : A -> bool) l l' :
  Permutation l l' ->
  List.length (List.filter p l) = List.length (List.filter p l').
Proof.
  induction 1 as [|x l l' _ IH|x y l|l l' l'' _ IH1 _ IH2]; simpl.
  - reflexivity.
  - destruct (p x); simpl; congruence.
  - destruct (p x), (p y); reflexivity.
  - congruence.
Qed.

Lemma filter_filter_and {A} (p q : A -> bool) l :
  List.filter p (List.filter q l) = List.filter (fun x => (q x && p x)%bool) l.
Proof.
  induction l as [|x l IH]; simpl; [reflexivity|].
  destruct (q x); simpl; [destruct (p x)|]; rewrite ?IH; reflexivity.
Qed.

Lemma filter_map_filter {A B} (f : A -> B) (p : B -> bool) l :
  List.filter p (List.map f l) = List.map f (List.filter (fun x => p (f x)) l).
Proof.
  induction l as [|x l IH]; simpl; [reflexivity|].
  destruct (p (f x)); simpl; rewrite IH; reflexivity.
Qed.

(** With the keys in place, the JOIN of the history finds one employee for
    each assignment. *)
Lemma history_join db a :
  integrity db ->
  List.flat_map
    (fun aa =>
       List.map
         (fun e => mkHistory (AssignmentId aa) (FullName e) (AssignedAt aa) (ReturnedAt aa))
         (List.filter (fun e => aa_EmployeeId aa =? EmployeeId e) (Employees db)))
    (List.filter (fun aa => aa_AssetId aa =? a) (AssetAssignments db))
  = List.map (history_of db)
      (List.filter (fun aa => aa_AssetId aa =? a) (AssetAssignments db)).
Proof.
  intro Hi. rewrite <- flat_map_single. apply flat_map_same. intros aa Haa.
  apply filter_In in Haa as [Haa _].
  destruct (join_employees db aa Hi Haa) as [e (Hfind & _ & ->)].
  unfold history_of, employee_name. rewrite Hfind. reflexivity.
Qed.

(** X4.  In every reachable state the history of an asset lists each
    assignment of the asset exactly once, with the name of the employee it
    refers to, most recent first; at most one of its entries has no return
    time. *)
Theorem history_complete_and_ordered cfg co rs assetId :
  let db := serve_all cfg (empty_db co) rs in
  let assignments :=
    List.filter (fun aa => aa_AssetId aa =? assetId) (AssetAssignments db) in
  let history := sp_GetAssetHistory db assetId in
  Permutation history (List.map (history_of db) assignments) /\
  Permutation (List.map h_AssignmentId history) (List.map AssignmentId assignments) /\
  descending h_AssignedAt history /\
  (List.length (List.filter still_open history) <= 1)%nat.
Proof.
  intros db assignments history.
  pose proof (serve_all_integrity cfg co rs) as Hi. fold db in Hi.
  destruct (serve_all_ledger cfg co rs) as [Huq _]. fold db in Huq.
  assert (Hperm : Permutation history (List.map (history_of db) assignments)).
  { unfold history, sp_GetAssetHistory. rewrite order_by_desc_perm.
    rewrite (history_join db assetId Hi). reflexivity. }
  split; [exact Hperm|]. split; [|split].
  - rewrite Hperm, List.map_map. reflexivity.
  - apply order_by_desc_sorted.
  - rewrite (filter_length_perm _ _ _ Hperm), filter_map_filter, List.length_map.
    unfold assignments. rewrite filter_filter_and.
    specialize (Huq assetId). unfold count_rows in Huq.
    assert (Hsame : List.filter
                      (fun x => ((aa_AssetId x =? assetId)
                                 && still_open (history_of db x))%bool)
                      (AssetAssignments db)
                    = List.filter (active_for assetId) (AssetAssignments db)).
    { apply List.filter_ext. intro x. reflexivity. }
    rewrite Hsame. lia.
Qed.

Lemma active_in_index a rows :
  existsb (active_for a) rows = true <-> In a (index_keys rows).
Proof.
  unfold index_keys. rewrite existsb_exists, in_map_iff. split.
  - intros [r [Hr Hact]]. unfold active_for in Hact.
    apply andb_true_iff in Hact as [Hid Hact]. apply Z.eqb_eq in Hid.
    exists r. split; [exact Hid|]. apply filter_In. auto.
  - intros [r [Hid Hr]]. apply filter_In in Hr as [Hr Hact]. exists r.
    split; [exact Hr|]. unfold active_for. rewrite Hact, Hid, Z.eqb_refl. reflexivity.
Qed.

Lemma count_in_keys a keys : In a keys -> 0 < count_rows (Z.eqb a) keys.
Proof.
  intro H. apply count_rows_pos, existsb_exists. exists a.
  split; [exact H|apply Z.eqb_refl].
Qed.

Lemma index_nodup db : one_active_per_asset db -> NoDup (index_keys (AssetAssignments db)).
Proof.
  intro Huq.
  assert (H : forall a, count_rows (Z.eqb a) (index_keys (AssetAssignments db)) <= 1).
  { intro a. rewrite <- count_key_index. apply Huq. }
  induction (index_keys (AssetAssignments db)) as [|k ks IH]; [constructor|].
  constructor.
  - intro Hin. specialize (H k). rewrite count_rows_cons, Z.eqb_refl in H.
    apply count_in_keys in Hin. lia.
  - apply IH. intro a. specialize (H a). rewrite count_rows_cons in H.
    destruct (a =? k); lia.
Qed.

Lemma flat_map_singletons {A B C} (f : A -> list B) (g : B -> C) (h : A -> C) l :
  (forall x, In x l -> exists y, f x = [y] /\ g y = h x) ->
  List.map g (List.flat_map f l) = List.map h l.
Proof.
  induction l as [|x l IH]; intro H; simpl; [reflexivity|].
  destruct (H x (in_eq _ _)) as [y [-> Hy]]. simpl.
  rewrite Hy, IH; [reflexivity|]. intros z Hz. apply H, in_cons, Hz.
Qed.

(** With the keys in place, the JOINs of the list of active assignments
    find one asset and one employee for each active assignment. *)
Lemma active_join db :
  integrity db ->
  Permutation
    (List.map (fun r => aa_AssetId (act_assignment r)) (get_active_assignments db))
    (index_keys (AssetAssignments db)).
Proof.
  intro Hi. unfold get_active_assignments. rewrite order_by_desc_perm.
  unfold index_keys. erewrite flat_map_singletons; [reflexivity|].
  intros aa Haa. apply filter_In in Haa as [Haa _].
  destruct (join_assets db aa Hi Haa) as [a (_ & _ & ->)].
  destruct (join_employees db aa Hi Haa) as [e (_ & _ & ->)].
  simpl. eexists. split; reflexivity.
Qed.

Lemma unavailable_assets db :
  integrity db -> one_active_per_asset db ->
  Permutation
    (List.map AssetId
       (List.filter (fun x => existsb (active_for (AssetId x)) (AssetAssignments db))
                    (Assets db)))
    (index_keys (AssetAssignments db)).
Proof.
  intros Hi Huq. destruct Hi as [_ [Ha _] _ Hf _ _].
  apply NoDup_Permutation.
  - clear -Ha. induction (Assets db) as [|x xs IH]; [constructor|].
    simpl in *. inversion Ha as [|? ? Hx Hxs]; subst.
    destruct (existsb _ _); [|apply IH, Hxs]. simpl. constructor; [|apply IH, Hxs].
    intro Hin. apply Hx. apply in_map_iff in Hin as [y [Hy Hin]].
    apply filter_In in Hin as [Hin _]. rewrite <- Hy. apply in_map, Hin.
  - apply index_nodup, Huq.
  - intro a. rewrite in_map_iff. split.
    + intros [x [<- Hx]]. apply filter_In in Hx as [_ Hx]. apply active_in_index, Hx.
    + intro Hin. pose proof Hin as Hact. apply active_in_index in Hact.
      unfold index_keys in Hin. apply in_map_iff in Hin as [r [<- Hr]].
      apply filter_In in Hr as [Hr _]. destruct (Hf r Hr) as [Hex _].
      apply existsb_exists in Hex as [x [Hx Hid]]. apply Z.eqb_eq in Hid.
      exists x. split; [exact Hid|]. apply filter_In. split; [exact Hx|].
      rewrite Hid. exact Hact.
Qed.

(** X5.  In every reachable state the dashboard agrees with the lists:
    [AssignedAssets] is the number of rows of the list of active
    assignments, [AvailableAssets] is the number of rows of the list of
    available assets (so it is never negative), no asset has two rows in the
    list of active assignments, which is ordered most recent first, and an
    asset is in the list of available assets exactly when it has no row in
    the list of active assignments. *)
Theorem dashboard_agrees_with_lists cfg co rs order_by_AssetName :
  (forall l, Permutation (order_by_AssetName l) l) ->
  let db := serve_all cfg (empty_db co) rs in
  let active := get_active_assignments db in
  let available := get_available_assets order_by_AssetName db in
  AssignedAssets (get_dashboard db) = Z.of_nat (List.length active) /\
  AvailableAssets (get_dashboard db) = Z.of_nat (List.length available) /\
  NoDup (List.map (fun r => aa_AssetId (act_assignment r)) active) /\
  descending (fun r => AssignedAt (act_assignment r)) active /\
  (forall x, In x (Assets db) ->
     (In x available <->
      ~ In (AssetId x) (List.map (fun r => aa_AssetId (act_assignment r)) active))).
Proof.
  intros Horder db active available.
  pose proof (serve_all_integrity cfg co rs) as Hi. fold db in Hi.
  destruct (serve_all_ledger cfg co rs) as [Huq _]. fold db in Huq.
  pose proof (active_join db Hi) as Hjoin. fold active in Hjoin.
  pose proof (unavailable_assets db Hi Huq) as Hun.
  assert (Hassigned : List.length active
                      = List.length (List.filter is_active (AssetAssignments db))).
  { apply Permutation_length in Hjoin. unfold index_keys in Hjoin.
    rewrite !List.length_map in Hjoin. exact Hjoin. }
  split; [|split; [|split; [|split]]].
  - simpl. unfold count_rows. rewrite Hassigned. reflexivity.
  - unfold available, get_available_assets.
    rewrite (Permutation_length (Horder _)). simpl. unfold count_rows.
    apply Permutation_length in Hun. unfold index_keys in Hun.
    rewrite !List.length_map in Hun.
    pose proof (List.filter_length
                  (fun x => existsb (active_for (AssetId x)) (AssetAssignments db))
                  (Assets db)) as Hsplit.
    cbv beta in Hsplit.
    assert (Hall : List.filter (fun _ : Asset => true) (Assets db) = Assets db).
    { clear. induction (Assets db) as [|x xs IH]; simpl; [|rewrite IH]; reflexivity. }
    rewrite Hall. unfold is_available. lia.
  - rewrite Hjoin. apply index_nodup, Huq.
  - apply order_by_desc_sorted.
  - intros x Hx. unfold available, get_available_assets.
    split.
    + intros Hin Hact. apply (Permutation_in _ (Horder _)) in Hin.
      apply filter_In in Hin as [_ Hav].
      apply (Permutation_in _ Hjoin), active_in_index in Hact.
      unfold is_available in Hav. rewrite Hact in Hav. discriminate.
    + intro Hno. apply (Permutation_in _ (Permutation_sym (Horder _))).
      apply filter_In. split; [exact Hx|].
      unfold is_available. apply negb_true_iff, not_true_is_false. intro Hact.
      apply Hno. apply (Permutation_in _ (Permutation_sym Hjoin)).
      apply active_in_index, Hact.
Qed.

Lemma dashboard_agrees_with_lists_witness :
  let db := serve_all sample_settings (empty_db CaseInsensitive)
              (sample_requests ++ [Ledger (Assign 100 1 1)]) in
  AssignedAssets (get_dashboard db) = 1 /\
  AvailableAssets (get_dashboard db)
    = Z.of_nat (List.length (get_available_assets (fun l => l) db)) /\
  AvailableAssets (get_dashboard db) = 0.
Proof.
  destruct (dashboard_agrees_with_lists sample_settings CaseInsensitive
              (sample_requests ++ [Ledger (Assign 100 1 1)]) (fun l => l)
              (fun l => Permutation_refl l)) as (H1 & H2 & _).
  split; [exact H1|]. split; [exact H2|reflexivity].
Defined.

(* ================================================================== *)
(** ** Assign and Return together *)
(* ================================================================== *)

Lemma filter_key_single {A} (f : A -> Z) (p : A -> bool) l x :
  NoDup (List.map f l) -> In x l -> p x = true ->
  List.filter (fun y => ((f y =? f x) && p y)%bool) l = [x].
Proof.
  induction l as [|a l IH]; intros Hnd Hx Hp; [destruct Hx|].
  simpl in *. inversion Hnd as [|? ? Ha Hl]; subst.
  destruct Hx as [->|Hx].
  - rewrite Z.eqb_refl, Hp. simpl. f_equal. apply filter_none.
    apply not_true_is_false. intro Hex. apply existsb_exists in Hex as [y [Hy Hfy]].
    apply andb_true_iff in Hfy as [Hfy _]. apply Z.eqb_eq in Hfy.
    apply Ha. rewrite <- Hfy. apply in_map, Hy.
  - destruct (Z.eqb_spec (f a) (f x)) as [Heq|Hne]; simpl; [|apply IH; assumption].
    exfalso. apply Ha. rewrite Heq. apply in_map, Hx.
Qed.

Lemma find_map_key {A} (f : A -> Z) (g : A -> A) l x :
  (forall y, f (g y) = f y) ->
  NoDup (List.map f l) -> In x l ->
  List.find (fun y => f y =? f x) (List.map g l) = Some (g x).
Proof.
  intros Hg. induction l as [|a l IH]; intros Hnd Hx; [destruct Hx|].
  simpl in *. inversion Hnd as [|? ? Ha Hl]; subst. rewrite Hg.
  destruct Hx as [->|Hx]; [rewrite Z.eqb_refl; reflexivity|].
  destruct (Z.eqb_spec (f a) (f x)) as [Heq|Hne]; [|apply IH; assumption].
  exfalso. apply Ha. rewrite Heq. apply in_map, Hx.
Qed.

(** Return of an active assignment whose id is its own. *)
Lemma post_return_active msg db now r :
  NoDup (List.map AssignmentId (AssetAssignments db)) ->
  In r (AssetAssignments db) ->
  ReturnedAt r = None ->
  AssignedAt r <= now ->
  let returned :=
    mkAssignment (AssignmentId r) (aa_AssetId r) (aa_EmployeeId r)
                 (AssignedAt r) (Some now) in
  let db' := fst (post_return msg db now (AssignmentId r)) in
  snd (post_return msg db now (AssignmentId r))
    = mkResponse 200 true "Asset returned successfully" (Some returned) /\
  AssetAssignments db'
    = List.map (fun x => if AssignmentId x =? AssignmentId r then returned else x)
               (AssetAssignments db) /\
  Assets db' = Assets db /\ Employees db' = Employees db.
Proof.
  intros Hnd Hr Hopen Hnow returned db'.
  assert (Hact : is_active r = true) by (unfold is_active; rewrite Hopen; reflexivity).
  assert (Hhit : List.filter (active_with_id (AssignmentId r)) (AssetAssignments db) = [r]).
  { apply (filter_key_single AssignmentId is_active); assumption. }
  assert (Hset : set_returned (AssignmentId r) now r = returned).
  { unfold set_returned, active_with_id. rewrite Z.eqb_refl, Hact. reflexivity. }
  assert (Hmap : List.map (set_returned (AssignmentId r) now) (AssetAssignments db)
                 = List.map (fun x => if AssignmentId x =? AssignmentId r
                                      then returned else x)
                            (AssetAssignments db)).
  { apply List.map_ext_in. intros x Hx. unfold set_returned, active_with_id.
    destruct (Z.eqb_spec (AssignmentId x) (AssignmentId r)) as [Heq|Hne]; [|reflexivity].
    assert (x = r) as ->.
    { clear -Hnd Hx Hr Heq. induction (AssetAssignments db) as [|a l IH]; [destruct Hx|].
      simpl in *. inversion Hnd as [|? ? Ha Hl]; subst.
      destruct Hx as [->|Hx], Hr as [->|Hr]; auto.
      - exfalso. apply Ha. rewrite Heq. apply in_map, Hr.
      - exfalso. apply Ha. rewrite <- Heq. apply in_map, Hx. }
    rewrite Hact. reflexivity. }
  assert (Hupd : update_ReturnedAt db (AssignmentId r) now
                 = (with_AssetAssignments db
                      (List.map (set_returned (AssignmentId r) now)
                                (AssetAssignments db)),
                    1, None)).
  { unfold update_ReturnedAt, count_rows. rewrite Hhit. cbn [List.map forallb].
    rewrite Hset. unfold CK_ReturnedAfterAssigned, returned. cbn [ReturnedAt AssignedAt].
    apply Z.leb_le in Hnow. rewrite Hnow. reflexivity. }
  assert (Hfind : List.find (fun y => AssignmentId y =? AssignmentId r)
                    (List.map (set_returned (AssignmentId r) now) (AssetAssignments db))
                  = Some returned).
  { rewrite <- Hset. apply (find_map_key AssignmentId); try assumption.
    intro y. unfold set_returned. destruct (active_with_id _ y); reflexivity. }
  unfold db', post_return, sp_ReturnAsset. rewrite Hupd.
  cbn -[set_returned]. rewrite Hfind, Hmap. repeat split.
Qed.

(** X6.  Return of an assignment that is in the table with no return time,
    at a time that is not before its [AssignedAt], in a table whose
    assignment ids are distinct: the handler answers 200 with the row as it
    now is, the row keeps everything but its [ReturnedAt], which is the time
    of the call, no other row changes, and the other tables are as they
    were. *)
Theorem return_of_active_assignment msg db now r :
  NoDup (List.map AssignmentId (AssetAssignments db)) ->
  In r (AssetAssignments db) ->
  ReturnedAt r = None ->
  AssignedAt r <= now ->
  let returned :=
    mkAssignment (AssignmentId r) (aa_AssetId r) (aa_EmployeeId r)
                 (AssignedAt r) (Some now) in
  let db' := fst (post_return msg db now (AssignmentId r)) in
  snd (post_return msg db now (AssignmentId r))
    = mkResponse 200 true "Asset returned successfully" (Some returned) /\
  AssetAssignments db'
    = List.map (fun x => if AssignmentId x =? AssignmentId r then returned else x)
               (AssetAssignments db) /\
  Assets db' = Assets db /\ Employees db' = Employees db.
Proof. exact (post_return_active msg db now r). Qed.

Lemma return_of_active_assignment_witness :
  snd (post_return sample_messages assigned_db 300 1)
    = mkResponse 200 true "Asset returned successfully"
        (Some (mkAssignment 1 1 1 100 (Some 300))) /\
  AssetAssignments (fst (post_return sample_messages assigned_db 300 1))
    = [mkAssignment 1 1 1 100 (Some 300)].
Proof.
  destruct (return_of_active_assignment sample_messages assigned_db 300
              (mkAssignment 1 1 1 100 None)) as (H1 & H2 & _).
  - repeat constructor. intros [].
  - left. reflexivity.
  - reflexivity.
  - simpl. lia.
  - split; [exact H1|exact H2].
Defined.

Lemma post_assignments_free_db msg db now a e :
  asset_exists db a = true -> employee_exists db e = true ->
  existsb (active_for a) (AssetAssignments db) = false ->
  fst (post_assignments msg db now a e)
    = with_AssetAssignments (draw_AssignmentId db)
        (AssetAssignments db ++ [mkAssignment (ident_AssetAssignments db) a e now None]).
Proof.
  intros Ha He Hfree. unfold post_assignments, sp_AssignAsset.
  rewrite Hfree. unfold insert_AssetAssignments. rewrite Hfree, Ha, He. reflexivity.
Qed.

Lemma existsb_app_closed a rows r :
  is_active r = false ->
  existsb (active_for a) (rows ++ [r]) = existsb (active_for a) rows.
Proof.
  intro H. rewrite existsb_app. simpl. unfold active_for at 2.
  rewrite H, andb_false_r. simpl. apply orb_false_r.
Qed.

(** X7.  Assign of a free asset followed by Return of the new assignment,
    at a time that is not before the assignment: the first call answers 201
    with the new row and takes the asset out of the available ones, the
    second answers 200; afterwards the table holds the rows it held plus one
    returned row with [ReturnedAt >= AssignedAt], and exactly the assets
    that were available before are available again. *)
Theorem assign_then_return msg db now1 now2 a e :
  keys_below (List.map AssignmentId (AssetAssignments db)) (ident_AssetAssignments db) ->
  asset_exists db a = true ->
  employee_exists db e = true ->
  existsb (active_for a) (AssetAssignments db) = false ->
  now1 <= now2 ->
  let id := ident_AssetAssignments db in
  let db1 := fst (post_assignments msg db now1 a e) in
  let db2 := fst (post_return msg db1 now2 id) in
  status (snd (post_assignments msg db now1 a e)) = 201 /\
  option_map av_row (data (snd (post_assignments msg db now1 a e)))
    = Some (mkAssignment id a e now1 None) /\
  (forall x, is_available db1 x = (is_available db x && negb (AssetId x =? a))%bool) /\
  snd (post_return msg db1 now2 id)
    = mkResponse 200 true "Asset returned successfully"
        (Some (mkAssignment id a e now1 (Some now2))) /\
  AssetAssignments db2
    = (AssetAssignments db ++ [mkAssignment id a e now1 (Some now2)])%list /\
  Assets db2 = Assets db /\ Employees db2 = Employees db /\
  (forall x, is_available db2 x = is_available db x).
Proof.
  intros [Hnd Hlt] Ha He Hfree Hnow id db1 db2.
  destruct (post_assignments_free msg db now1 a e Ha He Hfree) as (_ & Hst & _ & Hdata).
  pose proof (post_assignments_free_db msg db now1 a e Ha He Hfree) as Hdb1.
  fold db1 in Hdb1. fold id in Hdb1, Hdata.
  set (new := mkAssignment id a e now1 None) in *.
  assert (Hrows1 : AssetAssignments db1 = (AssetAssignments db ++ [new])%list)
    by (rewrite Hdb1; reflexivity).
  assert (Hnd1 : NoDup (List.map AssignmentId (AssetAssignments db1))).
  { rewrite Hrows1, List.map_app. apply (keys_below_snoc _ id). split; assumption. }
  assert (Hin1 : In new (AssetAssignments db1)).
  { rewrite Hrows1. apply in_or_app. right. left. reflexivity. }
  destruct (post_return_active msg db1 now2 new Hnd1 Hin1 eq_refl Hnow)
    as (Hresp & Hrows2 & HA & HE).
  change (AssignmentId new) with id in Hresp, Hrows2, HA, HE. fold db2 in Hrows2, HA, HE.
  assert (Hrows2' : AssetAssignments db2
                    = (AssetAssignments db ++ [mkAssignment id a e now1 (Some now2)])%list).
  { rewrite Hrows2, Hrows1, List.map_app. simpl. rewrite Z.eqb_refl. f_equal.
    erewrite List.map_ext_in; [apply List.map_id|]. intros x Hx. simpl.
    destruct (Z.eqb_spec (AssignmentId x) id) as [Heq|]; [|reflexivity].
    specialize (Hlt (AssignmentId x) (in_map AssignmentId _ x Hx)). unfold id in Heq. lia. }
  repeat split; try assumption.
  - intro x. unfold is_available. rewrite Hrows1, existsb_app. simpl.
    unfold active_for at 2, is_active. simpl.
    rewrite orb_false_r, negb_orb, andb_true_r, (Z.eqb_sym a). reflexivity.
  - rewrite HA, Hdb1. reflexivity.
  - rewrite HE, Hdb1. reflexivity.
  - intro x. unfold is_available. rewrite Hrows2'. rewrite existsb_app_closed; reflexivity.
Qed.

Lemma assign_then_return_witness :
  AssetAssignments
    (fst (post_return sample_messages
            (fst (post_assignments sample_messages sample_db 100 1 2)) 250 1))
    = [mkAssignment 1 1 2 100 (Some 250)].
Proof.
  assert (Hkeys : keys_below (List.map AssignmentId (AssetAssignments sample_db))
                             (ident_AssetAssignments sample_db))
    by (split; [constructor|intros i []]).
  assert (Hnow : 100 <= 250) by lia.
  exact (proj1 (proj2 (proj2 (proj2 (proj2
           (assign_then_return sample_messages sample_db 100 250 1 2
              Hkeys eq_refl eq_refl eq_refl Hnow)))))).
Defined.

(* ================================================================== *)
(** ** Editing assets and types *)
(* ================================================================== *)

Lemma map_no_hit {A} (p : A -> bool) (g : A -> A) l :
  existsb p l = false ->
  List.map (fun x => if p x then g x else x) l = l.
Proof.
  induction l as [|x l IH]; [reflexivity|]. simpl. intro H.
  apply orb_false_iff in H as [-> Hl]. rewrite IH by exact Hl. reflexivity.
Qed.

Lemma set_name_type_no_hit db a n t :
  asset_exists db a = false ->
  List.map (set_name_type a n t) (Assets db) = Assets db.
Proof.
  intro H.
  apply (map_no_hit (fun y => AssetId y =? a)
                    (fun y => mkAsset (AssetId y) n t (SerialNumber y)
                                      (asset_CreatedAt y))), H.
Qed.

(** The statement of [PUT /api/assets/:assetId], case by case. *)
Lemma update_Assets_cases db a n t :
  let fits := (Nat.leb (String.length n) 100 && Nat.leb (String.length t) 50)%bool in
  update_Assets db a n t =
  if asset_exists db a then
    if fits
    then (with_Assets db (List.map (set_name_type a n t) (Assets db)) (ident_Assets db),
          inl (List.filter (fun x => AssetId x =? a)
                           (List.map (set_name_type a n t) (Assets db))))
    else (db, inr Truncation)
  else (with_Assets db (Assets db) (ident_Assets db), inl []).
Proof.
  intro fits. unfold update_Assets. fold (asset_exists db a).
  assert (Hlen : (Nat.ltb 100 (String.length n) || Nat.ltb 50 (String.length t))%bool
                 = negb fits).
  { unfold fits. rewrite negb_andb, !Nat.leb_antisym, !negb_involutive. reflexivity. }
  rewrite Hlen. destruct (asset_exists db a) eqn:Eex; simpl.
  - destruct fits; reflexivity.
  - rewrite (set_name_type_no_hit db a n t Eex).
    unfold asset_exists in Eex. rewrite (filter_none _ _ Eex). reflexivity.
Qed.

Lemma updated_rows db a n t :
  asset_exists db a = true ->
  exists row rows,
    List.filter (fun x => AssetId x =? a) (List.map (set_name_type a n t) (Assets db))
      = row :: rows /\
    In row (List.map (set_name_type a n t) (Assets db)) /\ AssetId row = a.
Proof.
  intro Eex. unfold asset_exists in Eex. apply existsb_exists in Eex as [x [Hx Hid]].
  assert (Hin : In (set_name_type a n t x)
                   (List.filter (fun y : Asset => AssetId y =? a)
                      (List.map (set_name_type a n t) (Assets db)))).
  { apply filter_In. split; [apply in_map, Hx|].
    rewrite (proj1 (set_name_type_keeps a n t x)). exact Hid. }
  destruct (List.filter _ (List.map _ _)) as [|row rows] eqn:Ehit; [destruct Hin|].
  exists row, rows. split; [reflexivity|].
  assert (Hrow : In row (List.filter (fun y : Asset => AssetId y =? a)
                           (List.map (set_name_type a n t) (Assets db))))
    by (rewrite Ehit; left; reflexivity).
  apply filter_In in Hrow as [Hrow Hrid]. apply Z.eqb_eq in Hrid. auto.
Qed.

(** X8.  [PUT /api/assets/:assetId] never changes the id, the serial
    number or the creation time of an asset, nor any assignment or
    employee, whatever it answers.  With a name and a type that are not
    empty and fit their columns it answers 200 for an asset that exists,
    which then has the new name and type, and 404 for one that does not;
    with an empty name or type, or one too long for an asset that exists, it
    answers 400; and unless it answers 200 the table of assets is as it
    was. *)
Theorem put_asset_contract msg db a n t :
  let db' := fst (put_asset msg db a n t) in
  let resp := snd (put_asset msg db a n t) in
  let valid := (negb (String.eqb n "") && negb (String.eqb t ""))%bool in
  let fits := (Nat.leb (String.length n) 100 && Nat.leb (String.length t) 50)%bool in
  (List.map AssetId (Assets db') = List.map AssetId (Assets db) /\
   List.map SerialNumber (Assets db') = List.map SerialNumber (Assets db) /\
   List.map asset_CreatedAt (Assets db') = List.map asset_CreatedAt (Assets db) /\
   AssetAssignments db' = AssetAssignments db /\
   Employees db' = Employees db) /\
  (valid = true -> fits = true -> asset_exists db a = true ->
     status resp = 200 /\ success resp = true /\
     Assets db' = List.map (set_name_type a n t) (Assets db) /\
     (forall x, In x (Assets db') -> AssetId x = a ->
        AssetName x = n /\ AssetType x = t) /\
     (exists row, data resp = Some row /\ In row (Assets db') /\ AssetId row = a)) /\
  (valid = true -> asset_exists db a = false ->
     status resp = 404 /\ Assets db' = Assets db) /\
  (valid = false \/ (fits = false /\ asset_exists db a = true) ->
     status resp = 400 /\ success resp = false /\ Assets db' = Assets db).
Proof.
  intros db' resp valid fits.
  assert (Hput : put_asset msg db a n t =
                 if valid then
                   match update_Assets db a n t with
                   | (d, inl []) => (d, mkResponse 404 false "Asset not found" None)
                   | (d, inl (row :: _)) =>
                       (d, mkResponse 200 true "Asset updated successfully" (Some row))
                   | (d, inr err) => (d, mkResponse 400 false (msg err) None)
                   end
                 else (db, mkResponse 400 false "Asset name and type are required" None)).
  { unfold put_asset, valid. destruct (String.eqb n ""), (String.eqb t ""); reflexivity. }
  unfold db', resp. rewrite Hput, update_Assets_cases. fold fits.
  split; [|split; [|split]].
  - destruct valid; [|repeat split].
    destruct (asset_exists db a) eqn:Eex; [|repeat split].
    destruct fits; [|repeat split].
    destruct (updated_rows db a n t Eex) as [row [rows [-> _]]]. simpl.
    repeat split; rewrite List.map_map; apply List.map_ext;
      intro y; unfold set_name_type; destruct (AssetId y =? a); reflexivity.
  - intros -> -> Eex. rewrite Eex.
    destruct (updated_rows db a n t Eex) as [row [rows [-> [Hrow Hid]]]]. simpl.
    split; [reflexivity|]. split; [reflexivity|]. split; [reflexivity|]. split.
    + intros y Hy Hya. apply in_map_iff in Hy as [z [<- Hz]].
      unfold set_name_type in *.
      destruct (AssetId z =? a) eqn:E; [split; reflexivity|].
      apply Z.eqb_neq in E. contradiction.
    + exists row. auto.
  - intros -> ->. split; reflexivity.
  - intros [-> | [-> ->]]; [repeat split|].
    destruct valid; repeat split.
Qed.

Lemma put_asset_contract_witness :
  status (snd (put_asset sample_messages sample_db 1 "iPhone 16" "Mobile")) = 200 /\
  status (snd (put_asset sample_messages sample_db 9 "iPhone 16" "Mobile")) = 404 /\
  status (snd (put_asset sample_messages sample_db 1 "" "Mobile")) = 400.
Proof.
  split; [|split].
  - exact (proj1 (proj1 (proj2 (put_asset_contract sample_messages sample_db 1
                                  "iPhone 16" "Mobile"))
                        eq_refl eq_refl eq_refl)).
  - exact (proj1 (proj1 (proj2 (proj2 (put_asset_contract sample_messages sample_db 9
                                         "iPhone 16" "Mobile")))
                        eq_refl eq_refl)).
  - exact (proj1 (proj2 (proj2 (proj2 (put_asset_contract sample_messages sample_db 1
                                         "" "Mobile")))
                        (or_introl eq_refl))).
Defined.

(** The equality of the collation is an equivalence. *)
Lemma chr_eqb_refl co c : SQL.chr_eqb co c c = true.
Proof. destruct co; simpl; apply Ascii.eqb_refl. Qed.

Lemma chr_eqb_trans co a b c :
  SQL.chr_eqb co a b = true -> SQL.chr_eqb co b c = true -> SQL.chr_eqb co a c = true.
Proof.
  destruct co; simpl; rewrite !Ascii.eqb_eq; congruence.
Qed.

Lemma str_eqb_refl co s : SQL.str_eqb co s s = true.
Proof. induction s as [|c s IH]; simpl; [|rewrite chr_eqb_refl, IH]; reflexivity. Qed.

Lemma str_eqb_trans co a : forall b c,
  SQL.str_eqb co a b = true -> SQL.str_eqb co b c = true -> SQL.str_eqb co a c = true.
Proof.
  induction a as [|x a IH]; intros [|y b] [|z c]; simpl; try discriminate; trivial.
  intros H1 H2. apply andb_true_iff in H1 as [H1 H1'], H2 as [H2 H2'].
  rewrite (chr_eqb_trans co x y z H1 H2), (IH b c H1' H2'). reflexivity.
Qed.

Lemma sql_eq_refl co s : SQL.eq co s s = true.
Proof. apply str_eqb_refl. Qed.

Lemma sql_eq_trans co a b c :
  SQL.eq co a b = true -> SQL.eq co b c = true -> SQL.eq co a c = true.
Proof. apply str_eqb_trans. Qed.

Lemma count_rows_map {A} (p q : A -> bool) (g : A -> A) l :
  (forall x, In x l -> p (g x) = q x) ->
  count_rows p (List.map g l) = count_rows q l.
Proof.
  induction l as [|x l IH]; intro H; [reflexivity|].
  simpl. rewrite !count_rows_cons, H, IH; auto using in_eq, in_cons.
Qed.

(** X9.  [PUT /api/asset-types/rename] with two different names that are
    not empty, where no asset has the new type and the new name fits the
    column (or no asset has the old type): it answers 200 with the number of
    assets that had the old type; afterwards no asset has the old type, that
    many assets have the new one, [DELETE /api/asset-types/:type] for the
    old name reports it unused, and ids, names and serial numbers of the
    assets, the assignments and the employees are as they were.  When an
    asset already has the new type, it answers 400 and writes nothing.
    "Has the type" is the equality of the collation. *)
Theorem rename_type_contract msg db o n :
  String.eqb o "" = false -> String.eqb n "" = false -> String.eqb o n = false ->
  let db' := fst (put_asset_types_rename msg db o n) in
  let resp := snd (put_asset_types_rename msg db o n) in
  (count_AssetType db n = 0 ->
   (Nat.leb (String.length n) 50 = true \/ count_AssetType db o = 0) ->
     status resp = 200 /\ success resp = true /\
     data resp = Some (count_AssetType db o) /\
     count_AssetType db' o = 0 /\
     count_AssetType db' n = count_AssetType db o /\
     status (delete_asset_type db' o) = 200 /\
     List.map AssetId (Assets db') = List.map AssetId (Assets db) /\
     List.map AssetName (Assets db') = List.map AssetName (Assets db) /\
     List.map SerialNumber (Assets db') = List.map SerialNumber (Assets db) /\
     AssetAssignments db' = AssetAssignments db /\
     Employees db' = Employees db) /\
  (0 < count_AssetType db n ->
     status resp = 400 /\ success resp = false /\ db' = db).
Proof.
  intros Ho Hn Hon db' resp. unfold db', resp, put_asset_types_rename.
  rewrite Ho, Hn, Hon. cbn [orb]. split.
  - intros Hnew Hfit. rewrite Hnew. cbn [Z.ltb Z.compare].
    assert (Hupd : update_AssetType db o n
                   = (with_Assets db (List.map (set_type db o n) (Assets db))
                                  (ident_Assets db),
                      count_AssetType db o, None)).
    { unfold update_AssetType. destruct Hfit as [Hfit|Hfit].
      - apply Nat.leb_le in Hfit.
        replace (Nat.ltb 50 (String.length n)) with false
          by (symmetry; apply Nat.ltb_ge; exact Hfit).
        rewrite andb_false_r. reflexivity.
      - replace (existsb (has_type db o) (Assets db)) with false; [reflexivity|].
        symmetry. apply not_true_is_false. intro Hex.
        apply count_rows_pos in Hex. unfold count_AssetType in Hfit. lia. }
    rewrite Hupd. cbn [fst snd status success data].
    set (db1 := with_Assets db (List.map (set_type db o n) (Assets db)) (ident_Assets db)).
    assert (Hnone : forall x, In x (Assets db) -> has_type db n x = false).
    { intros x Hx. apply not_true_is_false. intro Hyes.
      assert (0 < count_rows (has_type db n) (Assets db)).
      { apply count_rows_pos, existsb_exists. exists x. auto. }
      unfold count_AssetType in Hnew. lia. }
    assert (Hold : count_AssetType db1 o = 0).
    { unfold count_AssetType. simpl.
      rewrite (count_rows_map (has_type db1 o) (fun _ => false) (set_type db o n)).
      - apply count_rows_zero. clear. induction (Assets db); simpl; auto.
      - intros x Hx. unfold set_type. destruct (has_type db o x) eqn:Ehit.
        + unfold has_type in *. simpl. apply not_true_is_false. intro Hno.
          specialize (Hnone x Hx). unfold has_type in Hnone.
          rewrite sql_eq_sym in Hno.
          rewrite (sql_eq_trans _ _ _ _ Ehit Hno) in Hnone. discriminate.
        + exact Ehit. }
    assert (Hcount : count_AssetType db1 n = count_AssetType db o).
    { unfold count_AssetType. simpl. apply count_rows_map.
      intros x Hx. unfold set_type. destruct (has_type db o x) eqn:Ehit.
      - unfold has_type. simpl. apply sql_eq_refl.
      - apply Hnone, Hx. }
    split; [reflexivity|]. split; [reflexivity|]. split; [reflexivity|].
    split; [exact Hold|]. split; [exact Hcount|].
    split; [unfold delete_asset_type; rewrite Hold; reflexivity|].
    repeat split; simpl; rewrite List.map_map; apply List.map_ext;
      intro x; apply set_type_keeps.
  - intro Hnew. apply Z.ltb_lt in Hnew. rewrite Hnew. repeat split.
Qed.

Lemma rename_type_contract_witness :
  data (snd (put_asset_types_rename sample_messages sample_db "phone" "Mobile")) = Some 1 /\
  status (snd (put_asset_types_rename sample_messages sample_db "Laptop" "PHONE ")) = 400.
Proof.
  split.
  - exact (proj1 (proj2 (proj2
             (proj1 (rename_type_contract sample_messages sample_db "phone" "Mobile"
                       eq_refl eq_refl eq_refl)
                    eq_refl (or_introl eq_refl))))).
  - exact (proj1 (proj2 (rename_type_contract sample_messages sample_db "Laptop" "PHONE "
                           eq_refl eq_refl eq_refl)
                        eq_refl)).
Defined.

(* ================================================================== *)
(** ** Creating employees and assets *)
(* ================================================================== *)

Lemma insert_Employees_cases db now n e p :
  insert_Employees db now n e p =
  if existsb (fun x => SQL.eq (db_collation db) (Email x) e) (Employees db)
  then (draw_EmployeeId db, Some UniqueKeyViolation)
  else (mkDB (db_collation db)
             (Employees db ++ [mkEmployee (ident_Employees db) n e p now])
             (Assets db) (AssetAssignments db)
             (ident_Employees db + 1) (ident_Assets db) (ident_AssetAssignments db),
        None).
Proof. reflexivity. Qed.

(** X10.  [POST /api/employees] never touches assets or assignments.
    Without a name or without an email it answers 400 with the message of
    the store and adds nobody.  With both, all fields fitting their columns:
    when an employee already has this email (up to the collation and
    trailing blanks) it answers 400 with the message of the store for the
    unique key and adds nobody; otherwise it answers 201 with the new
    employee, who is added at the end of the table with the next identity
    value and with an empty position stored as NULL. *)
Theorem post_employees_contract msg nul db now fullName email position :
  let db' := fst (post_employees msg nul db now fullName email position) in
  let resp := snd (post_employees msg nul db now fullName email position) in
  (Assets db' = Assets db /\ AssetAssignments db' = AssetAssignments db) /\
  (fullName = None \/ email = None ->
     resp = mkResponse 400 false nul None /\ Employees db' = Employees db) /\
  (forall n e,
     fullName = Some n -> email = Some e ->
     (too_long 100 fullName || too_long 100 email || too_long 100 position)%bool = false ->
     (existsb (fun x => SQL.eq (db_collation db) (Email x) e) (Employees db) = true ->
        resp = mkResponse 400 false (msg UniqueKeyViolation) None /\
        Employees db' = Employees db) /\
     (existsb (fun x => SQL.eq (db_collation db) (Email x) e) (Employees db) = false ->
        let row :=
          mkEmployee (ident_Employees db) n e
            (match position with
             | Some p => if String.eqb p "" then None else Some p
             | None => None
             end) now in
        resp = mkResponse 201 true "Employee created" (Some row) /\
        Employees db' = (Employees db ++ [row])%list)).
Proof.
  intros db' resp. unfold db', resp, post_employees. clear db' resp.
  split; [|split].
  - destruct fullName as [n|], email as [e|]; try (split; reflexivity).
    destruct (_ || _)%bool; [split; reflexivity|].
    rewrite insert_Employees_cases. destruct (existsb _ _); split; reflexivity.
  - intros [-> | ->]; [split; reflexivity|].
    destruct fullName; split; reflexivity.
  - intros n e -> -> Hfit.
    apply orb_false_iff in Hfit as [Hfit Hp]. apply orb_false_iff in Hfit as [Hn He].
    assert (Hp' : too_long 100
                    (match position with
                     | Some p => if String.eqb p "" then None else Some p
                     | None => None
                     end) = false).
    { destruct position as [p|]; [|reflexivity]. destruct (String.eqb p ""); auto. }
    rewrite Hn, He, Hp'. cbn [orb]. rewrite insert_Employees_cases.
    split; intro Hdup; rewrite Hdup; split; reflexivity.
Qed.

Lemma post_employees_contract_witness :
  status (snd (post_employees sample_messages "null" sample_db 5
                 (Some "Mike Chen") None None)) = 400 /\
  snd (post_employees sample_messages "null" sample_db 5
         (Some "John") (Some "JOHN@company.com ") None)
    = mkResponse 400 false (sample_messages UniqueKeyViolation) None /\
  snd (post_employees sample_messages "null" sample_db 5
         (Some "Mike Chen") (Some "mike@company.com") (Some ""))
    = mkResponse 201 true "Employee created"
        (Some (mkEmployee 3 "Mike Chen" "mike@company.com" None 5)).
Proof.
  split; [|split].
  - rewrite (proj1 (proj1 (proj2 (post_employees_contract sample_messages "null"
                                    sample_db 5 (Some "Mike Chen") None None))
                          (or_intror eq_refl))).
    reflexivity.
  - exact (proj1 (proj1 (proj2 (proj2 (post_employees_contract sample_messages "null"
                                         sample_db 5 (Some "John")
                                         (Some "JOHN@company.com ") None))
                               "John" "JOHN@company.com " eq_refl eq_refl eq_refl)
                        eq_refl)).
  - exact (proj1 (proj2 (proj2 (proj2 (post_employees_contract sample_messages "null"
                                         sample_db 5 (Some "Mike Chen")
                                         (Some "mike@company.com") (Some "")))
                               "Mike Chen" "mike@company.com" eq_refl eq_refl eq_refl)
                        eq_refl)).
Defined.

Lemma count_serial_nonneg db s : 0 <= count_serial db s.
Proof. unfold count_serial. apply count_rows_nonneg. Qed.

Lemma generateSerialNumber_fresh fuel year db : forall k assetType s,
  generateSerialNumber fuel (quiescent year db) k assetType = Some (Resolved s) ->
  count_serial db s = 0 /\
  exists n, 1 <= n /\ s = format_serial (basePattern year assetType) n.
Proof.
  induction fuel as [|fuel IH]; intros k assetType s H; [discriminate|].
  rewrite generateSerialNumber_unfold in H. unfold quiescent at 1 in H.
  destruct (attempt (mkView year db db) assetType) eqn:E.
  - injection H as ->. split; [|apply (attempt_fresh_format _ _ _ E)].
    unfold attempt in E. destruct (select_top_serial _ _); [|discriminate].
    cbn [at_check view_year] in E.
    destruct (0 <? count_serial db _) eqn:Ec; [discriminate|].
    injection E as <-. apply Z.ltb_ge in Ec.
    match type of Ec with
    | count_serial db ?x <= 0 => pose proof (count_serial_nonneg db x)
    end.
    lia.
  - apply IH in H. exact H.
  - discriminate.
Qed.

Lemma fresh_serial_not_duplicate db s :
  count_serial db s = 0 ->
  existsb (fun x => serial_eq (db_collation db) (SerialNumber x) (Some s)) (Assets db)
    = false.
Proof.
  intro H. apply not_true_is_false. intro Hex.
  apply existsb_exists in Hex as [x [Hx Heq]].
  assert (0 < count_serial db s); [|lia].
  apply count_rows_pos, existsb_exists. exists x. split; [exact Hx|].
  destruct (SerialNumber x); [exact Heq|discriminate].
Qed.

(** X11.  [POST /api/assets], while no other session writes: when it
    answers, it answers 201 or 400 and never touches assignments or
    employees.  On 201 the table of assets has one more row, at its end: the
    new asset, with the next identity value, the name and type of the
    request, and a serial number that no asset had and that is the prefix of
    the type, the year and the string of a number from 1 on, padded to at
    least three characters, which are all digits when the number is below
    2^53.  On 400 the table of assets is as it was.  The INSERT of the
    handler is never refused for a duplicate serial number. *)
Theorem post_assets_contract msg fuel year now db n t db' resp :
  post_assets msg fuel year now db n t = Some (db', resp) ->
  AssetAssignments db' = AssetAssignments db /\
  Employees db' = Employees db /\
  (status resp = 201 \/ status resp = 400) /\
  (status resp = 201 ->
     exists s k,
       data resp = Some (mkAsset (ident_Assets db) n t (Some s) now) /\
       Assets db' = (Assets db ++ [mkAsset (ident_Assets db) n t (Some s) now])%list /\
       count_serial db s = 0 /\
       1 <= k /\ s = basePattern year t ++ JS.padStart 3 "0" (JS.toString k) /\
       (3 <= String.length (JS.padStart 3 "0" (JS.toString k)))%nat /\
       (k < 9007199254740992 ->
        JS.forallb JS.is_digit (JS.padStart 3 "0" (JS.toString k)) = true)) /\
  (status resp = 400 -> Assets db' = Assets db) /\
  (forall s, generateSerialNumber fuel (quiescent year db) 0 t = Some (Resolved s) ->
     snd (insert_Assets db now n t s) <> inr UniqueKeyViolation).
Proof.
  intro H.
  assert (Hnodup : forall s,
            generateSerialNumber fuel (quiescent year db) 0 t = Some (Resolved s) ->
            snd (insert_Assets db now n t s) <> inr UniqueKeyViolation).
  { intros s Hs. apply generateSerialNumber_fresh in Hs as [Hs _].
    unfold insert_Assets. rewrite (fresh_serial_not_duplicate db s Hs).
    destruct (_ || _)%bool; simpl; discriminate. }
  unfold post_assets in H. destruct (_ || _)%bool.
  { injection H as <- <-. repeat split; auto; try discriminate. }
  destruct (generateSerialNumber fuel (quiescent year db) 0 t) as [[s|err]|] eqn:Eg;
    [| |discriminate].
  - apply generateSerialNumber_fresh in Eg as [Hfresh [k [Hk Hs]]].
    unfold insert_Assets in H. rewrite (fresh_serial_not_duplicate db s Hfresh) in H.
    destruct (_ || _)%bool.
    + injection H as <- <-.
      destruct (_ || _)%bool; repeat split; auto; try discriminate.
    + injection H as <- <-. simpl.
      repeat split; auto; try discriminate.
      intros _. exists s, k.
      split; [reflexivity|]. split; [reflexivity|]. split; [exact Hfresh|].
      split; [exact Hk|]. split; [exact Hs|]. split.
      * unfold JS.padStart. rewrite length_app, length_repeat. lia.
      * intro Hsafe. apply (sequence_digits k). unfold safe. lia.
  - injection H as <- <-.
    destruct (_ || _)%bool; repeat split; auto; try discriminate.
Qed.

Lemma post_assets_contract_witness :
  exists s k,
    Assets (serve_all sample_settings sample_db [PostAsset 2025 7 "ThinkPad T14" "Laptop"])
      = (Assets sample_db ++ [mkAsset 2 "ThinkPad T14" "Laptop" (Some s) 7])%list /\
    count_serial sample_db s = 0 /\ 1 <= k /\
    s = basePattern 2025 "Laptop" ++ JS.padStart 3 "0" (JS.toString k).
Proof.
  destruct (post_assets sample_messages 4 2025 7 sample_db "ThinkPad T14" "Laptop")
    as [[db' resp]|] eqn:E; [|discriminate E].
  destruct (post_assets_contract sample_messages 4 2025 7 sample_db
              "ThinkPad T14" "Laptop" db' resp E) as (_ & _ & _ & H201 & _).
  assert (Hst : status resp = 201) by (injection E as <- <-; reflexivity).
  destruct (H201 Hst) as [s [k (_ & Hrows & Hfresh & Hk & Hs & _)]].
  exists s, k. repeat split; try assumption.
  injection E as <- _. exact Hrows.
Defined.

(** X12.  The prefix that the form of the front end shows for a type is the
    prefix that the server gives to the serial number, for every type. *)
Theorem preview_prefix_is_server_prefix type :
  getSerialPrefix type = serial_prefix type.
Proof.
  unfold getSerialPrefix. destruct (String.eqb_spec type "") as [->|]; reflexivity.
Qed.

(* ================================================================== *)
(** ** Deleting an asset and the lists *)
(* ================================================================== *)

Lemma delete_asset_tables msg db a :
  existsb (active_for a) (AssetAssignments db) = false ->
  AssetAssignments (fst (delete_asset msg db a))
    = List.filter (fun r => negb (aa_AssetId r =? a)) (AssetAssignments db) /\
  Assets (fst (delete_asset msg db a))
    = List.filter (fun x => negb (AssetId x =? a)) (Assets db) /\
  Employees (fst (delete_asset msg db a)) = Employees db.
Proof.
  intro H. rewrite delete_asset_db, (count_rows_zero _ _ H). simpl.
  unfold delete_Assets, delete_AssetAssignments. simpl.
  rewrite (existsb_filter_negb (fun r => aa_AssetId r =? a)), andb_false_r.
  repeat split.
Qed.

Lemma filter_other {A} (f : A -> Z) a b l :
  b <> a ->
  List.filter (fun x => b =? f x) (List.filter (fun x => negb (f x =? a)) l)
    = List.filter (fun x => b =? f x) l.
Proof.
  intro Hne. induction l as [|x l IH]; [reflexivity|]. simpl.
  destruct (Z.eqb_spec (f x) a) as [Hxa|Hxa]; simpl.
  - destruct (Z.eqb_spec b (f x)); [congruence|exact IH].
  - rewrite IH. reflexivity.
Qed.

Lemma filter_active_other a rows :
  existsb (active_for a) rows = false ->
  List.filter is_active (List.filter (fun r => negb (aa_AssetId r =? a)) rows)
    = List.filter is_active rows.
Proof.
  induction rows as [|r rows IH]; [reflexivity|]. simpl. intro H.
  apply orb_false_iff in H as [Hr Hrows]. unfold active_for in Hr.
  destruct (aa_AssetId r =? a); simpl in *.
  - rewrite Hr. apply IH, Hrows.
  - rewrite IH by exact Hrows. reflexivity.
Qed.

(** X13.  [DELETE /api/assets/:assetId] for an asset with no active
    assignment leaves the history of the asset empty, the history of every
    other asset as it was, and the list of active assignments as it was. *)
Theorem delete_asset_and_the_lists msg db a :
  existsb (active_for a) (AssetAssignments db) = false ->
  let db' := fst (delete_asset msg db a) in
  sp_GetAssetHistory db' a = [] /\
  (forall b, b <> a -> sp_GetAssetHistory db' b = sp_GetAssetHistory db b) /\
  get_active_assignments db' = get_active_assignments db.
Proof.
  intros H db'. destruct (delete_asset_tables msg db a H) as (Hrows & Hassets & Hemp).
  fold db' in Hrows, Hassets, Hemp. split; [|split].
  - unfold sp_GetAssetHistory. rewrite Hrows.
    rewrite (filter_none (fun aa => aa_AssetId aa =? a)); [reflexivity|].
    apply (existsb_filter_negb (fun r => aa_AssetId r =? a)).
  - intros b Hb. unfold sp_GetAssetHistory. rewrite Hrows, Hemp. do 2 f_equal.
    assert (Hsym : forall l : list AssetAssignment,
              List.filter (fun aa => aa_AssetId aa =? b) l
              = List.filter (fun aa => b =? aa_AssetId aa) l).
    { intro l. apply List.filter_ext. intro x. apply Z.eqb_sym. }
    rewrite !Hsym. apply filter_other, Hb.
  - unfold get_active_assignments. rewrite Hrows, Hassets, Hemp.
    rewrite (filter_active_other a _ H). f_equal.
    apply flat_map_same. intros aa Haa. apply filter_In in Haa as [Haa Hact].
    assert (Hne : aa_AssetId aa <> a).
    { intro Heq. assert (existsb (active_for a) (AssetAssignments db) = true); [|congruence].
      apply existsb_exists. exists aa. split; [exact Haa|].
      unfold active_for. rewrite Heq, Z.eqb_refl, Hact. reflexivity. }
    rewrite (filter_other AssetId a (aa_AssetId aa) (Assets db) Hne). reflexivity.
Qed.

Lemma delete_asset_and_the_lists_witness :
  sp_GetAssetHistory returned_db 1
    = [mkHistory 1 "John Smith" 100 (Some 300)] /\
  sp_GetAssetHistory (fst (delete_asset sample_messages returned_db 1)) 1 = [].
Proof.
  split; [reflexivity|].
  exact (proj1 (delete_asset_and_the_lists sample_messages returned_db 1 eq_refl)).
Defined.

(* ================================================================== *)
(** ** Allocation while the numbers have three digits *)
(* ================================================================== *)

Lemma reads_back_all : List.forallb reads_back (List.seq 0 1001) = true.
Proof. vm_compute. reflexivity. Qed.

Lemma pad3_reads_back i :
  0 <= i <= 1000 ->
  JS.parseInt (pad3 i) = Some i /\
  (i <= 999 -> String.length (pad3 i) = 3%nat /\ SQL.cast_int (pad3 i) = Some i).
Proof.
  intro Hi.
  assert (Hin : In (Z.to_nat i) (List.seq 0 1001)) by (apply in_seq; lia).
  pose proof (proj1 (List.forallb_forall _ _) reads_back_all _ Hin) as H.
  unfold reads_back in H. rewrite Z2Nat.id in H by lia.
  apply andb_true_iff in H as [Hparse Hcast]. split.
  - destruct (JS.parseInt (pad3 i)) as [v|]; [|discriminate].
    apply Z.eqb_eq in Hparse. congruence.
  - intro H999.
    replace (Nat.leb (Z.to_nat i) 999) with true in Hcast
      by (symmetry; apply Nat.leb_le; lia).
    apply andb_true_iff in Hcast as [Hlen Hcast]. apply Nat.eqb_eq in Hlen.
    split; [exact Hlen|].
    destruct (SQL.cast_int (pad3 i)) as [v|]; [|discriminate].
    apply Z.eqb_eq in Hcast. congruence.
Qed.

Lemma pad3_digits i : safe i -> JS.forallb JS.is_digit (pad3 i) = true.
Proof. intro H. apply (sequence_digits i H). Qed.

Lemma pad3_not_empty i : pad3 i <> EmptyString.
Proof.
  intros E. assert (Hlen : (3 <= String.length (pad3 i))%nat).
  { unfold pad3, JS.padStart. rewrite length_app, length_repeat. lia. }
  rewrite E in Hlen. simpl in Hlen. lia.
Qed.

Lemma substring_all s : String.substring 0 (String.length s) s = s.
Proof. induction s as [|c s IH]; simpl; [|rewrite IH]; reflexivity. Qed.

Lemma substring_suffix a p :
  String.substring (String.length a) (String.length p) (a ++ p) = p.
Proof. induction a as [|c a IH]; simpl; [apply substring_all|exact IH]. Qed.

Lemma digit_not_blank c : JS.is_digit c = true -> SQL.is_blank c = false.
Proof.
  destruct c as [[|] [|] [|] [|] [|] [|] [|] [|]]; vm_compute;
    intro H; first [reflexivity | discriminate H].
Qed.

Lemma unsigned_no_dash c : unsigned_char c = true -> negb (Ascii.eqb c "-") = true.
Proof.
  destruct c as [[|] [|] [|] [|] [|] [|] [|] [|]]; vm_compute;
    intro H; first [reflexivity | discriminate H].
Qed.

Lemma digit_no_dash c : JS.is_digit c = true -> negb (Ascii.eqb c "-") = true.
Proof.
  destruct c as [[|] [|] [|] [|] [|] [|] [|] [|]]; vm_compute;
    intro H; first [reflexivity | discriminate H].
Qed.

Lemma upper_no_dash c : JS.is_upper c = true -> negb (Ascii.eqb c "-") = true.
Proof.
  destruct c as [[|] [|] [|] [|] [|] [|] [|] [|]]; vm_compute;
    intro H; first [reflexivity | discriminate H].
Qed.

Lemma digit_chr_eqb co c d :
  JS.is_digit c = true -> JS.is_digit d = true -> SQL.chr_eqb co c d = true -> c = d.
Proof.
  intros Hc Hd. destruct co; simpl; [|apply Ascii.eqb_eq].
  assert (Hup : forall x, JS.is_digit x = true -> JS.upper_char x = x).
  { intro x. destruct x as [[|] [|] [|] [|] [|] [|] [|] [|]]; vm_compute;
      intro H; first [reflexivity | discriminate H]. }
  rewrite (Hup c Hc), (Hup d Hd). apply Ascii.eqb_eq.
Qed.

Lemma digits_str_eqb co a : forall b,
  JS.forallb JS.is_digit a = true -> JS.forallb JS.is_digit b = true ->
  SQL.str_eqb co a b = true -> a = b.
Proof.
  induction a as [|x a IH]; intros [|y b] Ha Hb H; simpl in *; try discriminate; trivial.
  apply andb_true_iff in Ha as [Hx Ha], Hb as [Hy Hb], H as [Hxy H].
  rewrite (digit_chr_eqb co x y Hx Hy Hxy), (IH b Ha Hb H). reflexivity.
Qed.

Lemma rtrim_digits s : JS.forallb JS.is_digit s = true -> SQL.rtrim s = s.
Proof.
  induction s as [|c s IH]; [reflexivity|]. simpl. intro H.
  apply andb_true_iff in H as [Hc Hs]. rewrite (IH Hs).
  destruct s; [rewrite (digit_not_blank c Hc)|]; reflexivity.
Qed.

Lemma rtrim_app_fixed a p :
  SQL.rtrim p = p -> p <> EmptyString -> SQL.rtrim (a ++ p) = a ++ p.
Proof.
  intros Hp Hne. induction a as [|x a IH]; [exact Hp|]. simpl. rewrite IH.
  destruct (a ++ p) eqn:E; [|reflexivity].
  destruct a; simpl in E; [contradiction|discriminate].
Qed.

Lemma str_eqb_cancel co a : forall x y,
  SQL.str_eqb co (a ++ x) (a ++ y) = SQL.str_eqb co x y.
Proof.
  induction a as [|c a IH]; intros x y; [reflexivity|].
  simpl. rewrite chr_eqb_refl, IH. reflexivity.
Qed.

(** A serial equal to a candidate of the allocator matches the pattern of
    its scan. *)
Lemma eq_candidate_like co year assetType i s :
  safe i ->
  SQL.eq co s (basePattern year assetType ++ pad3 i) = true ->
  SQL.like co (basePattern year assetType ++ "%") s = true.
Proof.
  intros Hi. unfold SQL.eq.
  rewrite (rtrim_app_fixed _ (pad3 i))
    by (try apply rtrim_digits; try apply pad3_digits; try apply pad3_not_empty; exact Hi).
  intro H. apply str_eqb_app in H as [x [y [Hs Hx]]].
  destruct (rtrim_prefix s) as [u Hu]. rewrite Hu, Hs, app_assoc_str.
  apply like_prefix; [apply basePattern_literal|exact Hx].
Qed.

Lemma app_empty_r s : s ++ "" = s.
Proof. induction s as [|c s IH]; simpl; [reflexivity|f_equal; exact IH]. Qed.

Lemma split_go_plain sep a : forall cur,
  no_sep sep a = true -> JS.split_go sep cur a = [cur ++ a].
Proof.
  induction a as [|c a IH]; intros cur H; simpl.
  - rewrite app_empty_r. reflexivity.
  - simpl in H. apply andb_true_iff in H as [Hc Ha]. apply negb_true_iff in Hc.
    rewrite Hc, (IH _ Ha), app_assoc_str. reflexivity.
Qed.

Lemma split_go_sep sep a rest : forall cur,
  no_sep sep a = true ->
  JS.split_go sep cur (a ++ String sep rest)
    = (cur ++ a) :: JS.split_go sep EmptyString rest.
Proof.
  induction a as [|c a IH]; intros cur H; simpl.
  - rewrite Ascii.eqb_refl, app_empty_r. reflexivity.
  - simpl in H. apply andb_true_iff in H as [Hc Ha]. apply negb_true_iff in Hc.
    rewrite Hc, (IH _ Ha), app_assoc_str. reflexivity.
Qed.

(** What the scan and [nextNumber] read in a serial with a three-digit
    number. *)
Lemma three_digit_serial year assetType i :
  0 <= year -> 0 <= i <= 999 ->
  let base := basePattern year assetType in
  order_key (base ++ pad3 i) = Some i /\
  suffix_number base (base ++ pad3 i) = i /\
  nextNumber (Some (base ++ pad3 i)) = i + 1.
Proof.
  intros Hyear Hi base.
  destruct (pad3_reads_back i) as [Hparse Hshort]; [lia|].
  destruct Hshort as [Hlen Hcast]; [lia|].
  split; [|split].
  - unfold order_key, SQL.RIGHT. rewrite length_app, Hlen.
    replace (String.length base + 3 - 3)%nat with (String.length base) by lia.
    rewrite <- Hlen at 1. rewrite substring_suffix. exact Hcast.
  - unfold suffix_number. rewrite length_app.
    replace (String.length base + String.length (pad3 i) - String.length base)%nat
      with (String.length (pad3 i)) by lia.
    rewrite substring_suffix, Hparse. reflexivity.
  - unfold nextNumber, JS.split, base, basePattern.
    rewrite !app_assoc_str.
    assert (Hprefix : no_sep "-" (serial_prefix assetType) = true).
    { destruct (pad_upper_two (JS.replace_non_letters assetType)
                              (filter_forallb _ _)) as [_ Hup].
      apply (forallb_impl _ _ _ upper_no_dash Hup). }
    assert (Hy : no_sep "-" (JS.toString year) = true).
    { apply (forallb_impl _ _ _ unsigned_no_dash), toString_unsigned, Hyear. }
    assert (Hp : no_sep "-" (pad3 i) = true).
    { apply (forallb_impl _ _ _ digit_no_dash), pad3_digits. unfold safe. lia. }
    change ("-" ++ JS.toString year ++ "-" ++ pad3 i)
      with (String "-" (JS.toString year ++ String "-" (pad3 i))).
    rewrite (split_go_sep "-" _ _ _ Hprefix), (split_go_sep "-" _ _ _ Hy),
            (split_go_plain "-" _ _ Hp).
    cbn [List.length Nat.eqb List.nth append]. rewrite Hparse.
    unfold JS.add. apply number_exact. lia.
Qed.

Lemma eval_rows_all {A B} (f : A -> option B) (g : A -> B) l :
  (forall x, In x l -> f x = Some (g x)) ->
  eval_rows f l = Some (List.map g l).
Proof.
  induction l as [|x l IH]; intro H; [reflexivity|]. simpl.
  rewrite (H x (in_eq _ _)), IH; [reflexivity|].
  intros y Hy. apply H, in_cons, Hy.
Qed.

Lemma top1_desc_max {A} (key : A -> Z) l r :
  top1_desc key l = Some r -> forall x, In x l -> key x <= key r.
Proof.
  revert r. induction l as [|a l IH]; intros r H x Hx; [destruct Hx|].
  simpl in H. destruct (top1_desc key l) as [r'|] eqn:E.
  - specialize (IH r' eq_refl).
    destruct (key a <? key r') eqn:Elt; injection H as <-.
    + apply Z.ltb_lt in Elt. destruct Hx as [Hx|Hx].
      * subst x. lia.
      * apply IH. exact Hx.
    + apply Z.ltb_ge in Elt. destruct Hx as [Hx|Hx].
      * subst x. lia.
      * specialize (IH x Hx). lia.
  - injection H as <-. apply top1_desc_None in E. subst l.
    destruct Hx as [Hx|[]]. subst x. lia.
Qed.

Lemma fold_max_spec l : forall init,
  let m := List.fold_left Z.max l init in
  (m = init \/ In m l) /\ init <= m /\ forall x, In x l -> x <= m.
Proof.
  induction l as [|a l IH]; intro init; simpl.
  - split; [left; reflexivity|]. split; [lia|intros x []].
  - destruct (IH (Z.max init a)) as (Hin & Hge & Hall). split; [|split].
    + destruct Hin as [Hm|Hm]; [|right; right; exact Hm].
      destruct (Z.max_spec init a) as [[_ E]|[_ E]].
      * right. left. rewrite Hm. symmetry. exact E.
      * left. rewrite Hm. exact E.
    + lia.
    + intros x [<-|Hx]; [lia|apply Hall, Hx].
Qed.

(** The first run of [generateSerialNumber] on a table whose matching
    serials all have a three-digit number. *)
Lemma first_run_with_three_digits year db assetType :
  0 <= year ->
  let base := basePattern year assetType in
  (forall s, In s (matching_serials db (base ++ "%")) ->
     exists i, 0 <= i <= 999 /\ s = base ++ pad3 i) ->
  generateSerialNumber 1 (quiescent year db) 0 assetType
    = Some (Resolved (base ++ pad3 (spec_nextNumber db base))) /\
  1 <= spec_nextNumber db base <= 1000.
Proof.
  intros Hyear base Hform.
  set (M := matching_serials db (base ++ "%")) in *.
  set (g := suffix_number base).
  assert (Hg : forall s, In s M ->
            order_key s = Some (g s) /\ nextNumber (Some s) = g s + 1 /\
            0 <= g s <= 999).
  { intros s Hs. destruct (Hform s Hs) as [i [Hi ->]].
    destruct (three_digit_serial year assetType i Hyear Hi) as (H1 & H2 & H3).
    fold base in H1, H2, H3. unfold g. rewrite H1, H2, H3. repeat split; lia. }
  set (N := spec_nextNumber db base).
  assert (Hnext : exists recordset,
            select_top_serial db (base ++ "%") = inl recordset /\
            nextNumber recordset = N /\ 1 <= N <= 1000 /\
            forall s, In s M -> g s < N).
  { unfold select_top_serial. fold M.
    rewrite (eval_rows_all _ (fun s => (g s, s)) M)
      by (intros s Hs; rewrite (proj1 (Hg s Hs)); reflexivity).
    unfold N, spec_nextNumber. fold M. fold g.
    destruct M as [|s0 rest] eqn:EM.
    - exists None. repeat split; try reflexivity; try lia. intros s [].
    - destruct (top1_desc fst (List.map (fun s => (g s, s)) (s0 :: rest)))
        as [[k sk]|] eqn:Etop; [|apply top1_desc_None in Etop; discriminate].
      pose proof (top1_desc_In _ _ _ Etop) as Hin.
      apply in_map_iff in Hin as [s' [Hs' Hin]]. injection Hs' as Hk Hsk. subst s'.
      pose proof (top1_desc_max _ _ _ Etop) as Hmax. cbn [fst] in Hmax.
      assert (Hbound : forall s, In s (s0 :: rest) -> g s <= k).
      { intros s Hs. apply (Hmax (g s, s)), in_map_iff. exists s. auto. }
      destruct (fold_max_spec (List.map g rest) (g s0)) as (Hmem & Hge & Hall).
      set (m := List.fold_left Z.max (List.map g rest) (g s0)) in *.
      assert (Hm : m = k).
      { apply Z.le_antisymm.
        - destruct Hmem as [->|Hmem]; [apply Hbound; left; reflexivity|].
          apply in_map_iff in Hmem as [s [<- Hs]]. apply Hbound. right. exact Hs.
        - rewrite <- Hk. destruct Hin as [->|Hin]; [exact Hge|].
          apply Hall, in_map, Hin. }
      exists (Some sk). cbn [option_map snd].
      destruct (Hg sk Hin) as (_ & Hnn & Hr).
      rewrite Hnn, Hk, Hm. split; [reflexivity|]. split; [reflexivity|].
      split; [lia|]. intros s Hs. specialize (Hbound s Hs). lia. }
  destruct Hnext as [recordset (Hscan & Hnn & HN & Hbelow)].
  split; [|exact HN].
  assert (Hfresh : count_serial db (base ++ pad3 N) = 0).
  { apply count_rows_zero. apply not_true_is_false. intro Hex.
    apply existsb_exists in Hex as [x [Hx Heq]].
    destruct (SerialNumber x) as [s|] eqn:Es; [|discriminate].
    pose proof (eq_candidate_like _ year assetType N s (ltac:(unfold safe; lia)) Heq)
      as Hlike.
    fold base in Hlike.
    assert (Hs : In s M).
    { unfold M, matching_serials. apply in_flat_map. exists x. split; [exact Hx|].
      rewrite Es, Hlike. left. reflexivity. }
    destruct (Hform s Hs) as [i [Hi ->]]. specialize (Hbelow _ Hs).
    destruct (three_digit_serial year assetType i Hyear Hi) as (_ & H2 & _).
    fold base in H2. unfold g in Hbelow. rewrite H2 in Hbelow.
    unfold SQL.eq in Heq.
    rewrite !rtrim_app_fixed in Heq
      by (try apply rtrim_digits; try apply pad3_digits; try apply pad3_not_empty;
          unfold safe; lia).
    rewrite str_eqb_cancel in Heq.
    apply digits_str_eqb in Heq; try (apply pad3_digits; unfold safe; lia).
    pose proof (proj1 (pad3_reads_back i ltac:(lia))) as Pi.
    pose proof (proj1 (pad3_reads_back N ltac:(lia))) as PN.
    rewrite Heq, PN in Pi. injection Pi as Pi. lia. }
  rewrite generateSerialNumber_unfold. unfold quiescent, attempt.
  cbn [view_year at_scan at_check]. fold base. rewrite Hscan, Hnn.
  unfold format_serial. fold (pad3 N). rewrite Hfresh. reflexivity.
Qed.

(** X14.  While every serial of the table that matches the prefix and the
    year has a three-digit number (000 to 999) and no other session writes,
    [generateSerialNumber] returns at its first run the serial that the
    rule of the specification gives: the highest number among the matching
    serials plus one, 1 when there is none; the number it returns is between
    1 and 1000.  (The year is taken not to be negative.) *)
Theorem allocation_with_three_digits year db assetType :
  0 <= year ->
  let base := basePattern year assetType in
  (forall s, In s (matching_serials db (base ++ "%")) ->
     exists i, 0 <= i <= 999 /\ s = base ++ pad3 i) ->
  generateSerialNumber 1 (quiescent year db) 0 assetType
    = Some (Resolved (base ++ pad3 (spec_nextNumber db base))) /\
  1 <= spec_nextNumber db base <= 1000.
Proof. exact (first_run_with_three_digits year db assetType). Qed.

Lemma allocation_with_three_digits_witness :
  generateSerialNumber 1
    (quiescent 2025 (serve_all sample_settings (empty_db CaseInsensitive) two_laptops))
    0 "Laptop"
    = Some (Resolved "LA-2025-003").
Proof.
  assert (Hyear : 0 <= 2025) by lia.
  refine (proj1 (allocation_with_three_digits 2025
                   (serve_all sample_settings (empty_db CaseInsensitive) two_laptops)
                   "Laptop" Hyear _)).
  assert (Hrows :
    matching_serials
      (serve_all sample_settings (empty_db CaseInsensitive) two_laptops)
      (basePattern 2025 "Laptop" ++ "%")
    = ["LA-2025-001"; "LA-2025-002"]) by (vm_compute; reflexivity).
  rewrite Hrows. intros s [<-|[<-|[]]].
  - exists 1. split; [lia|vm_compute; reflexivity].
  - exists 2. split; [lia|vm_compute; reflexivity].
Defined.

(* ================================================================== *)
(** ** The format of the serial that is returned *)
(* ================================================================== *)

(** C6.  While every serial of the table that matches the prefix and the
    year has a three-digit number and no other session writes, the call
    returns, at its first run, the prefix, a dash, the year, a dash and a
    sequence number between 1 and 1000 written in decimal and padded with
    zeros to at least three digits; the prefix is made of the letters of the
    asset type: the first two, in upper case, padded with X to two letters.
    Whatever other sessions write, a serial that the call returns is the
    prefix, a dash, the year on the clock at one of its runs, a dash and the
    string of a number that is at least 1, padded to at least three
    characters; they are all digits when the number is below 2^53.  With no
    serial in the table that matches the prefix and the year, and no other
    session writing, the call returns number 001 at its first run.  In 2025,
    with no serial in the table, the call for "Laptop" returns LA-2025-001;
    once the asset is created with it, a second call returns LA-2025-002;
    the calls for "IO" and "A" return IO-2025-001 and AX-2025-001. *)
Theorem serial_number_format :
  (forall year db assetType,
     0 <= year ->
     (forall s, In s (matching_serials db (basePattern year assetType ++ "%")) ->
        exists i, 0 <= i <= 999 /\ s = basePattern year assetType ++ pad3 i) ->
     exists n,
       let pp := serial_prefix assetType in
       let yyyy := JS.toString year in
       let nnn := JS.padStart 3 "0" (JS.toString n) in
       1 <= n <= 1000 /\
       generateSerialNumber 1 (quiescent year db) 0 assetType
         = Some (Resolved ((pp ++ "-" ++ yyyy ++ "-") ++ nnn)) /\
       pp = JS.padEnd 2 "X"
              (JS.toUpperCase (JS.substring0 2 (JS.replace_non_letters assetType))) /\
       String.length pp = 2%nat /\ JS.forallb JS.is_upper pp = true /\
       (3 <= String.length nnn)%nat /\ JS.forallb JS.is_digit nnn = true) /\
  (forall fuel views k assetType s,
     generateSerialNumber fuel views k assetType = Some (Resolved s) ->
     exists j n,
       let pp := serial_prefix assetType in
       let yyyy := JS.toString (view_year (views j)) in
       let nnn := JS.padStart 3 "0" (JS.toString n) in
       1 <= n /\
       s = (pp ++ "-" ++ yyyy ++ "-") ++ nnn /\
       pp = JS.padEnd 2 "X"
              (JS.toUpperCase (JS.substring0 2 (JS.replace_non_letters assetType))) /\
       String.length pp = 2%nat /\ JS.forallb JS.is_upper pp = true /\
       (3 <= String.length nnn)%nat /\
       (n < 9007199254740992 -> JS.forallb JS.is_digit nnn = true)) /\
  (forall year db assetType,
     matching_serials db (basePattern year assetType ++ "%") = [] ->
     generateSerialNumber 1 (quiescent year db) 0 assetType
       = Some (Resolved ((serial_prefix assetType ++ "-" ++ JS.toString year ++ "-")
                         ++ "001"))) /\
  (forall co,
     generateSerialNumber 1 (quiescent 2025 (empty_db co)) 0 "Laptop"
       = Some (Resolved "LA-2025-001")) /\
  (forall msg co now,
     exists db1 row,
       post_assets msg 1 2025 now (empty_db co) "ThinkPad T14" "Laptop"
         = Some (db1, mkResponse 201 true "Asset created successfully" (Some row)) /\
       SerialNumber row = Some "LA-2025-001" /\
       generateSerialNumber 1 (quiescent 2025 db1) 0 "Laptop"
         = Some (Resolved "LA-2025-002")) /\
  (forall co,
     generateSerialNumber 1 (quiescent 2025 (empty_db co)) 0 "IO"
       = Some (Resolved "IO-2025-001")) /\
  (forall co,
     generateSerialNumber 1 (quiescent 2025 (empty_db co)) 0 "A"
       = Some (Resolved "AX-2025-001")).
Proof.
  split; [|split; [|split; [|split; [|split; [|split]]]]].
  - intros year db assetType Hyear Hform.
    destruct (first_run_with_three_digits year db assetType Hyear Hform)
      as [Hrun Hn].
    exists (spec_nextNumber db (basePattern year assetType)). cbv zeta.
    destruct (pad_upper_two (JS.replace_non_letters assetType)
                            (filter_forallb _ _)) as [Hlen Hup].
    destruct (sequence_digits (spec_nextNumber db (basePattern year assetType)))
      as [Hn3 Hdig]; [unfold safe; lia|].
    repeat split; try assumption; lia.
  - intros fuel views k assetType s H.
    apply generateSerialNumber_format in H as [j [n [Hn ->]]].
    exists j, n. cbv zeta.
    destruct (pad_upper_two (JS.replace_non_letters assetType)
                            (filter_forallb _ _)) as [Hlen Hup].
    repeat split; try assumption.
    + unfold JS.padStart. rewrite length_app, length_repeat. lia.
    + intro Hsafe. apply (sequence_digits n). unfold safe. lia.
  - intros year db assetType H. apply first_serial, H.
  - intros []; vm_compute; reflexivity.
  - intros msg [] now; eexists; eexists; repeat split.
  - intros []; vm_compute; reflexivity.
  - intros []; vm_compute; reflexivity.
Qed.

Lemma serial_number_format_witness :
  (exists n,
     1 <= n <= 1000 /\
     generateSerialNumber 1
       (quiescent 2025 (serve_all sample_settings (empty_db CaseInsensitive) two_laptops))
       0 "Laptop"
       = Some (Resolved ((serial_prefix "Laptop" ++ "-" ++ JS.toString 2025 ++ "-")
                         ++ JS.padStart 3 "0" (JS.toString n)))) /\
  (exists j n,
     1 <= n /\
     "LA-2025-001"
       = (serial_prefix "Laptop" ++ "-"
          ++ JS.toString (view_year (quiescent 2025 (empty_db CaseSensitive) j)) ++ "-")
         ++ JS.padStart 3 "0" (JS.toString n)) /\
  generateSerialNumber 1 (quiescent 2025 sample_db) 0 "Laptop"
    = Some (Resolved "LA-2025-001").
Proof.
  split; [|split].
  - assert (Hyear : 0 <= 2025) by lia.
    assert (Hrows :
      matching_serials
        (serve_all sample_settings (empty_db CaseInsensitive) two_laptops)
        (basePattern 2025 "Laptop" ++ "%")
      = ["LA-2025-001"; "LA-2025-002"]) by (vm_compute; reflexivity).
    destruct (proj1 serial_number_format 2025
                (serve_all sample_settings (empty_db CaseInsensitive) two_laptops)
                "Laptop" Hyear) as [n (Hn & Hrun & _)].
    + rewrite Hrows. intros s [<-|[<-|[]]].
      * exists 1. split; [lia|vm_compute; reflexivity].
      * exists 2. split; [lia|vm_compute; reflexivity].
    + exists n. split; assumption.
  - destruct (proj1 (proj2 serial_number_format) 1%nat
                (quiescent 2025 (empty_db CaseSensitive)) 0%nat "Laptop"
                "LA-2025-001" eq_refl) as [j [n (Hn & Hs & _)]].
    exists j, n. split; assumption.
  - apply (proj1 (proj2 (proj2 serial_number_format)) 2025 sample_db "Laptop").
    vm_compute; reflexivity.
Defined.
(* ================================================================== *)
(** ** The list of asset types *)
(* ================================================================== *)

Lemma set_go_in t : forall l seen,
  In t (set_go seen l) <-> In t l /\ ~ In t seen.
Proof.
  induction l as [|x l IH]; intros seen; simpl.
  - tauto.
  - destruct (existsb (String.eqb x) seen) eqn:E.
    + rewrite IH. apply existsb_exists in E. destruct E as [y [Hy E]].
      apply String.eqb_eq in E. subst y.
      split.
      * intros [H1 H2]. split; [right; exact H1|exact H2].
      * intros [[->|H1] H2]; [contradiction|]. split; assumption.
    + simpl. rewrite IH. simpl.
      assert (Hx : ~ In x seen).
      { intros Hin. rewrite <- not_true_iff_false in E. apply E.
        apply existsb_exists. exists x. split; [exact Hin|apply String.eqb_refl]. }
      split.
      * intros [->|[H1 H2]]; [split; [left; reflexivity|exact Hx]|].
        split; [right; exact H1|]. intros H. apply H2. right. exact H.
      * intros [[->|H1] H2]; [left; reflexivity|].
        destruct (string_dec x t) as [->|Hne]; [left; reflexivity|].
        right. split; [exact H1|]. intros [H|H]; [exact (Hne H)|exact (H2 H)].
Qed.

Lemma set_go_nodup : forall l seen, NoDup (set_go seen l).
Proof.
  induction l as [|x l IH]; intros seen; simpl; [constructor|].
  destruct (existsb (String.eqb x) seen); [apply IH|].
  constructor; [|apply IH].
  rewrite set_go_in. intros [_ H]. apply H. left. reflexivity.
Qed.

Lemma sort_insert_perm x l : Permutation (sort_insert x l) (x :: l).
Proof.
  induction l as [|y l IH]; simpl; [reflexivity|].
  destruct (String.leb x y); [reflexivity|].
  rewrite IH. apply perm_swap.
Qed.

Lemma js_sort_perm l : Permutation (js_sort l) l.
Proof.
  induction l as [|x l IH]; simpl; [reflexivity|].
  rewrite sort_insert_perm. constructor. exact IH.
Qed.

Lemma sort_insert_sorted x l : ascending l -> ascending (sort_insert x l).
Proof.
  unfold ascending. induction 1 as [|y l Hl IH Hy]; simpl.
  - repeat constructor.
  - destruct (String.leb x y) eqn:E.
    + constructor; [constructor; assumption|]. constructor. exact E.
    + assert (Hyx : String.leb y x = true).
      { destruct (String.leb_total x y) as [H|H]; [congruence|exact H]. }
      constructor; [exact IH|].
      destruct l as [|z l]; simpl.
      * constructor. exact Hyx.
      * destruct (String.leb x z); constructor; [exact Hyx|].
        inversion Hy. assumption.
Qed.

Lemma js_sort_sorted l : ascending (js_sort l).
Proof.
  induction l as [|x l IH]; simpl; [constructor|].
  apply sort_insert_sorted, IH.
Qed.

Lemma distinct_in co t : forall l seen, In t (distinct co seen l) -> In t l.
Proof.
  induction l as [|x l IH]; intros seen; simpl; [tauto|].
  destruct (existsb (SQL.eq co x) seen).
  - intros H. right. exact (IH _ H).
  - intros [H|H]; [left; exact H|right; exact (IH _ H)].
Qed.

Lemma distinct_covers co t : forall l seen,
  In t l ->
  existsb (SQL.eq co t) seen = true \/
  exists u, In u (distinct co seen l) /\ SQL.eq co u t = true.
Proof.
  induction l as [|x l IH]; intros seen; simpl; [tauto|].
  intros [->|Hin].
  - destruct (existsb (SQL.eq co t) seen) eqn:E; [left; reflexivity|].
    right. exists t. split; [left; reflexivity|apply sql_eq_refl].
  - destruct (existsb (SQL.eq co x) seen) eqn:E; [apply IH, Hin|].
    destruct (IH (x :: seen) Hin) as [H|[u [Hu Heq]]].
    + simpl in H. apply orb_true_iff in H. destruct H as [H|H]; [|left; exact H].
      right. exists x. split; [left; reflexivity|].
      rewrite sql_eq_sym. exact H.
    + right. exists u. split; [right; exact Hu|exact Heq].
Qed.

(** X15.  The list of [GET /api/asset-types] is in ascending order of code
    units and has no value twice; it holds every default type, for every
    asset whose type is not blank a type equal to it under the collation of
    the database, and nothing but default types and types of assets. *)
Theorem asset_types_listing order_by_AssetType db :
  (forall l, Permutation (order_by_AssetType l) l) ->
  let types := get_asset_types order_by_AssetType db in
  ascending types /\ NoDup types /\
  (forall t, In t defaultTypes -> In t types) /\
  (forall x, In x (Assets db) ->
     SQL.eq (db_collation db) (AssetType x) "" = false ->
     exists t, In t types /\ SQL.eq (db_collation db) t (AssetType x) = true) /\
  (forall t, In t types ->
     In t defaultTypes \/ exists x, In x (Assets db) /\ AssetType x = t).
Proof.
  intros Hord types.
  assert (Hin : forall t, In t types <->
            In t defaultTypes \/ In t (select_asset_types order_by_AssetType db)).
  { intros t. unfold types, get_asset_types. split.
    - intros H. apply (Permutation_in _ (js_sort_perm _)) in H.
      apply set_go_in in H. destruct H as [H _]. apply in_app_or in H. exact H.
    - intros H. apply (Permutation_in _ (Permutation_sym (js_sort_perm _))).
      apply set_go_in. split; [apply in_or_app; exact H|intros []]. }
  split; [apply js_sort_sorted|].
  split.
  { unfold types, get_asset_types.
    apply (Permutation_NoDup (Permutation_sym (js_sort_perm _))).
    apply set_go_nodup. }
  split; [intros t Ht; apply Hin; left; exact Ht|].
  split.
  - intros x Hx Hne.
    destruct (distinct_covers (db_collation db) (AssetType x)
                (List.filter (fun t => negb (SQL.eq (db_collation db) t ""))
                             (List.map AssetType (Assets db))) [])
      as [H|[u [Hu Heq]]].
    + apply filter_In. split; [apply in_map; exact Hx|]. rewrite Hne. reflexivity.
    + discriminate.
    + exists u. split; [|exact Heq]. apply Hin. right.
      unfold select_asset_types.
      apply (Permutation_in _ (Permutation_sym (Hord _))). exact Hu.
  - intros t Ht. apply Hin in Ht. destruct Ht as [Ht|Ht]; [left; exact Ht|].
    right. unfold select_asset_types in Ht.
    apply (Permutation_in _ (Hord _)) in Ht.
    apply distinct_in in Ht. apply filter_In in Ht. destruct Ht as [Ht _].
    apply in_map_iff in Ht. destruct Ht as [x [Hx1 Hx2]].
    exists x. split; assumption.
Qed.

Lemma asset_types_listing_witness :
  let types := get_asset_types (fun l => l) sample_db in
  ascending types /\ NoDup types /\
  (forall t, In t defaultTypes -> In t types) /\
  (forall x, In x (Assets sample_db) ->
     SQL.eq (db_collation sample_db) (AssetType x) "" = false ->
     exists t, In t types /\ SQL.eq (db_collation sample_db) t (AssetType x) = true) /\
  (forall t, In t types ->
     In t defaultTypes \/ exists x, In x (Assets sample_db) /\ AssetType x = t).
Proof.
  apply (asset_types_listing (fun l => l) sample_db).
  intros l. apply Permutation_refl.
Defined.

(* ================================================================== *)
(** ** Assign for an asset or an employee that does not exist *)
(* ================================================================== *)

(** X16.  Assign for a free asset when the asset or the employee does not
    exist: the INSERT of the procedure is refused by a foreign key, so no
    table changes, one identity value of [AssetAssignments] is used up, and
    the handler answers from its [catch] block, with 400 or 409, no success
    and no data; with 400 and the text of the engine when that text does not
    contain 'already assigned'. *)
Theorem assign_of_missing_asset_or_employee msg db now a e :
  existsb (active_for a) (AssetAssignments db) = false ->
  (asset_exists db a && employee_exists db e)%bool = false ->
  let out := post_assignments msg db now a e in
  fst out = draw_AssignmentId db /\
  AssetAssignments (fst out) = AssetAssignments db /\
  ident_AssetAssignments (fst out) = ident_AssetAssignments db + 1 /\
  snd out = assign_catch msg ForeignKeyViolation /\
  (status (snd out) = 400 \/ status (snd out) = 409) /\
  success (snd out) = false /\
  data (snd out) = None /\
  (includes "already assigned" (msg ForeignKeyViolation) = false ->
   status (snd out) = 400 /\ message (snd out) = msg ForeignKeyViolation).
Proof.
  intros Hfree Hmiss out.
  assert (Hout : out = (draw_AssignmentId db, assign_catch msg ForeignKeyViolation)).
  { unfold out, post_assignments, sp_AssignAsset. rewrite Hfree.
    unfold insert_AssetAssignments. rewrite Hfree, Hmiss. reflexivity. }
  rewrite Hout. cbn [fst snd]. unfold assign_catch.
  repeat split; try reflexivity.
  - destruct (includes _ _); [right|left]; reflexivity.
  - destruct (includes _ _); reflexivity.
  - destruct (includes _ _); reflexivity.
  - rewrite H. reflexivity.
  - rewrite H. reflexivity.
Qed.

Lemma assign_of_missing_asset_or_employee_witness :
  let out := post_assignments sample_messages sample_db 100 99 1 in
  fst out = draw_AssignmentId sample_db /\
  AssetAssignments (fst out) = AssetAssignments sample_db /\
  ident_AssetAssignments (fst out) = ident_AssetAssignments sample_db + 1 /\
  snd out = assign_catch sample_messages ForeignKeyViolation /\
  (status (snd out) = 400 \/ status (snd out) = 409) /\
  success (snd out) = false /\
  data (snd out) = None /\
  (includes "already assigned" (sample_messages ForeignKeyViolation) = false ->
   status (snd out) = 400 /\ message (snd out) = sample_messages ForeignKeyViolation).
Proof.
  apply (assign_of_missing_asset_or_employee sample_messages sample_db 100 99 1);
    vm_compute; reflexivity.
Defined.

(* ================================================================== *)
(** ** The ledger under all requests *)
(* ================================================================== *)

(** X17.  In every state that requests of the server and single statements
    reach from the empty database, in any order and whatever their
    arguments, an asset has at most one active assignment and no row is
    returned before it was assigned: creating employees and assets, editing
    assets and renaming types do not touch [AssetAssignments]. *)
Theorem ledger_holds_under_all_requests cfg co rs :
  let db := serve_all cfg (empty_db co) rs in
  (forall a, count_rows (active_for a) (AssetAssignments db) <= 1) /\
  (forall r t, In r (AssetAssignments db) ->
     ReturnedAt r = Some t -> AssignedAt r <= t).
Proof.
  intros db. destruct (serve_all_ledger cfg co rs) as [H1 H2].
  split; [exact H1|].
  intros r t Hr Ht. specialize (H2 r Hr). fold db in H2.
  rewrite Ht in H2. exact H2.
Qed.

